(** * Mancing-Apa: the 3D fishing scene

    A shallow embedding of the scene code: the species viewer and its
    low-poly fish generator (src/components/FishViewer.tsx), the seabed
    controller (SeabedController, src/unnamed/part_000) and the two
    versions of the ThreeView component (src/unnamed/part_001 without the
    map prop, src/unnamed/part_002 with it), with the properties its
    specification states about them.

    JavaScript numbers are read as real numbers, and a number written
    into a Float32Array as that number rounded to single precision;
    strings as [string]; three.js objects as trees with a name, a
    transform and children. *)

From Stdlib Require Import Reals Lra Lia ZArith List String Ascii Bool.
Import ListNotations.

Open Scope R_scope.
Open Scope string_scope.

Set Warnings "-register-all".

(** ** Vectors *)

Record Vector2 := vec2 { x2 : R; y2 : R }.
Record Vector3 := vec3 { vx : R; vy : R; vz : R }.

Definition zero3 : Vector3 := vec3 0 0 0.
Definition one3 : Vector3 := vec3 1 1 1.

Definition set_x (a : R) (v : Vector3) := vec3 a (vy v) (vz v).
Definition set_y (a : R) (v : Vector3) := vec3 (vx v) a (vz v).
Definition set_z (a : R) (v : Vector3) := vec3 (vx v) (vy v) a.

(** [Vector3.lerp(v, alpha)]: [this += (v - this) * alpha], per component. *)
Definition lerp (p v : Vector3) (alpha : R) : Vector3 :=
  vec3 (vx p + (vx v - vx p) * alpha)
       (vy p + (vy v - vy p) * alpha)
       (vz p + (vz v - vz p) * alpha).

(** ** Single precision *)

(** What a [Float32Array] holds of a number written into it, as
    [Math.fround] computes it: the nearest number with a significand of 24
    bits, ties going to the even significand.  Below the smallest normal
    number, 2^-126, the grid is that of the subnormal numbers.  Numbers
    beyond the largest finite single, which the array holds as Infinity,
    are not told apart here. *)
Module Float32.

(** The nearest integer, ties to even. *)
Definition nearestEven (r : R) : Z :=
  let n := Int_part r in
  if Rlt_dec (r - IZR n) (/ 2) then n
  else if Rlt_dec (/ 2) (r - IZR n) then (n + 1)%Z
       else if Z.even n then n else (n + 1)%Z.

Definition minNormal : R := powerRZ 2 (-126).

(** The binary exponent of [x], at least that of the smallest normal
    number. *)
Definition exponent (x : R) : Z :=
  Int_part (ln (Rmax (Rabs x) minNormal) / ln 2).

(** The unit in the last place of a significand of 24 bits. *)
Definition ulp (x : R) : R := powerRZ 2 (exponent x - 23).

Definition fround (x : R) : R := IZR (nearestEven (x / ulp x)) * ulp x.

(** Three numbers written into a [Float32Array]: a vertex of a
    [BufferAttribute]. *)
Definition store (v : Vector3) : Vector3 :=
  vec3 (fround (vx v)) (fround (vy v)) (fround (vz v)).

End Float32.

(** ** Strings *)

(** [s.includes(sub)]: [sub] occurs in [s] at some offset. *)
Fixpoint includes (s sub : string) : bool :=
  if String.prefix sub s then true
  else match s with
       | EmptyString => false
       | String _ s' => includes s' sub
       end.

(** ** The scene graph of three.js, as far as the code uses it *)

Module Three.

(** Colours are kept as the expressions the code builds them from. *)
Inductive Color :=
| ColorOf (css : string)
| ColorHex (hex : Z)
| offsetHSL (c : Color) (h s l : R).

Record Material := MeshStandardMaterial
  { color : Color; roughness : R; metalness : R;
    doubleSide : bool; flatShading : bool }.

(** Geometries are kept as their constructor calls; [rotateX] and
    [rotateZ] are the in-place rotations applied to a geometry. *)
Inductive Geometry :=
| TubeGeometry (path : list Vector3) (tubularSegments : nat) (radius : R)
               (radialSegments : nat) (closed : bool)
| ConeGeometry (radius height : R) (radialSegments : nat)
| CircleGeometry (radius : R) (segments : nat)
| LatheGeometry (points : list Vector2) (segments : nat)
| BoxGeometry (width height depth : R)
| CylinderGeometry (radiusTop radiusBottom height : R)
                   (radialSegments heightSegments : nat)
| IcosahedronGeometry (radius : R) (detail : nat)
| ShapeGeometry (outline : list Vector2)
| rotateX (angle : R) (g : Geometry)
| rotateZ (angle : R) (g : Geometry).

Inductive Content :=
| IsGroup
| IsMesh (g : Geometry) (m : Material).

(** An [Object3D]: a group or a mesh, its name (the empty string unless
    assigned), its transform and its children in insertion order. *)
Inductive Object3D := mkObject3D
  { content : Content;
    name : string;
    position : Vector3;
    rotation : Vector3;
    scale : Vector3;
    children : list Object3D }.

Definition Group : Object3D := mkObject3D IsGroup "" zero3 zero3 one3 [].
Definition Mesh (g : Geometry) (m : Material) : Object3D :=
  mkObject3D (IsMesh g m) "" zero3 zero3 one3 [].

Definition with_name (n : string) (o : Object3D) :=
  mkObject3D (content o) n (position o) (rotation o) (scale o) (children o).
Definition with_position (p : Vector3) (o : Object3D) :=
  mkObject3D (content o) (name o) p (rotation o) (scale o) (children o).
Definition with_rotation (r : Vector3) (o : Object3D) :=
  mkObject3D (content o) (name o) (position o) r (scale o) (children o).
Definition with_scale (s : Vector3) (o : Object3D) :=
  mkObject3D (content o) (name o) (position o) (rotation o) s (children o).
Definition with_children (cs : list Object3D) (o : Object3D) :=
  mkObject3D (content o) (name o) (position o) (rotation o) (scale o) cs.

(** [parent.add(c1, ..., cn)] *)
Definition add (cs : list Object3D) (parent : Object3D) :=
  with_children (children parent ++ cs) parent.

(** A reference to a node of a tree: the child indices from the root. *)
Definition Handle := list nat.

Section FirstHit.
Variable look : Object3D -> option Handle.

(** The first child, from index [i] on, in which [look] finds something. *)
Fixpoint firstHit (i : nat) (cs : list Object3D) : option Handle :=
  match cs with
  | [] => None
  | c :: cs' =>
      match look c with
      | Some h => Some (i :: h)
      | None => firstHit (S i) cs'
      end
  end.
End FirstHit.

(** [root.getObjectByName(n)]: the root itself if it carries the name,
    else the first hit in its children, searched depth first. *)
Fixpoint getObjectByName (n : string) (o : Object3D) : option Handle :=
  if String.eqb (name o) n then Some []
  else firstHit (getObjectByName n) 0 (children o).

Fixpoint deref (h : Handle) (o : Object3D) : option Object3D :=
  match h with
  | [] => Some o
  | i :: h' =>
      match nth_error (children o) i with
      | Some c => deref h' c
      | None => None
      end
  end.

Fixpoint update_nth {A} (i : nat) (f : A -> A) (l : list A) : list A :=
  match l, i with
  | [], _ => []
  | a :: l', O => f a :: l'
  | a :: l', S i' => a :: update_nth i' f l'
  end.

(** A write through a reference: the node under [h] becomes [f node],
    every other node stays as it is. *)
Fixpoint mutate (h : Handle) (f : Object3D -> Object3D) (o : Object3D)
  : Object3D :=
  match h with
  | [] => f o
  | i :: h' => with_children (update_nth i (mutate h' f) (children o)) o
  end.

(** Every name in the tree, root first, depth first. *)
Fixpoint names (o : Object3D) : list string :=
  name o :: flat_map names (children o).

End Three.

(** ** The species viewer: src/components/FishViewer.tsx *)

Module FishViewer.
Import Three.

(** The fields of [FishType] (declared in ../types) that the viewer
    reads. *)
Record FishType := mkFishType
  { id : string; fish_name : string; fish_color : string;
    difficulty : R; base : R }.

Section Generator.

(** [curve.getPointAt(u)] of three.js: the point at arc-length
    fraction [u] of the Catmull-Rom curve through the given points. *)
Variable getPointAt : list Vector3 -> R -> Vector3.

Definition mat (fish : FishType) : Material :=
  MeshStandardMaterial (ColorOf (fish_color fish)) 0.4 0.1 false true.
Definition bellyMat (fish : FishType) : Material :=
  MeshStandardMaterial (offsetHSL (ColorOf (fish_color fish)) 0 0.2 0.3)
                       0.5 0 false true.
Definition finMat (fish : FishType) : Material :=
  MeshStandardMaterial (offsetHSL (ColorOf (fish_color fish)) 0 0 (-0.1))
                       0.6 0 true true.
Definition eyeMat : Material :=
  MeshStandardMaterial (ColorHex 0x111111) 0.1 0 false true.
Definition armorMat : Material :=
  MeshStandardMaterial (ColorHex 0x4e342e) 0.8 0 false true.

(** The common triangular fin. *)
Definition createFin (fish : FishType) (w h : R) : Object3D :=
  Mesh (ShapeGeometry [vec2 0 0; vec2 w (h / 2); vec2 0 h; vec2 0 0])
       (finMat fish).

Definition dragonPath : list Vector3 :=
  [vec3 0 0 1.5; vec3 0 (-0.3) 0.5; vec3 0 0.3 (-0.5); vec3 0 0 (-1.5)].

(** One pass of the leaf loop of the sea dragon. *)
Definition dragonLeaf (fish : FishType) (i : nat) : Object3D :=
  let leaf := Mesh (CircleGeometry 0.2 3) (finMat fish) in
  let point := getPointAt dragonPath (INR i / 4) in
  let leaf := with_position point leaf in
  let leaf := with_position (set_y (vy (position leaf) + 0.15)
                                   (position leaf)) leaf in
  with_rotation
    (set_z (if Nat.eqb (i mod 2) 0 then 0.5 else -0.5) (rotation leaf))
    leaf.

Definition seaDragon (fish : FishType) (group : Object3D) : Object3D :=
  let tubeGeo := TubeGeometry dragonPath 12 0.2 4 false in
  let body := Mesh tubeGeo (mat fish) in
  let group := add [body] group in
  let headGeo := rotateX (- PI / 2) (ConeGeometry 0.2 0.8 4) in
  let head := Mesh headGeo (mat fish) in
  let head := with_position (vec3 0 0.1 1.6) head in
  let group := add [head] group in
  fold_left (fun group i => add [dragonLeaf fish i] group)
            (seq 0 5) group.

Definition shark (fish : FishType) (group : Object3D) : Object3D :=
  let points := [vec2 0 2.5; vec2 0.5 1.5; vec2 0.7 0.5;
                 vec2 0.4 (-1.5); vec2 0 (-3.0)] in
  let geo := rotateX (PI / 2) (LatheGeometry points 6) in
  let body := Mesh geo (mat fish) in
  let body := with_scale (set_z 0.8 (scale body)) body in
  let group := add [body] group in
  let dorsal := createFin fish 0.8 0.8 in
  let dorsal := with_rotation (set_y (- PI / 2) (rotation dorsal)) dorsal in
  let dorsal := with_rotation (set_z (- PI / 4) (rotation dorsal)) dorsal in
  let dorsal := with_position (vec3 0 0.6 0.2) dorsal in
  let group := add [dorsal] group in
  let tailGroup := with_name "Tail" Group in
  let tailGroup :=
    with_position (set_z (-2.8) (position tailGroup)) tailGroup in
  let topTail := createFin fish 1.0 0.6 in
  let topTail :=
    with_rotation (set_y (- PI / 2) (rotation topTail)) topTail in
  let topTail :=
    with_rotation (set_z (PI / 3) (rotation topTail)) topTail in
  let botTail := createFin fish 0.8 0.5 in
  let botTail :=
    with_rotation (set_y (- PI / 2) (rotation botTail)) botTail in
  let botTail :=
    with_rotation (set_z (- PI / 3) (rotation botTail)) botTail in
  let tailGroup := add [topTail; botTail] tailGroup in
  let group := add [tailGroup] group in
  let eye := Mesh (IcosahedronGeometry 0.08 0) eyeMat in
  let eye := with_position (vec3 0.35 0.2 1.8) eye in
  let group := add [eye] group in
  let eye2 := eye in
  let eye2 := with_position (vec3 (-0.35) 0.2 1.8) eye2 in
  add [eye2] group.

Definition boxFish (fish : FishType) (group : Object3D) : Object3D :=
  let headGeo := BoxGeometry 1.2 1.2 1.4 in
  let head := Mesh headGeo armorMat in
  let head := with_position (set_z 0.8 (position head)) head in
  let group := add [head] group in
  let bodyGeo := rotateX (- PI / 2) (ConeGeometry 0.6 2.5 5) in
  let body := Mesh bodyGeo (mat fish) in
  let body := with_position (set_z (-1.2) (position body)) body in
  let group := add [body] group in
  let tailGroup := with_name "Tail" Group in
  let tailGroup :=
    with_position (set_z (-2.5) (position tailGroup)) tailGroup in
  let tailFin := createFin fish 0.8 0.8 in
  let tailFin :=
    with_rotation (set_y (- PI / 2) (rotation tailFin)) tailFin in
  let tailGroup := add [tailFin] tailGroup in
  add [tailGroup] group.

Definition arowana (fish : FishType) (group : Object3D) : Object3D :=
  let points := [vec2 0 2.0; vec2 0.4 1.0; vec2 0.4 (-1.0);
                 vec2 0 (-2.0)] in
  let geo := rotateZ (PI / 4) (rotateX (PI / 2) (LatheGeometry points 4)) in
  let body := Mesh geo (mat fish) in
  let body := with_scale (vec3 0.6 1.2 1.0) body in
  let group := add [body] group in
  let eye := Mesh (IcosahedronGeometry 0.06 0) eyeMat in
  let eye := with_position (vec3 0.25 0.1 1.6) eye in
  let group := add [eye] group in
  let eye2 := eye in
  let eye2 := with_position (vec3 (-0.25) 0.1 1.6) eye2 in
  let group := add [eye2] group in
  let tailGroup := with_name "Tail" Group in
  let tailGroup :=
    with_position (set_z (-2.0) (position tailGroup)) tailGroup in
  let tail := Mesh (CylinderGeometry 0.4 0.1 0.8 4 1) (finMat fish) in
  let tail := with_rotation (set_x (PI / 2) (rotation tail)) tail in
  let tail := with_scale (set_z 0.1 (scale tail)) tail in
  let tailGroup := add [tail] tailGroup in
  add [tailGroup] group.

Definition coelacanth (fish : FishType) (group : Object3D) : Object3D :=
  let points := [vec2 0 1.5; vec2 0.6 0.5; vec2 0.6 (-0.5);
                 vec2 0.3 (-1.5); vec2 0 (-2.0)] in
  let geo := rotateX (PI / 2) (LatheGeometry points 8) in
  let body := Mesh geo (mat fish) in
  let group := add [body] group in
  let finB := createFin fish 0.6 0.6 in
  let finB := with_rotation (set_y (- PI / 2) (rotation finB)) finB in
  let finB := with_rotation (set_z PI (rotation finB)) finB in
  let finB := with_position (set_y (-0.5) (position finB)) finB in
  let group := add [finB] group in
  let tailGroup := with_name "Tail" Group in
  let tailGroup :=
    with_position (set_z (-2.0) (position tailGroup)) tailGroup in
  let tail := createFin fish 0.8 0.8 in
  let tail := with_rotation (set_y (- PI / 2) (rotation tail)) tail in
  let tail := with_rotation (set_z (PI / 2) (rotation tail)) tail in
  let tailGroup := add [tail] tailGroup in
  add [tailGroup] group.

Definition genericFish (fish : FishType) (group : Object3D) : Object3D :=
  let frontGeo := rotateX (PI / 2) (ConeGeometry 0.5 1.5 6) in
  let front := Mesh frontGeo (mat fish) in
  let front := with_position (set_z 0.75 (position front)) front in
  let group := add [front] group in
  let backGeo := rotateX (- PI / 2) (ConeGeometry 0.5 1.5 6) in
  let back := Mesh backGeo (mat fish) in
  let back := with_position (set_z (-0.75) (position back)) back in
  let group := add [back] group in
  let tailGroup := with_name "Tail" Group in
  let tailGroup :=
    with_position (set_z (-1.5) (position tailGroup)) tailGroup in
  let tail := createFin fish 0.8 0.8 in
  let tail := with_rotation (set_y (- PI / 2) (rotation tail)) tail in
  let tail := with_position (set_x 0 (position tail)) tail in
  let tail := with_rotation (set_z (PI / 2) (rotation tail)) tail in
  let tailGroup := add [tail] tailGroup in
  let group := add [tailGroup] group in
  let finL := createFin fish 0.5 0.5 in
  let finL := with_name "FinL" finL in
  let finL := with_position (vec3 0.4 (-0.2) 0.5) finL in
  let finL := with_rotation (set_y (- PI / 2) (rotation finL)) finL in
  let finL := with_rotation (set_z (- PI / 3) (rotation finL)) finL in
  let group := add [finL] group in
  let finR := createFin fish 0.5 0.5 in
  let finR := with_name "FinR" finR in
  let finR := with_position (vec3 (-0.4) (-0.2) 0.5) finR in
  let finR := with_rotation (set_y (- PI / 2) (rotation finR)) finR in
  let finR := with_rotation (set_z (PI / 3) (rotation finR)) finR in
  let group := add [finR] group in
  let eye := Mesh (IcosahedronGeometry 0.08 0) eyeMat in
  let eye := with_position (vec3 0.3 0.1 1.0) eye in
  let group := add [eye] group in
  let eye2 := eye in
  let eye2 := with_position (vec3 (-0.3) 0.1 1.0) eye2 in
  add [eye2] group.

(** The species dispatch: the first keyword found in the id decides. *)
Definition generateLowPolyFish (fish : FishType) : Object3D :=
  let group := Group in
  if includes (id fish) "dragon" then seaDragon fish group
  else if includes (id fish) "cosmic" || includes (id fish) "shark"
  then shark fish group
  else if includes (id fish) "ancient" || includes (id fish) "dunkle"
  then boxFish fish group
  else if includes (id fish) "rare" || includes (id fish) "arowana"
  then arowana fish group
  else if includes (id fish) "legend" || includes (id fish) "coelacanth"
  then coelacanth fish group
  else genericFish fish group.

End Generator.

(** *** The animation loop of the viewer *)

Record Viewer := mkViewer { fishGroup : Object3D; isDragging : bool }.

(** Slow turn and vertical drift of the whole fish, unless dragged. *)
Definition drift (time : R) (dragging : bool) (g : Object3D) : Object3D :=
  if negb dragging then
    let g := with_rotation (set_y (vy (rotation g) + 0.005) (rotation g)) g in
    with_position (set_y (sin (time * 1.5) * 0.1) (position g)) g
  else g.

(** Tail wag: [if (tail) tail.rotation.y = ...]. *)
Definition wagTail (time : R) (g : Object3D) : Object3D :=
  match getObjectByName "Tail" g with
  | Some tail =>
      mutate tail
        (fun o => with_rotation (set_y (sin (time * 6) * 0.25) (rotation o)) o)
        g
  | None => g
  end.

(** Fin flap: [if (finL && finR) { ... }]. *)
Definition flapFins (time : R) (g : Object3D) : Object3D :=
  match getObjectByName "FinL" g, getObjectByName "FinR" g with
  | Some finL, Some finR =>
      let g :=
        mutate finL
          (fun o => with_rotation
                      (set_z (PI / 3 + sin (time * 10) * 0.15) (rotation o)) o)
          g in
      mutate finR
        (fun o => with_rotation
                    (set_z (- PI / 3 - sin (time * 10) * 0.15) (rotation o)) o)
        g
  | _, _ => g
  end.

(** One pass of [animate] at clock reading [time] (seconds). *)
Definition animate (time : R) (v : Viewer) : Viewer :=
  let g := drift time (isDragging v) (fishGroup v) in
  let g := wagTail time g in
  let g := flapFins time g in
  mkViewer g (isDragging v).

(** The update [animate] makes for one named part. *)
Definition animatePart (part : string) (time : R) (g : Object3D)
  : Object3D :=
  if String.eqb part "Tail" then wagTail time g
  else if String.eqb part "FinL" || String.eqb part "FinR"
  then flapFins time g
  else g.

End FishViewer.

(** ** The seabed: SeabedController (src/unnamed/part_000) *)

Module SeabedController.

(** The vertex grid of three.js's [PlaneGeometry(width, height,
    widthSegments, heightSegments)]: rows from the top edge down, each
    row from left to right, in the plane z = 0 and centred on the
    origin.  The vertices are kept in the [Float32Array] of the position
    attribute. *)
Definition PlaneGeometry (width height : R)
           (widthSegments heightSegments : nat) : list Vector3 :=
  let width_half := width / 2 in
  let height_half := height / 2 in
  let segment_width := width / INR widthSegments in
  let segment_height := height / INR heightSegments in
  flat_map
    (fun iy =>
       let y := INR iy * segment_height - height_half in
       map (fun ix =>
              let x := INR ix * segment_width - width_half in
              Float32.store (vec3 x (- y) 0))
           (seq 0 (widthSegments + 1)))
    (seq 0 (heightSegments + 1)).

(** The body of the twisting loop, for one vertex: [getX], [getY] and
    [getZ] read the stored vertex, [setXYZ] stores the new one. *)
Definition twist (height : R) (v : Vector3) : Vector3 :=
  let y := vy v in
  let angle := (y / height) * PI in
  let x := vx v in
  let z := vz v in
  let cx := x * cos angle - z * sin angle in
  let cz := x * sin angle + z * cos angle in
  Float32.store (vec3 cx (y + height / 2) cz).

(** The geometry of one kelp stalk of the given height. *)
Definition kelpGeometry (height : R) : list Vector3 :=
  map (twist height) (PlaneGeometry 2 height 1 4).

(** A kelp stalk: the mesh (its vertices, position, rotation and sway
    phase) inside its wrapper group. *)
Record Kelp := mkKelp
  { vertices : list Vector3;
    kelp_position : Vector3;
    kelp_rotation : Vector3;
    phase : R }.

(** [initVegetation]: forty stalks.  [random k] is the k-th value that
    [Math.random()] returns to this step; each stalk draws four. *)
Definition kelpHeight (random : nat -> R) (i : nat) : R :=
  10 + random (4 * i)%nat * 15.

Definition initVegetation (random : nat -> R) : list Kelp :=
  map (fun i =>
         let height := kelpHeight random i in
         let x := (random (4 * i + 1)%nat - 0.5) * 150 in
         let z := (random (4 * i + 2)%nat - 0.5) * 150 - 20 in
         mkKelp (kelpGeometry height) (vec3 x (-25) z) zero3
                (random (4 * i + 3)%nat * PI * 2))
      (seq 0 40).

(** The controller: the visibility flag of its group and its kelp.  The
    sand floor and the ruins, which no property below speaks of, are
    left out. *)
Record t := mk { visible : bool; kelp : list Kelp }.

(** The constructor; a new three.js group is visible. *)
Definition new (random : nat -> R) : t := mk true (initVegetation random).

Definition setVisible (v : bool) (c : t) : t := mk v (kelp c).

(** The kelp half of [animate]. *)
Definition swayKelp (time : R) (c : t) : t :=
  mk (visible c)
     (map (fun ik : nat * Kelp =>
             let (i, k) := ik in
             let skew := sin (time + phase k) * 0.2 in
             let r := set_z (skew * 0.5) (kelp_rotation k) in
             let r := set_x (cos (time * 0.8 + INR i) * 0.1) r in
             mkKelp (vertices k) (kelp_position k) r (phase k))
          (combine (seq 0 (List.length (kelp c))) (kelp c))).

End SeabedController.

(** ** The fishing scene: what both versions of ThreeView share *)

Module Scene.

(** Modelled from the spec: [WeatherType] is declared in ../types, which
    is not among the sources; section 3 gives its four categories. *)
Inductive WeatherType := CLEAR | RAIN | STORM | FOG.

Definition WeatherType_eqb (a b : WeatherType) : bool :=
  match a, b with
  | CLEAR, CLEAR | RAIN, RAIN | STORM, STORM | FOG, FOG => true
  | _, _ => false
  end.

(** Modelled from the spec: the state a [WeatherController] exposes
    (section 3): the hour of day and the weather category. *)
Record WeatherState := mkWeatherState { time : R; weather : WeatherType }.

(** Modelled from the spec: [RodController] is not among the sources.
    Kept are the reeling flag that [setReeling] stores (section 4.5), the
    world position of the rod's tip that [getTipWorldPosition] reports,
    and the number of [triggerCast] calls received. *)
Record RodController := mkRod
  { reeling : bool; tipWorld : Vector3; castsTriggered : nat }.

(** Modelled from the spec: [RodController.triggerCast], of which the
    sources show only the call; the call is counted. *)
Definition triggerCast (r : RodController) : RodController :=
  mkRod (reeling r) (tipWorld r) (S (castsTriggered r)).

(** Modelled from the spec: [RodController.setReeling] stores the boolean
    animation flag (section 4.5). *)
Definition setReeling (b : bool) (r : RodController) : RodController :=
  mkRod b (tipWorld r) (castsTriggered r).

(** Modelled from the spec: [RodController.getTipWorldPosition] reports
    the world position of the rod's tip; the vector passed in to be filled
    is the result here. *)
Definition getTipWorldPosition (r : RodController) : Vector3 := tipWorld r.

(** Modelled from the spec: [BobberController] is not among the sources.
    Kept are the visibility flag that [setVisible] stores and the
    [position] vector that ThreeView reads and writes. *)
Record BobberController := mkBobber
  { bobberVisible : bool; bobberPosition : Vector3 }.

(** Modelled from the spec: [BobberController.setVisible] stores the
    visibility of the bobber (the set-node-visibility primitive of
    section 6). *)
Definition setVisible (b : bool) (c : BobberController) : BobberController :=
  mkBobber b (bobberPosition c).

(** A write to the [position] vector of the bobber. *)
Definition setPosition (p : Vector3) (c : BobberController)
  : BobberController :=
  mkBobber (bobberVisible c) p.

(** What the sources do not show of the controllers: the state a new one
    starts in and what their per-frame methods do to it. *)
Class Controllers := mkControllers
  { newRod : RodController;
    newBobber : BobberController;
    newWeather : WeatherState;
    weatherUpdate : R -> WeatherState -> WeatherState;
    rodAnimate : R -> RodController -> RodController;
    bobberAnimate : R -> BobberController -> BobberController;
    rodUpdate : Z -> string -> string -> RodController -> RodController;
    bobberUpdateEnchant : string -> BobberController -> BobberController }.

(** [renderer.getContext()], as a truth value. *)
Record Renderer := mkRenderer { getContext : bool }.

Record CastState := mkCastState { isCasted : bool; targetPos : Vector3 }.

Record WeatherReport := mkReport { lastWeather : WeatherType; hour : Z }.

(** The [THREE.Scene] behind [sceneRef]: kept is the fog it is given; the
    objects added to it are those of the other refs. *)
Record SceneGraph := mkScene { fogColor : Z; fogDensity : R }.

(** [new THREE.Scene()] with its fog, [FogExp2(0x87ceeb, 0.002)]. *)
Definition newScene : SceneGraph := mkScene 0x87ceeb 0.002.

(** The refs of the component, and [lastTime] of the animation loop.  The
    boat and fishing-spot controllers, the water and the camera take no
    part in the properties below and are left out. *)
Record State := mkState
  { sceneRef : option SceneGraph;
    rendererRef : option Renderer;
    rodCtrlRef : option RodController;
    bobberCtrlRef : option BobberController;
    weatherCtrlRef : option WeatherState;
    seabedCtrlRef : option SeabedController.t;
    line : option (Vector3 * Vector3);
    stateRef : CastState;
    lastWeatherReportRef : WeatherReport;
    lastTime : R }.

(** The refs as [useRef] creates them on the first render. *)
Definition initialState : State :=
  mkState None None None None None None None
          (mkCastState false (vec3 0 0 0)) (mkReport CLEAR (-1)) 0.

Definition set_sceneRef (g : option SceneGraph) (s : State) :=
  mkState g (rendererRef s) (rodCtrlRef s) (bobberCtrlRef s)
          (weatherCtrlRef s) (seabedCtrlRef s) (line s) (stateRef s)
          (lastWeatherReportRef s) (lastTime s).
Definition set_rendererRef (r : option Renderer) (s : State) :=
  mkState (sceneRef s) r (rodCtrlRef s) (bobberCtrlRef s) (weatherCtrlRef s)
          (seabedCtrlRef s) (line s) (stateRef s) (lastWeatherReportRef s)
          (lastTime s).
Definition set_rodCtrlRef (r : option RodController) (s : State) :=
  mkState (sceneRef s) (rendererRef s) r (bobberCtrlRef s)
          (weatherCtrlRef s) (seabedCtrlRef s) (line s) (stateRef s)
          (lastWeatherReportRef s) (lastTime s).
Definition set_bobberCtrlRef (b : option BobberController) (s : State) :=
  mkState (sceneRef s) (rendererRef s) (rodCtrlRef s) b (weatherCtrlRef s)
          (seabedCtrlRef s) (line s) (stateRef s) (lastWeatherReportRef s)
          (lastTime s).
Definition set_weatherCtrlRef (w : option WeatherState) (s : State) :=
  mkState (sceneRef s) (rendererRef s) (rodCtrlRef s) (bobberCtrlRef s) w
          (seabedCtrlRef s) (line s) (stateRef s) (lastWeatherReportRef s)
          (lastTime s).
Definition set_seabedCtrlRef (c : option SeabedController.t) (s : State) :=
  mkState (sceneRef s) (rendererRef s) (rodCtrlRef s) (bobberCtrlRef s)
          (weatherCtrlRef s) c (line s) (stateRef s)
          (lastWeatherReportRef s) (lastTime s).
Definition set_line (l : option (Vector3 * Vector3)) (s : State) :=
  mkState (sceneRef s) (rendererRef s) (rodCtrlRef s) (bobberCtrlRef s)
          (weatherCtrlRef s) (seabedCtrlRef s) l (stateRef s)
          (lastWeatherReportRef s) (lastTime s).
Definition set_stateRef (c : CastState) (s : State) :=
  mkState (sceneRef s) (rendererRef s) (rodCtrlRef s) (bobberCtrlRef s)
          (weatherCtrlRef s) (seabedCtrlRef s) (line s) c
          (lastWeatherReportRef s) (lastTime s).
Definition set_lastWeatherReportRef (r : WeatherReport) (s : State) :=
  mkState (sceneRef s) (rendererRef s) (rodCtrlRef s) (bobberCtrlRef s)
          (weatherCtrlRef s) (seabedCtrlRef s) (line s) (stateRef s) r
          (lastTime s).
Definition set_lastTime (t : R) (s : State) :=
  mkState (sceneRef s) (rendererRef s) (rodCtrlRef s) (bobberCtrlRef s)
          (weatherCtrlRef s) (seabedCtrlRef s) (line s) (stateRef s)
          (lastWeatherReportRef s) t.

(** The props the core reads.  [MapType] is read as a string;
    [onReady] and [onWeatherUpdate] record whether the callback was
    passed. *)
Record Props := mkProps
  { rodLevel : Z; enchant : string; rodSkin : string;
    map : string; onReady : bool; onWeatherUpdate : bool }.

(** What the host gives the mount: whether the container element is
    there, whether a WebGL context can be created, the values
    [Math.random()] hands to the seabed's vegetation step, and the two
    readings of [Date.now()] (loop start, first frame). *)
Record Host := mkHost
  { containerPresent : bool;
    webglAvailable : bool;
    random : nat -> R;
    startClock : R;
    firstFrameClock : R }.

(** A call of [onWeatherUpdate(weather, time)]. *)
Definition WeatherCall := (WeatherType * R)%type.

(** The calls of the command API. *)
Inductive Command :=
| Cast (distance : R)
| Reset
| SetReeling (b : bool).

(** What happens to a mounted component: a call of the API, or a frame
    at clock reading [now] (milliseconds). *)
Inductive Event :=
| Call (c : Command)
| Frame (now : R).

(** What a client of the API can tell apart. *)
Record Observation := mkObservation
  { obs_isCasted : bool;
    obs_targetPos : Vector3;
    obs_bobberVisible : option bool;
    obs_reeling : option bool }.

Definition observe (s : State) : Observation :=
  mkObservation (isCasted (stateRef s)) (targetPos (stateRef s))
                (option_map bobberVisible (bobberCtrlRef s))
                (option_map reeling (rodCtrlRef s)).

End Scene.

(** ** ThreeView without the map prop (src/unnamed/part_001) *)

Module ThreeViewPlain.
Import Scene.

Section WithControllers.
Context {K : Controllers}.

(** The edge-triggered weather report of [animate]. *)
Definition reportWeather (props : Props) (weatherState : WeatherState)
           (s : State) : State * option WeatherCall :=
  if onWeatherUpdate props then
    let currentHour := Int_part (time weatherState) in
    let last := lastWeatherReportRef s in
    if negb (WeatherType_eqb (lastWeather last) (weather weatherState))
       || negb (Z.eqb (hour last) currentHour)
    then (set_lastWeatherReportRef
            (mkReport (weather weatherState) currentHour) s,
          Some (weather weatherState, time weatherState))
    else (s, None)
  else (s, None).

(** The rod/line logic of [animate]; [time] is in seconds.  The two
    ends of the line are written into the [Float32Array] of its
    geometry. *)
Definition updateLine (time : R) (s : State) : State :=
  let isCasted := isCasted (stateRef s) in
  let targetPos := targetPos (stateRef s) in
  let rodTipPos :=
    match rodCtrlRef s with
    | Some rod => getTipWorldPosition rod
    | None => zero3
    end in
  match isCasted, bobberCtrlRef s, line s with
  | true, Some bobber, Some _ =>
      let position := lerp (bobberPosition bobber) targetPos 0.05 in
      let bobble := sin (time * 2.5) * 0.04 + cos (time * 1.5) * 0.02 in
      let position := set_y (bobble - 0.05) position in
      let s := set_bobberCtrlRef (Some (setPosition position bobber)) s in
      set_line
        (Some (Float32.store rodTipPos,
               Float32.store
                 (vec3 (vx position) (vy position + 0.3) (vz position)))) s
  | false, _, Some _ =>
      let swingX := sin (time * 1.5) * 0.1 in
      let swingZ := cos (time * 1.2) * 0.1 in
      set_line
        (Some (Float32.store rodTipPos,
               Float32.store
                 (vec3 (vx rodTipPos + swingX) (vy rodTipPos - 1.5)
                       (vz rodTipPos + swingZ)))) s
  | _, _, _ => s
  end.

(** The body of one frame, from the clock reading on. *)
Definition frame (props : Props) (now : R) (s : State)
  : State * option WeatherCall :=
  let dt := (now - lastTime s) / 1000 in
  let s := set_lastTime now s in
  let time := now * 0.001 in
  let '(s, call) :=
    match weatherCtrlRef s with
    | Some weatherCtrl =>
        let weatherState := weatherUpdate dt weatherCtrl in
        let s := set_weatherCtrlRef (Some weatherState) s in
        reportWeather props weatherState s
    | None => (s, None)
    end in
  let s := set_rodCtrlRef (option_map (rodAnimate time) (rodCtrlRef s)) s in
  let s :=
    set_bobberCtrlRef (option_map (bobberAnimate time) (bobberCtrlRef s))
                      s in
  let s :=
    set_seabedCtrlRef
      (option_map (SeabedController.swayKelp time) (seabedCtrlRef s)) s in
  (updateLine time s, call).

(** [animate]: every frame runs. *)
Definition animate (props : Props) (now : R) (s : State)
  : State * option WeatherCall :=
  frame props now s.

(** The controllers and objects that the first effect creates. *)
Definition build (host : Host) (s : State) : State :=
  let s := set_rodCtrlRef (Some newRod) s in
  let s := set_bobberCtrlRef (Some newBobber) s in
  let s :=
    set_seabedCtrlRef (Some (SeabedController.new (random host))) s in
  let s :=
    set_line (Some (Float32.store (vec3 0 0 0), Float32.store (vec3 0 0 0)))
             s in
  let s := set_weatherCtrlRef (Some newWeather) s in
  set_lastTime (startClock host) s.

(** The first effect: scene, renderer, controllers and the first
    frame.  It gives up when the container is missing; [None] stands
    for the exception that escapes, after the scene is made, when no WebGL
    context can be created. *)
Definition initEffect (host : Host) (props : Props) (s : State)
  : option (State * option WeatherCall) :=
  if negb (containerPresent host) then Some (s, None)
  else
    let s := set_sceneRef (Some newScene) s in
    if negb (webglAvailable host) then None
    else
      let s := set_rendererRef (Some (mkRenderer true)) s in
      let s := build host s in
      Some (animate props (firstFrameClock host) s).

(** The effect on [rodLevel], [enchant] and [rodSkin]. *)
Definition rodEffect (props : Props) (s : State) : State :=
  let s :=
    set_rodCtrlRef
      (option_map (rodUpdate (rodLevel props) (enchant props)
                             (rodSkin props)) (rodCtrlRef s)) s in
  set_bobberCtrlRef
    (option_map (bobberUpdateEnchant (enchant props)) (bobberCtrlRef s)) s.

(** The effects of the first render that act on the refs kept here, in
    the order they are declared. *)
Definition mount (host : Host) (props : Props) (s : State)
  : option (State * option WeatherCall) :=
  match initEffect host props s with
  | Some (s, call) => Some (rodEffect props s, call)
  | None => None
  end.

(** The last effect: [onReady] is called with the API when it was
    passed.  The result tells whether the call is made. *)
Definition readyEffect (props : Props) : bool := onReady props.

(** The first render with its callbacks: the refs after the effects, the
    weather report of the first frame, and whether [onReady] was
    called. *)
Definition firstRender (host : Host) (props : Props) (s : State)
  : option (State * option WeatherCall * bool) :=
  match mount host props s with
  | Some (s, call) => Some (s, call, readyEffect props)
  | None => None
  end.

End WithControllers.

(** [apiRef.current.cast] *)
Definition cast (distance : R) (s : State) : State :=
  let s := set_stateRef (mkCastState true (targetPos (stateRef s))) s in
  let s :=
    match rodCtrlRef s with
    | Some rod => set_rodCtrlRef (Some (triggerCast rod)) s
    | None => s
    end in
  let s :=
    match bobberCtrlRef s with
    | Some bobber =>
        let bobber := setVisible true bobber in
        let startPos := zero3 in
        let startPos :=
          match rodCtrlRef s with
          | Some rod => getTipWorldPosition rod
          | None => startPos
          end in
        set_bobberCtrlRef (Some (setPosition startPos bobber)) s
    | None => s
    end in
  let zPos := -10 - distance / 5 in
  set_stateRef (mkCastState (isCasted (stateRef s)) (vec3 0 0 zPos)) s.

(** [apiRef.current.reset] *)
Definition reset (s : State) : State :=
  let s := set_stateRef (mkCastState false (targetPos (stateRef s))) s in
  let s :=
    match rodCtrlRef s with
    | Some rod => set_rodCtrlRef (Some (setReeling false rod)) s
    | None => s
    end in
  match bobberCtrlRef s with
  | Some bobber => set_bobberCtrlRef (Some (setVisible false bobber)) s
  | None => s
  end.

(** [apiRef.current.setReeling] *)
Definition setReeling (reeling : bool) (s : State) : State :=
  match rodCtrlRef s with
  | Some rod => set_rodCtrlRef (Some (Scene.setReeling reeling rod)) s
  | None => s
  end.

Definition call (c : Command) (s : State) : State :=
  match c with
  | Cast distance => cast distance s
  | Reset => reset s
  | SetReeling b => setReeling b s
  end.

(** A sequence of API calls, oldest first. *)
Definition calls (cs : list Command) (s : State) : State :=
  fold_left (fun s c => call c s) cs s.

Section Running.
Context {K : Controllers}.

Definition step (props : Props) (e : Event) (s : State)
  : State * option WeatherCall :=
  match e with
  | Call c => (call c s, None)
  | Frame now => animate props now s
  end.

(** The states and callback calls that a sequence of events goes
    through, one entry per event. *)
Fixpoint run (props : Props) (es : list Event) (s : State)
  : list (State * option WeatherCall) :=
  match es with
  | [] => []
  | e :: es' =>
      let r := step props e s in
      r :: run props es' (fst r)
  end.

End Running.

End ThreeViewPlain.

(** ** ThreeView with the map prop (src/unnamed/part_002) *)

Module ThreeViewMap.
Import Scene.

Section WithControllers.
Context {K : Controllers}.

(** The edge-triggered weather report of [animate]. *)
Definition reportWeather (props : Props) (weatherState : WeatherState)
           (s : State) : State * option WeatherCall :=
  if onWeatherUpdate props then
    let currentHour := Int_part (time weatherState) in
    let last := lastWeatherReportRef s in
    if negb (WeatherType_eqb (lastWeather last) (weather weatherState))
       || negb (Z.eqb (hour last) currentHour)
    then (set_lastWeatherReportRef
            (mkReport (weather weatherState) currentHour) s,
          Some (weather weatherState, time weatherState))
    else (s, None)
  else (s, None).

(** The rod/line logic of [animate]; [time] is in seconds.  The two
    ends of the line are written into the [Float32Array] of its
    geometry. *)
Definition updateLine (time : R) (s : State) : State :=
  let isCasted := isCasted (stateRef s) in
  let targetPos := targetPos (stateRef s) in
  let rodTipPos :=
    match rodCtrlRef s with
    | Some rod => getTipWorldPosition rod
    | None => zero3
    end in
  match isCasted, bobberCtrlRef s, line s with
  | true, Some bobber, Some _ =>
      let position := lerp (bobberPosition bobber) targetPos 0.05 in
      let bobble := sin (time * 2.5) * 0.04 + cos (time * 1.5) * 0.02 in
      let position := set_y (bobble - 0.05) position in
      let s := set_bobberCtrlRef (Some (setPosition position bobber)) s in
      set_line
        (Some (Float32.store rodTipPos,
               Float32.store
                 (vec3 (vx position) (vy position + 0.3) (vz position)))) s
  | false, _, Some _ =>
      let swingX := sin (time * 1.5) * 0.1 in
      let swingZ := cos (time * 1.2) * 0.1 in
      set_line
        (Some (Float32.store rodTipPos,
               Float32.store
                 (vec3 (vx rodTipPos + swingX) (vy rodTipPos - 1.5)
                       (vz rodTipPos + swingZ)))) s
  | _, _, _ => s
  end.

(** The body of one frame, from the clock reading on. *)
Definition frame (props : Props) (now : R) (s : State)
  : State * option WeatherCall :=
  let dt := (now - lastTime s) / 1000 in
  let s := set_lastTime now s in
  let time := now * 0.001 in
  let '(s, call) :=
    match weatherCtrlRef s with
    | Some weatherCtrl =>
        let weatherState := weatherUpdate dt weatherCtrl in
        let s := set_weatherCtrlRef (Some weatherState) s in
        reportWeather props weatherState s
    | None => (s, None)
    end in
  let s := set_rodCtrlRef (option_map (rodAnimate time) (rodCtrlRef s)) s in
  let s :=
    set_bobberCtrlRef (option_map (bobberAnimate time) (bobberCtrlRef s))
                      s in
  let s :=
    set_seabedCtrlRef
      (option_map (SeabedController.swayKelp time) (seabedCtrlRef s)) s in
  (updateLine time s, call).

(** [animate]: nothing happens once the renderer is gone or reports no
    context. *)
Definition animate (props : Props) (now : R) (s : State)
  : State * option WeatherCall :=
  match rendererRef s with
  | Some renderer =>
      if getContext renderer then frame props now s else (s, None)
  | None => (s, None)
  end.

(** The controllers and objects that the first effect creates. *)
Definition build (host : Host) (s : State) : State :=
  let s := set_rodCtrlRef (Some newRod) s in
  let s := set_bobberCtrlRef (Some newBobber) s in
  let s :=
    set_seabedCtrlRef (Some (SeabedController.new (random host))) s in
  let s :=
    set_line (Some (Float32.store (vec3 0 0 0), Float32.store (vec3 0 0 0)))
             s in
  let s := set_weatherCtrlRef (Some newWeather) s in
  set_lastTime (startClock host) s.

(** The first effect: scene, renderer, controllers and the first
    frame.  It gives up when the container is missing or a renderer is
    already there, and, with the scene already in its ref, when no WebGL
    context can be created. *)
Definition initEffect (host : Host) (props : Props) (s : State)
  : State * option WeatherCall :=
  if negb (containerPresent host) then (s, None)
  else match rendererRef s with
       | Some _ => (s, None)
       | None =>
           let s := set_sceneRef (Some newScene) s in
           if negb (webglAvailable host) then (s, None)
           else
             let s := set_rendererRef (Some (mkRenderer true)) s in
             let s := build host s in
             animate props (firstFrameClock host) s
       end.

(** The effect on [rodLevel], [enchant] and [rodSkin]. *)
Definition rodEffect (props : Props) (s : State) : State :=
  let s :=
    set_rodCtrlRef
      (option_map (rodUpdate (rodLevel props) (enchant props)
                             (rodSkin props)) (rodCtrlRef s)) s in
  set_bobberCtrlRef
    (option_map (bobberUpdateEnchant (enchant props)) (bobberCtrlRef s)) s.

(** The effect on [map]: the seabed shows on the atlantis map only. *)
Definition mapEffect (props : Props) (s : State) : State :=
  match seabedCtrlRef s with
  | Some seabed =>
      set_seabedCtrlRef
        (Some (SeabedController.setVisible
                 (String.eqb (map props) "atlantis") seabed)) s
  | None => s
  end.

(** The effects of the first render that act on the refs kept here, in
    the order they are declared. *)
Definition mount (host : Host) (props : Props) (s : State)
  : State * option WeatherCall :=
  let '(s, call) := initEffect host props s in
  let s := rodEffect props s in
  let s := mapEffect props s in
  (s, call).

(** The last effect: [onReady] is called with the API when it was
    passed.  The result tells whether the call is made. *)
Definition readyEffect (props : Props) : bool := onReady props.

(** The first render with its callbacks: the refs after the effects, the
    weather report of the first frame, and whether [onReady] was
    called. *)
Definition firstRender (host : Host) (props : Props) (s : State)
  : State * option WeatherCall * bool :=
  let '(s, call) := mount host props s in
  (s, call, readyEffect props).

End WithControllers.

(** [apiRef.current.cast] *)
Definition cast (distance : R) (s : State) : State :=
  let s := set_stateRef (mkCastState true (targetPos (stateRef s))) s in
  let s :=
    match rodCtrlRef s with
    | Some rod => set_rodCtrlRef (Some (triggerCast rod)) s
    | None => s
    end in
  let s :=
    match bobberCtrlRef s with
    | Some bobber =>
        let bobber := setVisible true bobber in
        let startPos := zero3 in
        let startPos :=
          match rodCtrlRef s with
          | Some rod => getTipWorldPosition rod
          | None => startPos
          end in
        set_bobberCtrlRef (Some (setPosition startPos bobber)) s
    | None => s
    end in
  let zPos := -10 - distance / 5 in
  set_stateRef (mkCastState (isCasted (stateRef s)) (vec3 0 0 zPos)) s.

(** [apiRef.current.reset] *)
Definition reset (s : State) : State :=
  let s := set_stateRef (mkCastState false (targetPos (stateRef s))) s in
  let s :=
    match rodCtrlRef s with
    | Some rod => set_rodCtrlRef (Some (setReeling false rod)) s
    | None => s
    end in
  match bobberCtrlRef s with
  | Some bobber => set_bobberCtrlRef (Some (setVisible false bobber)) s
  | None => s
  end.

(** [apiRef.current.setReeling] *)
Definition setReeling (reeling : bool) (s : State) : State :=
  match rodCtrlRef s with
  | Some rod => set_rodCtrlRef (Some (Scene.setReeling reeling rod)) s
  | None => s
  end.

Definition call (c : Command) (s : State) : State :=
  match c with
  | Cast distance => cast distance s
  | Reset => reset s
  | SetReeling b => setReeling b s
  end.

(** A sequence of API calls, oldest first. *)
Definition calls (cs : list Command) (s : State) : State :=
  fold_left (fun s c => call c s) cs s.

Section Running.
Context {K : Controllers}.

Definition step (props : Props) (e : Event) (s : State)
  : State * option WeatherCall :=
  match e with
  | Call c => (call c s, None)
  | Frame now => animate props now s
  end.

(** The states and callback calls that a sequence of events goes
    through, one entry per event. *)
Fixpoint run (props : Props) (es : list Event) (s : State)
  : list (State * option WeatherCall) :=
  match es with
  | [] => []
  | e :: es' =>
      let r := step props e s in
      r :: run props es' (fst r)
  end.

End Running.

End ThreeViewMap.

(** ** Vocabulary of the specification *)

Module Spec.
Import Three FishViewer.

(** The keywords of the dispatch rules, in the order they are tried. *)
Definition keywords : list string :=
  ["dragon"; "cosmic"; "shark"; "ancient"; "dunkle"; "rare"; "arowana";
   "legend"; "coelacanth"].

Definition matchesNoKeyword (species : string) : bool :=
  forallb (fun k => negb (includes species k)) keywords.

(** The dispatch as the specification words it: a priority-ordered table
    of keyword and builder, the first keyword found in the id selects. *)
Definition Builder := FishType -> Object3D -> Object3D.

Definition dispatchTable (getPointAt : list Vector3 -> R -> Vector3)
  : list (string * Builder) :=
  [("dragon", seaDragon getPointAt); ("cosmic", shark); ("shark", shark);
   ("ancient", boxFish); ("dunkle", boxFish); ("rare", arowana);
   ("arowana", arowana); ("legend", coelacanth);
   ("coelacanth", coelacanth)].

Definition dispatch (table : list (string * Builder)) (species : string)
  : Builder :=
  match find (fun kb => includes species (fst kb)) table with
  | Some kb => snd kb
  | None => genericFish
  end.

(** The names that parts of a mesh carry: every non-empty name in it. *)
Definition partNames (o : Object3D) : list string :=
  filter (fun n => negb (String.eqb n "")) (names o).

(** The number of radial segments of a tube, and the curve it follows. *)
Definition tubeRadialSegments (o : Object3D) : option nat :=
  match content o with
  | IsMesh (TubeGeometry _ _ _ n _) _ => Some n
  | _ => None
  end.

Definition tubePath (o : Object3D) : list Vector3 :=
  match content o with
  | IsMesh (TubeGeometry path _ _ _ _) _ => path
  | _ => []
  end.

(** [head] lies forward (towards +z, where the fish looks) of every
    control point of the curve of [body], its two ends included. *)
Definition forwardOf (body head : Object3D) : Prop :=
  forall p, In p (tubePath body) -> vz p < vz (position head).

(** The dragon property as the specification states it: a 4-sided tube
    for a body and a head that carries a name and lies forward of it. *)
Definition dragonAsSpecified (g : Object3D) : Prop :=
  exists body head,
    In body (children g) /\ tubeRadialSegments body = Some 4%nat /\
    In head (children g) /\ name head <> "" /\ forwardOf body head.

(** One pass of the viewer's [animate] with the update of [part] left
    out. *)
Definition animateSkipping (part : string) (time : R) (v : Viewer)
  : Object3D :=
  let g := drift time (isDragging v) (fishGroup v) in
  let g := if String.eqb part "Tail" then g else wagTail time g in
  if String.eqb part "FinL" || String.eqb part "FinR" then g
  else flapFins time g.

(** *** Kelp *)

(** The fraction of its height at which a vertex of a stalk of height
    [height] sits before the twist, counted from the base: 0 at the base
    (y = -height/2 in the centred plane), 1 at the tip. *)
Definition heightFraction (height : R) (v : Vector3) : R :=
  (vy v + height / 2) / height.

(** A turn by [angle] about the growth axis, the y axis. *)
Definition rotateAboutGrowthAxis (angle : R) (v : Vector3) : Vector3 :=
  vec3 (vx v * cos angle - vz v * sin angle) (vy v)
       (vx v * sin angle + vz v * cos angle).

Definition translateY (d : R) (v : Vector3) : Vector3 :=
  vec3 (vx v) (vy v + d) (vz v).

(** The height fraction of the row of vertex [i] of the strip, which has
    five rows of two vertices, the tip first. *)
Definition rowFraction (i : nat) : R := 1 - INR (i / 2) / 4.

(** The kelp transform as the specification states it: the vertex at
    height fraction f is turned by f * PI, then the stalk is lifted by half
    its height; the result is what the position attribute then holds. *)
Definition kelpAsSpecified (height : R) : Prop :=
  forall v, In v (SeabedController.PlaneGeometry 2 height 1 4) ->
    SeabedController.twist height v
    = Float32.store
        (translateY (height / 2)
           (rotateAboutGrowthAxis (heightFraction height v * PI) v)).

End Spec.

(** *** The scene *)

Module SceneSpec.
Import Scene.

(** The line-update value of the bobber's height at clock reading [now]
    (milliseconds): bob plus offset, a function of time alone. *)
Definition bobbleHeight (now : R) : R :=
  let time := now * 0.001 in
  sin (time * 2.5) * 0.04 + cos (time * 1.5) * 0.02 - 0.05.

Definition bobberY (s : State) : option R :=
  option_map (fun b => vy (bobberPosition b)) (bobberCtrlRef s).

(** The target that a cast of the given distance sets. *)
Definition castTarget (distance : R) : Vector3 :=
  vec3 0 0 (-10 - distance / 5).

(** The report that a call of the weather callback makes. *)
Definition reportOf (c : WeatherCall) : WeatherReport :=
  mkReport (fst c) (Int_part (snd c)).

(** The frame's weather differs from the last report in category or in
    integer hour. *)
Definition differs (last : WeatherReport) (w : WeatherState) : Prop :=
  lastWeather last <> weather w \/ hour last <> Int_part (time w).

(** Edge-triggered reporting along a run: [last] is the last report made
    before the run; calls of the API make no report; a frame reports (its
    own weather and time) if and only if its weather differs from the last
    report, and its report is the last one from then on. *)
Fixpoint edgeTriggered (last : WeatherReport) (es : list Event)
         (trace : list (State * option WeatherCall)) : Prop :=
  match es, trace with
  | [], [] => True
  | Call _ :: es', (_, c) :: trace' =>
      c = None /\ edgeTriggered last es' trace'
  | Frame _ :: es', (s, c) :: trace' =>
      exists w,
        weatherCtrlRef s = Some w /\
        (c <> None <-> differs last w) /\
        (c = None \/ c = Some (weather w, time w)) /\
        edgeTriggered (match c with Some c => reportOf c | None => last end)
                      es' trace'
  | _, _ => False
  end.

(** Two events that differ at most in the distance of a cast. *)
Definition sameButDistance (e1 e2 : Event) : Prop :=
  match e1, e2 with
  | Call (Cast _), Call (Cast _) => True
  | _, _ => e1 = e2
  end.

(** The bobber's height after each frame of a run that ends casted; [None]
    after a frame that ends not casted. *)
Fixpoint castedFrameHeights (es : list Event)
         (trace : list (State * option WeatherCall)) : list (option R) :=
  match es, trace with
  | Frame _ :: es', (s, _) :: trace' =>
      (if isCasted (stateRef s) then bobberY s else None)
        :: castedFrameHeights es' trace'
  | _ :: es', _ :: trace' => castedFrameHeights es' trace'
  | _, _ => []
  end.

(** Along a run, the bobber's height after every frame that ends casted is
    [bobbleHeight] of that frame's clock reading. *)
Fixpoint heightsFollowClock (es : list Event)
         (trace : list (State * option WeatherCall)) : Prop :=
  match es, trace with
  | [], [] => True
  | Frame now :: es', (s, _) :: trace' =>
      (isCasted (stateRef s) = true -> bobberY s = Some (bobbleHeight now)) /\
      heightsFollowClock es' trace'
  | Call _ :: es', _ :: trace' => heightsFollowClock es' trace'
  | _, _ => False
  end.

(** Calling cast on a casted component changes the target and nothing
    else: the specification's reading of "idempotent". *)
Definition castAgainOnlyRetargets (distance : R) (s : State) : Prop :=
  isCasted (stateRef s) = true ->
  ThreeViewMap.cast distance s
  = set_stateRef (mkCastState true (castTarget distance)) s.

End SceneSpec.

(** *** The parts of a frame *)

Module FrameParts.
Import Scene.

(** The renderer is there and holds a context. *)
Definition alive (s : State) : Prop :=
  exists r, rendererRef s = Some r /\ getContext r = true.

Section WithControllers.
Context {K : Controllers}.

(** The clock and weather part of a frame. *)
Definition weatherPart (props : Props) (now : R) (s : State)
  : State * option WeatherCall :=
  let s1 := set_lastTime now s in
  match weatherCtrlRef s with
  | Some w =>
      let w' := weatherUpdate ((now - lastTime s) / 1000) w in
      ThreeViewMap.reportWeather props w' (set_weatherCtrlRef (Some w') s1)
  | None => (s1, None)
  end.

(** The controllers' own animations. *)
Definition controllersPart (time : R) (s : State) : State :=
  let s := set_rodCtrlRef (option_map (rodAnimate time) (rodCtrlRef s)) s in
  let s :=
    set_bobberCtrlRef (option_map (bobberAnimate time) (bobberCtrlRef s)) s in
  set_seabedCtrlRef
    (option_map (SeabedController.swayKelp time) (seabedCtrlRef s)) s.

End WithControllers.

End FrameParts.

(** ** Sample inputs *)

Module Samples.
Import Three FishViewer.

(** A stand-in for the curve sampler of three.js in the examples: it
    answers every query with the first point of the curve.  No property
    depends on the sampler. *)
Definition firstPoint (path : list Vector3) (u : R) : Vector3 :=
  hd zero3 path.

Definition salmon : FishType := mkFishType "salmon" "Salmon" "#fa8072" 2 10.
Definition dragon : FishType :=
  mkFishType "dragon" "Sea Dragon" "#00bcd4" 9 500.
Definition dragon_mutant : FishType :=
  mkFishType "dragon_mutant" "Mutant Sea Dragon" "#ff00ff" 10 900.
Definition shark : FishType :=
  mkFishType "shark" "Shark" "#607d8b" 7 300.

(** Controllers that stand still: a rod with its tip at (0, 2, 0), a
    hidden bobber at the origin, noon in clear weather with a clock that
    advances by the hours given, and per-frame methods that change
    nothing. *)
#[export] Instance stillControllers : Scene.Controllers :=
  Scene.mkControllers
    (Scene.mkRod false (vec3 0 2 0) 0)
    (Scene.mkBobber false zero3)
    (Scene.mkWeatherState 12 Scene.CLEAR)
    (fun dt w => Scene.mkWeatherState (Scene.time w + dt) (Scene.weather w))
    (fun _ rod => rod)
    (fun _ bobber => bobber)
    (fun _ _ _ rod => rod)
    (fun _ bobber => bobber).

Definition host : Scene.Host :=
  Scene.mkHost true true (fun _ => 1 / 2) 0 0.

Definition atlantisProps : Scene.Props :=
  Scene.mkProps 1 "none" "default" "atlantis" true true.

Definition lakeProps : Scene.Props :=
  Scene.mkProps 1 "none" "default" "lake" true true.

(** The component after its first render on the atlantis map. *)
Definition mounted : Scene.State :=
  fst (ThreeViewMap.mount host atlantisProps Scene.initialState).

(** The same on another map. *)
Definition mountedOnLake : Scene.State :=
  fst (ThreeViewMap.mount host lakeProps Scene.initialState).

(** Cast 10 away, then one frame 16 ms later. *)
Definition castedOneFrame : Scene.State :=
  fst (ThreeViewMap.animate atlantisProps 16 (ThreeViewMap.cast 10 mounted)).

End Samples.

(** ** The species viewer: its scene, pointer handlers and labels *)

Module FishViewerUi.
Import Three.

(** What the viewer puts into its scene: four lights and the fish. *)
Inductive SceneChild :=
| AmbientLight (color : Z) (intensity : R)
| DirectionalLight (color : Z) (intensity : R) (position : Vector3)
| Node (o : Object3D).

(** The refs of the component: the scene, the drag flag and the last
    pointer position seen. *)
Record Component := mkComponent
  { sceneRef : option (list SceneChild);
    isDragging : bool;
    previousMousePosition : R * R }.

Definition initialComponent : Component := mkComponent None false (0, 0).

Definition onNode (f : Object3D -> Object3D) (c : SceneChild) : SceneChild :=
  match c with
  | Node o => Node (f o)
  | light => light
  end.

(** The place of the fish among the children of the scene: it is added
    after the four lights. *)
Definition fishIndex : nat := 4.

(** One pass of the animation loop: [FishViewer.animate] on the fish that
    the loop holds, which is the fish in the scene. *)
Definition frame (time : R) (c : Component) : Component :=
  match sceneRef c with
  | Some children =>
      mkComponent
        (Some (update_nth fishIndex
                 (onNode (fun g =>
                            FishViewer.fishGroup
                              (FishViewer.animate time
                                 (FishViewer.mkViewer g (isDragging c)))))
                 children))
        (isDragging c) (previousMousePosition c)
  | None => c
  end.

(** The ambient light, the key light, the rim light and the bottom
    light. *)
Definition lights : list SceneChild :=
  [AmbientLight 0xffffff 0.7;
   DirectionalLight 0xffffff 1.0 (vec3 5 5 5);
   DirectionalLight 0x00ffff 0.8 (vec3 (-5) 2 (-5));
   DirectionalLight 0xffaa00 0.3 (vec3 0 (-5) 2)].

(** The effect on [fishType]: scene, lights, fish and the first pass of
    the loop at clock reading [time] (seconds). Nothing happens without
    the mount element. *)
Definition mountEffect (getPointAt : list Vector3 -> R -> Vector3)
           (mountPresent : bool) (fishType : FishViewer.FishType) (time : R)
           (c : Component) : Component :=
  if negb mountPresent then c
  else
    let scene := lights in
    let fishGroup := FishViewer.generateLowPolyFish getPointAt fishType in
    let scene := (scene ++ [Node fishGroup])%list in
    frame time (mkComponent (Some scene) (isDragging c)
                            (previousMousePosition c)).

(** [children.find(c => c instanceof THREE.Group)], as an index. *)
Fixpoint findGroup (i : nat) (children : list SceneChild) : option nat :=
  match children with
  | [] => None
  | Node o :: rest =>
      match content o with
      | IsGroup => Some i
      | IsMesh _ _ => findGroup (S i) rest
      end
  | _ :: rest => findGroup (S i) rest
  end.

Definition handleMouseDown (clientX clientY : R) (c : Component)
  : Component :=
  mkComponent (sceneRef c) true (clientX, clientY).

Definition handleMouseMove (clientX clientY : R) (c : Component)
  : Component :=
  if negb (isDragging c) then c
  else
    match sceneRef c with
    | None => c
    | Some children =>
        match findGroup 0 children with
        | None => c
        | Some i =>
            let deltaX := clientX - fst (previousMousePosition c) in
            let deltaY := clientY - snd (previousMousePosition c) in
            let turn fishGroup :=
              let fishGroup :=
                with_rotation
                  (set_y (vy (rotation fishGroup) + deltaX * 0.01)
                         (rotation fishGroup)) fishGroup in
              with_rotation
                (set_x (vx (rotation fishGroup) + deltaY * 0.01)
                       (rotation fishGroup)) fishGroup in
            mkComponent (Some (update_nth i (onNode turn) children))
                        (isDragging c) (clientX, clientY)
        end
    end.

Definition handleMouseUp (c : Component) : Component :=
  mkComponent (sceneRef c) false (previousMousePosition c).

(** The rarity shown for a difficulty. *)
Definition rarityLabel (difficulty : R) : string :=
  if Rgt_dec difficulty 8 then "MYTHICAL"
  else if Rgt_dec difficulty 6 then "LEGENDARY"
  else if Rgt_dec difficulty 3 then "RARE"
  else "COMMON".

(** What the pointer and the clock do during a drag. *)
Inductive Gesture :=
| Move (clientX clientY : R)
| Tick (time : R).

Definition gesture (g : Gesture) (c : Component) : Component :=
  match g with
  | Move x y => handleMouseMove x y c
  | Tick time => frame time c
  end.

Definition gestures (gs : list Gesture) (c : Component) : Component :=
  fold_left (fun c g => gesture g c) gs c.

(** The fish of the scene. *)
Definition fishOf (c : Component) : option Object3D :=
  match sceneRef c with
  | Some children =>
      match nth_error children fishIndex with
      | Some (Node o) => Some o
      | _ => None
      end
  | None => None
  end.

(** The scene of a mounted viewer: the four lights, then a fish whose
    root is an unnamed group. *)
Definition staged (c : Component) (g : Object3D) : Prop :=
  sceneRef c = Some (lights ++ [Node g])%list /\
  name g = "" /\ content g = IsGroup.

(** The last pointer position of a drag that started at [start]. *)
Definition lastPointer (start : R * R) (gs : list Gesture) : R * R :=
  fold_left (fun p g => match g with Move x y => (x, y) | Tick _ => p end)
            gs start.

(** The eyes of a mesh: its icosahedron children. *)
Definition isEye (o : Object3D) : bool :=
  match content o with
  | IsMesh (IcosahedronGeometry _ _) _ => true
  | _ => false
  end.

Definition eyes (g : Object3D) : list Object3D := filter isEye (children g).

(** FinL and FinR are found, sit mirrored across the plane x = 0 and are
    turned about z by opposite angles. *)
Definition finsMirrored (g : Object3D) : Prop :=
  exists hl hr finL finR,
    getObjectByName "FinL" g = Some hl /\ deref hl g = Some finL /\
    getObjectByName "FinR" g = Some hr /\ deref hr g = Some finR /\
    position finR
    = vec3 (- vx (position finL)) (vy (position finL)) (vz (position finL)) /\
    vz (rotation finR) = - vz (rotation finL).

(** The rotation about z of the part of that name. *)
Definition partRotationZ (part : string) (g : Object3D) : option R :=
  match getObjectByName part g with
  | Some h => option_map (fun o => vz (rotation o)) (deref h g)
  | None => None
  end.

(** The rank of a rarity label, COMMON lowest. *)
Definition rarityRank (label : string) : nat :=
  if String.eqb label "MYTHICAL" then 3
  else if String.eqb label "LEGENDARY" then 2
  else if String.eqb label "RARE" then 1
  else 0.

(** The character occurs in the string. *)
Fixpoint mentions (c : ascii) (k : string) : bool :=
  match k with
  | EmptyString => false
  | String a k' => if Ascii.ascii_dec a c then true else mentions c k'
  end.

(** What a drag adds up: each move adds its pointer displacement times
    0.01 to the rotation about y (from x) and about x (from y), in the
    order of the moves, and passes of the loop add nothing.  [r] is the
    rotation and [p] the pointer position before the gestures. *)
Fixpoint dragTurn (r : Vector3) (p : R * R) (gs : list Gesture) : Vector3 :=
  match gs with
  | [] => r
  | Move x y :: gs' =>
      let r := set_y (vy r + (x - fst p) * 0.01) r in
      let r := set_x (vx r + (y - snd p) * 0.01) r in
      dragTurn r (x, y) gs'
  | Tick _ :: gs' => dragTurn r p gs'
  end.

Definition isTick (g : Gesture) : bool :=
  match g with
  | Tick _ => true
  | Move _ _ => false
  end.

(** 0.005 added [n] times, from 0. *)
Definition spin (n : nat) : R := Nat.iter n (fun r => r + 0.005) 0.

(** A species with another id. *)
Definition withId (newId : string) (fish : FishViewer.FishType)
  : FishViewer.FishType :=
  FishViewer.mkFishType newId (FishViewer.fish_name fish)
                        (FishViewer.fish_color fish)
                        (FishViewer.difficulty fish) (FishViewer.base fish).

End FishViewerUi.

(** ** The seabed: sand floor, ruins and the whole controller *)

Module SeabedBuild.
Import SeabedController.

(** *** [initSeabed] *)

(** The height that the loop gives the vertex at (x, y) of the plane. *)
Definition terrainHeight (x y : R) : R :=
  sin (x * 0.05) * 2 + cos (y * 0.05) * 2.

(** The body of the loop: [getX] and [getY] read the stored vertex,
    [pos.setZ(i, z)] stores the height. *)
Definition displace (v : Vector3) : Vector3 :=
  vec3 (vx v) (vy v) (Float32.fround (terrainHeight (vx v) (vy v))).

(** The sand floor: its vertices, and the rotation and position of its
    mesh. *)
Record Terrain := mkTerrain
  { terrainVertices : list Vector3;
    terrainRotation : Vector3;
    terrainPosition : Vector3;
    receiveShadow : bool }.

Definition initSeabed : Terrain :=
  mkTerrain (List.map displace (PlaneGeometry 2000 2000 32 32))
            (vec3 (- PI / 2) 0 0) (vec3 0 (-25) 0) true.

(** Where a vertex of a mesh that is turned about x by [angle] and moved
    to [position] lies in the world. *)
Definition toWorld (angle : R) (position : Vector3) (v : Vector3) : Vector3 :=
  vec3 (vx position + vx v)
       (vy position + (vy v * cos angle - vz v * sin angle))
       (vz position + (vy v * sin angle + vz v * cos angle)).

Definition terrainWorld (t : Terrain) : list Vector3 :=
  List.map (toWorld (vx (terrainRotation t)) (terrainPosition t))
           (terrainVertices t).

(** *** [initRuins] *)

(** A glowing crystal: where it sits in its group, its scale and its
    rotation about y. *)
Record Crystal := mkCrystal
  { crystalPosition : Vector3;
    crystalScale : Vector3;
    crystalRotationY : R }.

(** A pillar: the position of its group, whether it is tall, the height,
    position and rotation of its column, the height of its capital and of
    its crystal and light when it has them. *)
Record Pillar := mkPillar
  { pillarPosition : Vector3;
    isTall : bool;
    columnHeight : R;
    columnPosition : Vector3;
    columnRotation : Vector3;
    capY : option R;
    crystalY : option R }.

(** One pass of the pillar loop.  [random k] is the k-th value that
    [Math.random()] returns to the constructor; the pass starts at draw
    [k] and reports the draw the next pass starts at, with the crystal it
    pushed, if any. *)
Definition pillarStep (random : nat -> R) (i k : nat)
  : Pillar * list Crystal * nat :=
  let pillarCount := 12 in
  let radius := 60 in
  let angle := (INR i / pillarCount) * PI * 2 in
  let x := cos angle * radius in
  let z := sin angle * radius - 20 in
  let isTall := if Rgt_dec (random k) 0.5 then true else false in
  let k := S k in
  let height := if isTall then 35 else 15 in
  let position := vec3 x (-25) z in
  let colPosition := vec3 0 (height / 2 + 1) 0 in
  if isTall then
    if Rgt_dec (random k) 0.3 then
      (mkPillar position true height colPosition zero3
                (Some (height + 1)) (Some (height + 3)),
       [mkCrystal (vec3 0 (height + 3) 0) one3 0], S k)
    else
      (mkPillar position true height colPosition zero3
                (Some (height + 1)) None,
       [], S k)
  else
    let rz := (random k - 0.5) * 0.2 in
    let rx := (random (S k) - 0.5) * 0.2 in
    (mkPillar position false height colPosition (vec3 rx 0 rz) None None,
     [], S (S k)).

(** The pillar loop from pillar [i] on, [n] pillars. *)
Fixpoint pillarLoop (random : nat -> R) (n i k : nat)
  : list Pillar * list Crystal * nat :=
  match n with
  | O => ([], [], k)
  | S n' =>
      let '(pillar, crystal, k) := pillarStep random i k in
      let '(pillars, crystals, k) := pillarLoop random n' (S i) k in
      (pillar :: pillars, (crystal ++ crystals)%list, k)
  end.

(** A piece of debris of the arch: six draws. *)
Record Debris := mkDebris
  { debrisPosition : Vector3; debrisRotation : Vector3 }.

Definition debrisStep (random : nat -> R) (k : nat) : Debris :=
  mkDebris (vec3 ((random k - 0.5) * 30) (random (k + 1)%nat * 10)
                 ((random (k + 2)%nat - 0.5) * 10))
           (vec3 (random (k + 3)%nat) (random (k + 4)%nat)
                 (random (k + 5)%nat)).

(** The sunken archway: its group, two columns, top beam, the giant
    crystal and ten pieces of debris. *)
Record Arch := mkArch
  { archPosition : Vector3;
    colL : Vector3;
    colR : Vector3;
    topBeam : Vector3;
    debris : list Debris }.

Definition giantCrystal : Crystal := mkCrystal (vec3 0 30 0) one3 0.

Definition archStep (random : nat -> R) (k : nat) : Arch * nat :=
  (mkArch (vec3 0 (-25) (-90)) (vec3 (-15) 20 0) (vec3 15 20 0) (vec3 0 40 0)
          (List.map (fun i => debrisStep random (k + 6 * i)) (seq 0 10)),
   (k + 60)%nat).

Record Ruins := mkRuins
  { pillars : list Pillar; arch : Arch }.

(** [initRuins]: the ruins, the crystals in the order they are pushed,
    and the draw that follows. *)
Definition initRuins (random : nat -> R) (k : nat)
  : Ruins * list Crystal * nat :=
  let '(pillars, crystals, k) := pillarLoop random 12 0 k in
  let '(arch, k) := archStep random k in
  (mkRuins pillars arch, (crystals ++ [giantCrystal])%list, k).

(** *** The whole controller *)

(** The controller with all it builds: the sand floor, the ruins, the
    crystals it animates, and the visibility flag and kelp. *)
Record Seabed := mkSeabed
  { terrain : Terrain;
    ruins : Ruins;
    crystals : list Crystal;
    core : SeabedController.t }.

(** The constructor: [initSeabed], [initRuins], [initVegetation], which
    reads the draws that the ruins left. *)
Definition construct (random : nat -> R) : Seabed :=
  let '(ruins, crystals, k) := initRuins random 0 in
  mkSeabed initSeabed ruins crystals
           (SeabedController.new (fun n => random (k + n)%nat)).

(** The crystal half of [animate]. *)
Definition pulseCrystals (time : R) (cs : list Crystal) : list Crystal :=
  List.map (fun ic : nat * Crystal =>
              let (i, c) := ic in
              let s := 1.0 + sin (time * 2 + INR i) * 0.1 in
              mkCrystal (crystalPosition c) (vec3 s s s) (time * 0.5))
           (combine (seq 0 (List.length cs)) cs).

(** [animate] *)
Definition animate (time : R) (b : Seabed) : Seabed :=
  mkSeabed (terrain b) (ruins b) (pulseCrystals time (crystals b))
           (swayKelp time (core b)).

(** [setVisible] *)
Definition setVisible (v : bool) (b : Seabed) : Seabed :=
  mkSeabed (terrain b) (ruins b) (crystals b)
           (SeabedController.setVisible v (core b)).

(** The height in the world of the centre of the top face of a pillar's
    column: the column is a cylinder about its own centre, turned there by
    its rotation (Euler angles in the order XYZ, which take the unit
    vector along y to one of height cos x * cos z), inside a group that is
    not turned. *)
Definition columnTop (p : Pillar) : R :=
  vy (pillarPosition p) + vy (columnPosition p)
  + columnHeight p / 2
    * (cos (vx (columnRotation p)) * cos (vz (columnRotation p))).

(** Every value of the stream is one [Math.random()] can return. *)
Definition unitDraws (random : nat -> R) : Prop :=
  forall k, 0 <= random k < 1.

End SeabedBuild.

(** ** ThreeView: unmount, and the vocabulary of its runs *)

Module Lifecycle.
Import Scene.

(** The cleanup that the first effect returns, as far as the refs go: in
    both versions it clears the scene, the renderer and every controller,
    and leaves the line, the CastState and the last weather report as they
    are. *)
Definition cleanup (s : State) : State :=
  mkState None None None None None None (line s) (stateRef s)
          (lastWeatherReportRef s) (lastTime s).

(** What a client sees after a call, from what it saw before it. *)
Definition seenAfter (c : Command) (o : Observation) : Observation :=
  match c with
  | Cast distance =>
      mkObservation true (SceneSpec.castTarget distance)
                    (option_map (fun _ => true) (obs_bobberVisible o))
                    (obs_reeling o)
  | Reset =>
      mkObservation false (obs_targetPos o)
                    (option_map (fun _ => false) (obs_bobberVisible o))
                    (option_map (fun _ => false) (obs_reeling o))
  | SetReeling b =>
      mkObservation (obs_isCasted o) (obs_targetPos o) (obs_bobberVisible o)
                    (option_map (fun _ => b) (obs_reeling o))
  end.

(** The last weather report is the one of the current weather. *)
Definition inSync (s : State) : Prop :=
  exists w, weatherCtrlRef s = Some w /\
            lastWeatherReportRef s = mkReport (weather w) (Int_part (time w)).

Definition isFrame (e : Event) : bool :=
  match e with
  | Frame _ => true
  | Call _ => false
  end.

(** Along a run, every state from the first frame on is in sync;
    [seen] tells whether a frame came before. *)
Fixpoint syncedFrom (seen : bool) (es : list Event)
         (trace : list (State * option WeatherCall)) : Prop :=
  match es, trace with
  | [], [] => True
  | e :: es', (s, _) :: trace' =>
      (seen || isFrame e = true -> inSync s) /\
      syncedFrom (seen || isFrame e) es' trace'
  | _, _ => False
  end.

(** The reports that the callback received along a run, oldest first. *)
Fixpoint reports (trace : list (State * option WeatherCall))
  : list WeatherReport :=
  match trace with
  | [] => []
  | (_, Some c) :: trace' => SceneSpec.reportOf c :: reports trace'
  | (_, None) :: trace' => reports trace'
  end.

(** No report repeats the one before it; [last] is the one before the
    first. *)
Fixpoint noStutter (last : WeatherReport) (rs : list WeatherReport) : Prop :=
  match rs with
  | [] => True
  | r :: rs' => r <> last /\ noStutter r rs'
  end.

(** No scene, no controller and no renderer is set, and the line, the
    last weather report and the clock are those of [s0]. *)
Definition silent (s0 s : State) : Prop :=
  sceneRef s = None /\
  rendererRef s = None /\ rodCtrlRef s = None /\ bobberCtrlRef s = None /\
  weatherCtrlRef s = None /\ seabedCtrlRef s = None /\
  line s = line s0 /\ lastWeatherReportRef s = lastWeatherReportRef s0 /\
  lastTime s = lastTime s0.

Definition seabedVisible (s : State) : option bool :=
  option_map SeabedController.visible (seabedCtrlRef s).

(** The distance, along x and along z, that separates the bobber from
    the target. *)
Definition offTarget (s : State) : option (R * R) :=
  option_map (fun b => (vx (bobberPosition b) - vx (targetPos (stateRef s)),
                        vz (bobberPosition b) - vz (targetPos (stateRef s))))
             (bobberCtrlRef s).

(** [o] lies between 0 and [o0]: on the same side of the target as [o0]
    and no farther from it. *)
Definition closerThan (o0 o : R) : Prop := 0 <= o * o0 /\ Rabs o <= Rabs o0.

Section WithControllers.
Context {K : Controllers}.

(** Frames only, at the clock readings given. *)
Definition frames (props : Props) (nows : list R) (s : State) : State :=
  fold_left (fun s now => fst (ThreeViewMap.animate props now s)) nows s.

(** The bobber's own animation leaves its position alone. *)
Definition bobberStaysPut : Prop :=
  forall time b, bobberPosition (bobberAnimate time b) = bobberPosition b.

End WithControllers.

End Lifecycle.

(** ** More sample inputs *)

Module MoreSamples.

(** A host that has the container but grants no WebGL context. *)
Definition noWebgl : Scene.Host :=
  Scene.mkHost true false (fun _ => 1 / 2) 0 0.

(** The sample component after a cast of 10. *)
Definition casted : Scene.State := ThreeViewMap.cast 10 Samples.mounted.

(** Two frames with a cast in between. *)
Definition twoFrames : list Scene.Event :=
  [Scene.Frame 16; Scene.Call (Scene.Cast 10); Scene.Frame 32].

End MoreSamples.

(** * Properties *)

(** ** Single precision: how far a stored number is from the number
    written *)

Section SinglePrecision.
Import Float32.

Lemma nearestEven_error (r : R) : Rabs (IZR (nearestEven r) - r) <= / 2.
Proof.
  unfold nearestEven.
  destruct (base_Int_part r) as [H1 H2].
  destruct (Rlt_dec (r - IZR (Int_part r)) (/ 2)) as [Hlt|Hge].
  - apply Rabs_le; lra.
  - destruct (Rlt_dec (/ 2) (r - IZR (Int_part r))) as [Hgt|Hle].
    + rewrite plus_IZR. apply Rabs_le; lra.
    + destruct (Z.even (Int_part r)); [|rewrite plus_IZR]; apply Rabs_le; lra.
Qed.

Lemma nearestEven_IZR (n : Z) : nearestEven (IZR n) = n.
Proof.
  unfold nearestEven.
  assert (H : Int_part (IZR n) = n).
  { symmetry; apply Int_part_spec; lra. }
  rewrite H.
  destruct (Rlt_dec (IZR n - IZR n) (/ 2)) as [_|Hge]; [reflexivity|].
  exfalso; apply Hge; lra.
Qed.

(** Rounding never crosses an integer. *)
Lemma nearestEven_le (r : R) (n : Z) : r <= IZR n -> (nearestEven r <= n)%Z.
Proof.
  intros Hr.
  destruct (base_Int_part r) as [H1 H2].
  assert (Hn : (Int_part r <= n)%Z) by (apply le_IZR; lra).
  destruct (Z.eq_dec (Int_part r) n) as [He|Hne].
  - (* r = n *)
    assert (r = IZR n) by (rewrite <- He in *; lra).
    subst r. rewrite nearestEven_IZR. lia.
  - assert (Hlt : (Int_part r + 1 <= n)%Z) by lia.
    unfold nearestEven.
    destruct (Rlt_dec _ _); [lia|].
    destruct (Rlt_dec _ _); [lia|].
    destruct (Z.even _); lia.
Qed.

Lemma nearestEven_ge (r : R) (n : Z) : IZR n <= r -> (n <= nearestEven r)%Z.
Proof.
  intros Hr.
  destruct (base_Int_part r) as [H1 H2].
  assert (Hn : (n <= Int_part r)%Z).
  { apply Z.lt_succ_r. apply lt_IZR. rewrite succ_IZR. lra. }
  unfold nearestEven.
  destruct (Rlt_dec _ _); [lia|].
  destruct (Rlt_dec _ _); [lia|].
  destruct (Z.even _); lia.
Qed.

Lemma Rabs_le_inv (a b : R) : Rabs a <= b -> - b <= a <= b.
Proof. unfold Rabs; destruct (Rcase_abs a); lra. Qed.

Lemma ulp_pos (x : R) : 0 < ulp x.
Proof. unfold ulp; apply powerRZ_lt; lra. Qed.

Lemma fround_error_ulp (x : R) : Rabs (fround x - x) <= ulp x / 2.
Proof.
  unfold fround.
  pose proof (ulp_pos x) as Hu.
  pose proof (nearestEven_error (x / ulp x)) as He.
  replace (IZR (nearestEven (x / ulp x)) * ulp x - x)
    with ((IZR (nearestEven (x / ulp x)) - x / ulp x) * ulp x)
    by (field; lra).
  rewrite Rabs_mult, (Rabs_pos_eq (ulp x)) by lra.
  nra.
Qed.

Lemma ln_powerRZ_2 (z : Z) : ln (powerRZ 2 z) = IZR z * ln 2.
Proof.
  rewrite powerRZ_Rpower by lra. unfold Rpower. apply ln_exp.
Qed.

Lemma ln2_pos : 0 < ln 2.
Proof. pose proof ln_lt_2; lra. Qed.


Lemma floor_log2 (y : R) (e : Z) :
  powerRZ 2 e <= y < powerRZ 2 (e + 1) ->
  Int_part (ln y / ln 2) = e.
Proof.
  intros [Hlo Hhi]. symmetry; apply Int_part_spec.
  pose proof ln2_pos as Hl.
  assert (Hp : 0 < powerRZ 2 e) by (apply powerRZ_lt; lra).
  assert (H1 : IZR e * ln 2 <= ln y).
  { rewrite <- ln_powerRZ_2.
    destruct Hlo as [Hlo|Heq]; [left; apply ln_increasing; lra|rewrite Heq; lra]. }
  assert (H2 : ln y < IZR (e + 1) * ln 2).
  { rewrite <- ln_powerRZ_2. apply ln_increasing; lra. }
  rewrite plus_IZR in H2.
  split.
  - apply Rmult_lt_reg_r with (r := ln 2); [exact Hl|].
    unfold Rdiv. rewrite Rmult_minus_distr_r, Rmult_assoc, Rinv_l by lra. lra.
  - apply Rmult_le_reg_r with (r := ln 2); [exact Hl|].
    unfold Rdiv. rewrite Rmult_assoc, Rinv_l by lra. lra.
Qed.

Lemma log2_bounds (y : R) :
  0 < y ->
  powerRZ 2 (Int_part (ln y / ln 2)) <= y
  < powerRZ 2 (Int_part (ln y / ln 2) + 1).
Proof.
  intros Hx.
  pose proof ln2_pos as Hl.
  destruct (base_Int_part (ln y / ln 2)) as [H1 H2].
  set (e := Int_part (ln y / ln 2)) in *.
  assert (Hq : ln y / ln 2 * ln 2 = ln y) by (field; lra).
  split.
  - rewrite <- (exp_ln y) at 1 by exact Hx.
    rewrite powerRZ_Rpower by lra. unfold Rpower.
    destruct (Rle_lt_or_eq_dec _ _ H1) as [Hlt|Heq].
    + left. apply exp_increasing. nra.
    + right. f_equal. rewrite Heq. lra.
  - rewrite <- (exp_ln y) at 1 by exact Hx.
    rewrite powerRZ_Rpower by lra. unfold Rpower.
    apply exp_increasing. rewrite plus_IZR. nra.
Qed.

Lemma powerRZ_2_le (a b : Z) : (a <= b)%Z -> powerRZ 2 a <= powerRZ 2 b.
Proof.
  intros Hab. replace b with (a + (b - a))%Z by lia.
  rewrite powerRZ_add by lra.
  assert (Ha : 0 < powerRZ 2 a) by (apply powerRZ_lt; lra).
  assert (Hb : 1 <= powerRZ 2 (b - a)).
  { destruct (b - a)%Z as [|p|p] eqn:E; try lia.
    - cbn; lra.
    - cbn [powerRZ]. apply pow_R1_Rle; lra. }
  nra.
Qed.

Lemma powerRZ_2_lt_inv (a b : Z) : powerRZ 2 a < powerRZ 2 b -> (a < b)%Z.
Proof.
  intros H. destruct (Z_lt_le_dec a b) as [Hlt|Hle]; [exact Hlt|].
  apply powerRZ_2_le in Hle. lra.
Qed.

Lemma powerRZ_2_lt (a b : Z) : (a < b)%Z -> powerRZ 2 a < powerRZ 2 b.
Proof.
  intros Hab.
  assert (H1 : powerRZ 2 (a + 1) <= powerRZ 2 b) by (apply powerRZ_2_le; lia).
  rewrite powerRZ_add in H1 by lra.
  assert (0 < powerRZ 2 a) by (apply powerRZ_lt; lra).
  change (powerRZ 2 1) with (2 * 1) in H1. lra.
Qed.

Lemma minNormal_pos : 0 < minNormal.
Proof. apply powerRZ_lt; lra. Qed.

Lemma exponent_spec (x : R) :
  powerRZ 2 (exponent x) <= Rmax (Rabs x) minNormal
  < powerRZ 2 (exponent x + 1).
Proof.
  unfold exponent.
  pose proof minNormal_pos. pose proof (Rmax_r (Rabs x) minNormal).
  apply log2_bounds. lra.
Qed.

Lemma exponent_unique (x : R) (e : Z) :
  powerRZ 2 e <= Rmax (Rabs x) minNormal < powerRZ 2 (e + 1) ->
  exponent x = e.
Proof. intros He. unfold exponent. apply floor_log2; exact He. Qed.

Lemma exponent_min (x : R) : (-126 <= exponent x)%Z.
Proof.
  destruct (exponent_spec x) as [_ H].
  pose proof (Rmax_r (Rabs x) minNormal) as Hr.
  assert (H1 : powerRZ 2 (-126) < powerRZ 2 (exponent x + 1))
    by (unfold minNormal in *; lra).
  apply powerRZ_2_lt_inv in H1. lia.
Qed.

Lemma exponent_mono (x y : R) :
  Rabs x <= Rabs y -> (exponent x <= exponent y)%Z.
Proof.
  intros Hxy.
  destruct (exponent_spec x) as [Hx _], (exponent_spec y) as [_ Hy].
  assert (Rmax (Rabs x) minNormal <= Rmax (Rabs y) minNormal).
  { apply Rmax_lub; [|apply Rmax_r].
    eapply Rle_trans; [exact Hxy|apply Rmax_l]. }
  assert (H2 : powerRZ 2 (exponent x) < powerRZ 2 (exponent y + 1)) by lra.
  apply powerRZ_2_lt_inv in H2. lia.
Qed.

Lemma ulp_eq (x : R) : ulp x = powerRZ 2 (exponent x) / 2 ^ 23.
Proof.
  unfold ulp. replace (exponent x - 23)%Z with (exponent x + - (23))%Z by lia.
  rewrite powerRZ_add by lra. rewrite powerRZ_neg'.
  replace (powerRZ 2 23) with (2 ^ 23) by (rewrite pow_powerRZ; reflexivity).
  reflexivity.
Qed.

(** A stored number differs from the number written by at most half a unit in
    the last place: a relative error of 2^-24 in the range of the normal
    numbers. *)
Lemma fround_error (x : R) :
  Rabs (fround x - x) <= Rmax (Rabs x) minNormal / 2 ^ 24.
Proof.
  pose proof (fround_error_ulp x) as He.
  rewrite ulp_eq in He.
  destruct (exponent_spec x) as [Hlo _].
  assert (0 < powerRZ 2 (exponent x)) by (apply powerRZ_lt; lra).
  lra.
Qed.

Lemma fround_error_normal (x : R) :
  minNormal <= Rabs x -> Rabs (fround x - x) <= Rabs x / 2 ^ 24.
Proof.
  intros Hx. pose proof (fround_error x) as He.
  rewrite Rmax_left in He by exact Hx. exact He.
Qed.

Lemma fround_0 : fround 0 = 0.
Proof.
  unfold fround. unfold Rdiv. rewrite Rmult_0_l.
  rewrite (nearestEven_IZR 0). lra.
Qed.

Lemma powerRZ_2_IZR (k : Z) : (0 <= k)%Z -> powerRZ 2 k = IZR (2 ^ k).
Proof.
  intros Hk. destruct k as [|p|p]; try lia.
  - reflexivity.
  - cbn [powerRZ]. rewrite <- Z.pow_pos_fold.
    change 2 with (IZR 2). rewrite pow_IZR. f_equal.
    rewrite positive_nat_Z. reflexivity.
Qed.

(** A multiple of the unit in the last place of [x] is rounded to itself
    when scaled like [x]. *)
Lemma multiple_of_ulp (x y : R) (n : Z) :
  y = IZR n * ulp x -> IZR (nearestEven (y / ulp x)) * ulp x = y.
Proof.
  intros ->. pose proof (ulp_pos x).
  replace (IZR n * ulp x / ulp x) with (IZR n) by (field; lra).
  rewrite nearestEven_IZR. reflexivity.
Qed.

Lemma dyadic_multiple (m k j : Z) :
  (j <= k)%Z -> IZR m * powerRZ 2 k = IZR (m * 2 ^ (k - j)) * powerRZ 2 j.
Proof.
  intros Hjk. rewrite mult_IZR, <- powerRZ_2_IZR by lia.
  rewrite Rmult_assoc, <- powerRZ_add by lra.
  do 2 f_equal. lia.
Qed.

(** A number with a 24-bit significand and an exponent in range is stored
    as it is. *)
Lemma fround_exact (m k : Z) :
  (Z.abs m < 2 ^ 24)%Z -> (-149 <= k)%Z ->
  fround (IZR m * powerRZ 2 k) = IZR m * powerRZ 2 k.
Proof.
  intros Hm Hk.
  set (x := IZR m * powerRZ 2 k).
  assert (Hpk : 0 < powerRZ 2 k) by (apply powerRZ_lt; lra).
  assert (Hke : (exponent x - 23 <= k)%Z).
  { destruct (exponent_spec x) as [Hlo _].
    assert (Habs : Rabs x = IZR (Z.abs m) * powerRZ 2 k).
    { unfold x. rewrite Rabs_mult, (Rabs_pos_eq (powerRZ 2 k)) by lra.
      rewrite <- abs_IZR. reflexivity. }
    assert (H24 : IZR (Z.abs m) < IZR (2 ^ 24)) by (apply IZR_lt; exact Hm).
    rewrite <- powerRZ_2_IZR in H24 by lia.
    assert (Hx24 : Rabs x < powerRZ 2 (24 + k)).
    { rewrite Habs, powerRZ_add by lra. nra. }
    assert (HmN : minNormal < powerRZ 2 (24 + k))
      by (apply powerRZ_2_lt; lia).
    assert (Hmax : Rmax (Rabs x) minNormal < powerRZ 2 (24 + k)).
    { unfold Rmax; destruct (Rle_dec _ _); lra. }
    assert (H3 : powerRZ 2 (exponent x) < powerRZ 2 (24 + k)) by lra.
    apply powerRZ_2_lt_inv in H3. lia. }
  unfold fround. apply multiple_of_ulp with (n := (m * 2 ^ (k - (exponent x - 23)))%Z).
  unfold ulp, x. apply dyadic_multiple. exact Hke.
Qed.

(** An integer below 2^24 in absolute value is stored as it is. *)
Lemma fround_IZR (m : Z) : (Z.abs m < 2 ^ 24)%Z -> fround (IZR m) = IZR m.
Proof.
  intros Hm. pose proof (fround_exact m 0 Hm ltac:(lia)) as H.
  cbn [powerRZ] in H. rewrite Rmult_1_r in H. exact H.
Qed.

(** Rounding does not cross a stored number: a value between two numbers
    that the array can hold is stored between them. *)
Lemma fround_bounded (x b : R) :
  fround b = b -> Rabs x <= Rabs b -> Rabs (fround x) <= Rabs b.
Proof.
  intros Hb Hx.
  pose proof (ulp_pos x) as Hux. pose proof (ulp_pos b) as Hub.
  pose proof (exponent_mono x b Hx) as He.
  (* |b| is a multiple of the unit of x *)
  assert (Hmul : exists n, Rabs b = IZR n * ulp x).
  { exists (Z.abs (nearestEven (b / ulp b)) * 2 ^ (exponent b - 23 - (exponent x - 23)))%Z.
    rewrite <- Hb at 1. unfold fround at 1.
    rewrite Rabs_mult, (Rabs_pos_eq (ulp b)) by lra.
    rewrite <- abs_IZR. unfold ulp. apply dyadic_multiple. lia. }
  destruct Hmul as [n Hn].
  unfold fround. rewrite Rabs_mult, (Rabs_pos_eq (ulp x)) by lra.
  rewrite Hn. apply Rmult_le_compat_r; [lra|].
  assert (Hq : - IZR n <= x / ulp x <= IZR n).
  { apply Rabs_le_inv in Hx. rewrite Hn in Hx.
    split.
    - apply Rmult_le_reg_r with (r := ulp x); [lra|].
      unfold Rdiv; rewrite Rmult_assoc, Rinv_l by lra. lra.
    - apply Rmult_le_reg_r with (r := ulp x); [lra|].
      unfold Rdiv; rewrite Rmult_assoc, Rinv_l by lra. lra. }
  destruct Hq as [Hq1 Hq2].
  rewrite <- opp_IZR in Hq1.
  apply nearestEven_ge in Hq1. apply nearestEven_le in Hq2.
  apply Rabs_le. rewrite <- opp_IZR. split; apply IZR_le; lia.
Qed.

End SinglePrecision.

(** ** The species mesh factory *)

Import Three FishViewer Spec.

Section SpeciesMeshFactory.

Variable getPointAt : list Vector3 -> R -> Vector3.

Abbreviation generate := (generateLowPolyFish getPointAt).

Example includes_inside : includes "sea_dragon_mutant" "dragon" = true.
Proof. reflexivity. Qed.

Example includes_short : includes "drag" "dragon" = false.
Proof. reflexivity. Qed.

(** An id that holds two keywords goes to the rule tried first. *)
Example rare_dragon_is_a_dragon :
  generate (mkFishType "rare_dragon" "Rare Dragon" "#ffffff" 9 1)
  = seaDragon getPointAt (mkFishType "rare_dragon" "Rare Dragon" "#ffffff" 9 1)
              Group.
Proof. reflexivity. Qed.

(** The code's chain of tests is the priority-ordered table. *)
Lemma generate_is_dispatch (fish : FishType) :
  generate fish = dispatch (dispatchTable getPointAt) (id fish) fish Group.
Proof.
  unfold generateLowPolyFish, dispatch, dispatchTable; cbn [find fst snd].
  repeat match goal with
         | |- context [includes ?s ?k] => destruct (includes s k); cbn [orb]
         end; reflexivity.
Qed.

Lemma matchesNoKeyword_generic (fish : FishType) :
  matchesNoKeyword (id fish) = true ->
  generate fish = genericFish fish Group.
Proof.
  unfold matchesNoKeyword, keywords; cbn [forallb].
  rewrite !andb_true_iff, !negb_true_iff.
  intros (H1 & H2 & H3 & H4 & H5 & H6 & H7 & H8 & H9 & _).
  unfold generateLowPolyFish.
  rewrite H1, H2, H3, H4, H5, H6, H7, H8, H9; reflexivity.
Qed.

Lemma genericFish_children (fish : FishType) :
  map name (children (genericFish fish Group))
  = [""; ""; "Tail"; "FinL"; "FinR"; ""; ""].
Proof. reflexivity. Qed.

(** C3. A species id that contains none of the keywords dragon, cosmic,
    shark, ancient, dunkle, rare, arowana, legend, coelacanth gets the
    Generic builder, and the named parts of the resulting group are
    exactly Tail, FinL and FinR, each found by a lookup of its name. *)
Theorem unmatched_id_gets_generic_parts (fish : FishType) :
  matchesNoKeyword (id fish) = true ->
  generate fish = genericFish fish Group /\
  partNames (generate fish) = ["Tail"; "FinL"; "FinR"] /\
  forall part, In part ["Tail"; "FinL"; "FinR"] ->
    exists h o, getObjectByName part (generate fish) = Some h /\
                deref h (generate fish) = Some o /\ name o = part.
Proof.
  intros Hno. rewrite (matchesNoKeyword_generic fish Hno).
  split; [reflexivity|]. split; [reflexivity|].
  intros part [<-|[<-|[<-|[]]]].
  - exists [2%nat]; eexists; repeat split; reflexivity.
  - exists [3%nat]; eexists; repeat split; reflexivity.
  - exists [4%nat]; eexists; repeat split; reflexivity.
Qed.

End SpeciesMeshFactory.

(** A species id that no rule matches: the common salmon. *)
Lemma unmatched_id_gets_generic_parts_witness :
  matchesNoKeyword (id Samples.salmon) = true /\
  partNames (generateLowPolyFish Samples.firstPoint Samples.salmon)
  = ["Tail"; "FinL"; "FinR"].
Proof.
  split; [reflexivity|].
  apply (unmatched_id_gets_generic_parts Samples.firstPoint Samples.salmon).
  reflexivity.
Defined.

(** ** Lookups by name and writes through handles *)

Section Lookups.

Lemma getObjectByName_unfold (n : string) (o : Object3D) :
  getObjectByName n o
  = if String.eqb (name o) n then Some []
    else firstHit (getObjectByName n) 0 (children o).
Proof. destruct o; reflexivity. Qed.

Lemma firstHit_update_nth (look : Object3D -> option Handle)
      (g : Object3D -> Object3D) (i : nat) :
  (forall c, look (g c) = look c) ->
  forall cs k, firstHit look k (update_nth i g cs) = firstHit look k cs.
Proof.
  intros Hg cs; revert i.
  induction cs as [|c cs IH]; intros [|i] k; cbn; try reflexivity.
  - now rewrite Hg.
  - now rewrite IH.
Qed.

(** A write that keeps names and children in place does not change what
    any lookup finds. *)
Lemma getObjectByName_mutate (n : string) (f : Object3D -> Object3D) :
  (forall o, name (f o) = name o) ->
  (forall o, children (f o) = children o) ->
  forall h o, getObjectByName n (mutate h f o) = getObjectByName n o.
Proof.
  intros Hname Hchildren.
  induction h as [|i h IH]; intros o; cbn [mutate].
  - rewrite (getObjectByName_unfold n (f o)), (getObjectByName_unfold n o).
    now rewrite Hname, Hchildren.
  - rewrite getObjectByName_unfold, (getObjectByName_unfold n o); cbn.
    now rewrite firstHit_update_nth.
Qed.

Lemma getObjectByName_drift (n : string) (time : R) (dragging : bool)
      (g : Object3D) :
  getObjectByName n (drift time dragging g) = getObjectByName n g.
Proof.
  unfold drift; destruct dragging; cbn [negb]; [reflexivity|].
  now rewrite getObjectByName_unfold, (getObjectByName_unfold n g).
Qed.

Lemma getObjectByName_wagTail (n : string) (time : R) (g : Object3D) :
  getObjectByName n (wagTail time g) = getObjectByName n g.
Proof.
  unfold wagTail; destruct (getObjectByName "Tail" g); [|reflexivity].
  now apply getObjectByName_mutate.
Qed.

Lemma getObjectByName_flapFins (n : string) (time : R) (g : Object3D) :
  getObjectByName n (flapFins time g) = getObjectByName n g.
Proof.
  unfold flapFins.
  destruct (getObjectByName "FinL" g), (getObjectByName "FinR" g);
    try reflexivity.
  rewrite !getObjectByName_mutate; reflexivity.
Qed.

(** Frames never change what a lookup finds: a part missing from the
    generated mesh stays missing. *)
Lemma getObjectByName_animate (n : string) (time : R) (v : Viewer) :
  getObjectByName n (fishGroup (animate time v))
  = getObjectByName n (fishGroup v).
Proof.
  unfold animate; cbn [fishGroup].
  now rewrite getObjectByName_flapFins, getObjectByName_wagTail,
    getObjectByName_drift.
Qed.

(** [animate] is its three updates, one after the other. *)
Lemma animate_steps (time : R) (v : Viewer) :
  fishGroup (animate time v)
  = animatePart "FinL" time
      (animatePart "Tail" time (drift time (isDragging v) (fishGroup v))).
Proof. reflexivity. Qed.

(** The update of a part that a lookup does not find changes nothing. *)
Lemma animatePart_not_found (part : string) (time : R) (g : Object3D) :
  getObjectByName part g = None -> animatePart part time g = g.
Proof.
  intros Hnone; unfold animatePart.
  destruct (String.eqb_spec part "Tail") as [->|_].
  { unfold wagTail; now rewrite Hnone. }
  destruct (String.eqb_spec part "FinL") as [->|_]; cbn [orb].
  { unfold flapFins; now rewrite Hnone. }
  destruct (String.eqb_spec part "FinR") as [->|_]; [|reflexivity].
  unfold flapFins; rewrite Hnone.
  now destruct (getObjectByName "FinL" g).
Qed.

End Lookups.

Section MissingParts.

Variable getPointAt : list Vector3 -> R -> Vector3.

(** C7. For the mesh generated for any species, the animation update of a
    part (Tail, FinL, FinR) that the builder did not create is a no-op at
    the place where [animate] applies it: the tree it is applied to, after
    the drift of the whole fish for the tail and after the tail wag for the
    fins, comes back with every node unchanged, so that the whole pass of
    [animate] does what it would do with that update left out.  The update
    is a total function, so nothing fails. *)
Theorem missing_part_update_is_noop
        (fish : FishType) (dragging : bool) (time : R) (part : string) :
  In part ["Tail"; "FinL"; "FinR"] ->
  getObjectByName part (generateLowPolyFish getPointAt fish) = None ->
  let v := mkViewer (generateLowPolyFish getPointAt fish) dragging in
  let g := drift time dragging (fishGroup v) in
  animatePart part time g = g /\
  animatePart part time (wagTail time g) = wagTail time g /\
  fishGroup (animate time v) = animateSkipping part time v.
Proof.
  intros Hpart Hnone v g; subst v g; cbn [fishGroup].
  assert (H1 : forall g, g = drift time dragging
                               (generateLowPolyFish getPointAt fish) ->
                         animatePart part time g = g).
  { intros g ->. apply animatePart_not_found.
    now rewrite getObjectByName_drift. }
  assert (H2 : forall g, g = wagTail time
                               (drift time dragging
                                  (generateLowPolyFish getPointAt fish)) ->
                         animatePart part time g = g).
  { intros g ->. apply animatePart_not_found.
    now rewrite getObjectByName_wagTail, getObjectByName_drift. }
  split; [now apply H1|]. split; [now apply H2|].
  unfold animate, animateSkipping; cbn [fishGroup isDragging].
  destruct Hpart as [<-|[<-|[<-|[]]]]; cbn [String.eqb Ascii.eqb Bool.eqb orb].
  - specialize (H1 _ eq_refl). unfold animatePart in H1.
    cbn [String.eqb Ascii.eqb Bool.eqb] in H1. now rewrite H1.
  - specialize (H2 _ eq_refl). unfold animatePart in H2.
    cbn [String.eqb Ascii.eqb Bool.eqb orb] in H2. exact H2.
  - specialize (H2 _ eq_refl). unfold animatePart in H2.
    cbn [String.eqb Ascii.eqb Bool.eqb orb] in H2. exact H2.
Qed.

(** Which of the three parts each builder creates. *)
Lemma seaDragon_parts (fish : FishType) :
  partNames (seaDragon getPointAt fish Group) = [].
Proof. reflexivity. Qed.

Lemma shark_parts (fish : FishType) :
  partNames (FishViewer.shark fish Group) = ["Tail"].
Proof. reflexivity. Qed.

Lemma boxFish_parts (fish : FishType) :
  partNames (boxFish fish Group) = ["Tail"].
Proof. reflexivity. Qed.

Lemma arowana_parts (fish : FishType) :
  partNames (arowana fish Group) = ["Tail"].
Proof. reflexivity. Qed.

Lemma coelacanth_parts (fish : FishType) :
  partNames (coelacanth fish Group) = ["Tail"].
Proof. reflexivity. Qed.

(** Where the parts exist they do move: the tail and the fins of the
    generic fish. *)
Lemma genericFish_tail_wags (fish : FishType) (time : R) :
  option_map (fun o => (name o, vy (rotation o)))
             (deref [2%nat] (wagTail time (genericFish fish Group)))
  = Some ("Tail", sin (time * 6) * 0.25).
Proof. reflexivity. Qed.

Lemma genericFish_fins_flap (fish : FishType) (time : R) :
  List.map (fun o => (name o, vz (rotation o)))
           (children (flapFins time (genericFish fish Group)))
  = [("", 0); ("", 0); ("Tail", 0);
     ("FinL", PI / 3 + sin (time * 10) * 0.15);
     ("FinR", - PI / 3 - sin (time * 10) * 0.15); ("", 0); ("", 0)].
Proof. reflexivity. Qed.

(** A dragged sea dragon, which has none of the three parts, is left
    entirely alone by [animate]. *)
Lemma animate_dragged_dragon (time : R) :
  animate time (mkViewer (generateLowPolyFish getPointAt Samples.dragon) true)
  = mkViewer (generateLowPolyFish getPointAt Samples.dragon) true.
Proof. reflexivity. Qed.

End MissingParts.

(** The shark has a tail but no fins of those names: its fin update is
    skipped. *)
Lemma missing_part_update_is_noop_witness :
  In "FinL" ["Tail"; "FinL"; "FinR"] /\
  getObjectByName "FinL"
    (generateLowPolyFish Samples.firstPoint Samples.shark) = None /\
  let v :=
    mkViewer (generateLowPolyFish Samples.firstPoint Samples.shark) false in
  let g := drift 1 false (fishGroup v) in
  animatePart "FinL" 1 g = g /\
  animatePart "FinL" 1 (wagTail 1 g) = wagTail 1 g /\
  fishGroup (animate 1 v) = animateSkipping "FinL" 1 v.
Proof.
  split; [cbn; auto|]. split; [reflexivity|].
  apply (missing_part_update_is_noop Samples.firstPoint Samples.shark false 1
                                     "FinL").
  - cbn; auto.
  - reflexivity.
Defined.

(** ** The sea dragon *)

Section SeaDragon.

Variable getPointAt : list Vector3 -> R -> Vector3.

Lemma dragon_id_gets_seaDragon (fish : FishType) :
  includes (id fish) "dragon" = true ->
  generateLowPolyFish getPointAt fish = seaDragon getPointAt fish Group.
Proof. intros H; unfold generateLowPolyFish; now rewrite H. Qed.

Lemma seaDragon_children (fish : FishType) :
  children (seaDragon getPointAt fish Group)
  = [ Mesh (TubeGeometry dragonPath 12 0.2 4 false) (mat fish);
      with_position (vec3 0 0.1 1.6)
        (Mesh (rotateX (- PI / 2) (ConeGeometry 0.2 0.8 4)) (mat fish));
      dragonLeaf getPointAt fish 0; dragonLeaf getPointAt fish 1;
      dragonLeaf getPointAt fish 2; dragonLeaf getPointAt fish 3;
      dragonLeaf getPointAt fish 4 ].
Proof. reflexivity. Qed.

(** C2, as the code has it. For every species id that contains "dragon",
    the first part of the mesh is the body, a tube along the dragon's curve
    with 12 segments along it and exactly 4 around it (a square
    cross-section); the second part is the head, a 4-sided cone placed at
    (0, 0.1, 1.6), forward of every control point of the body's curve and
    so of its front end at z = 1.5.  The head carries no name: its name is
    the empty string, as is that of every other node of the mesh. *)
Theorem dragon_body_and_unnamed_head (fish : FishType) :
  includes (id fish) "dragon" = true ->
  exists body head leaves,
    children (generateLowPolyFish getPointAt fish) = body :: head :: leaves /\
    content body = IsMesh (TubeGeometry dragonPath 12 0.2 4 false) (mat fish) /\
    tubeRadialSegments body = Some 4%nat /\
    content head
    = IsMesh (rotateX (- PI / 2) (ConeGeometry 0.2 0.8 4)) (mat fish) /\
    position head = vec3 0 0.1 1.6 /\
    forwardOf body head /\
    name head = "" /\
    partNames (generateLowPolyFish getPointAt fish) = [].
Proof.
  intros Hdragon. rewrite (dragon_id_gets_seaDragon fish Hdragon).
  rewrite seaDragon_children.
  do 3 eexists. split; [reflexivity|].
  repeat split.
  intros p [<-|[<-|[<-|[<-|[]]]]]; cbn; lra.
Qed.

End SeaDragon.

Lemma dragon_body_and_unnamed_head_witness :
  includes (id Samples.dragon_mutant) "dragon" = true /\
  partNames (generateLowPolyFish Samples.firstPoint Samples.dragon_mutant) = [].
Proof.
  split; [reflexivity|].
  destruct (dragon_body_and_unnamed_head Samples.firstPoint
              Samples.dragon_mutant eq_refl)
    as (body & head & leaves & _ & _ & _ & _ & _ & _ & _ & Hnames).
  exact Hnames.
Defined.

(** The mesh of the species "dragon" has no named part at all, hence no
    named head. *)
Lemma dragon_has_no_named_head :
  includes (id Samples.dragon) "dragon" = true /\
  ~ dragonAsSpecified (generateLowPolyFish Samples.firstPoint Samples.dragon).
Proof.
  split; [reflexivity|].
  intros (body & head & _ & _ & Hin & Hname & _).
  apply Hname.
  cbn in Hin.
  destruct Hin as [<-|[<-|[<-|[<-|[<-|[<-|[<-|[]]]]]]]]; reflexivity.
Qed.

(** ** Kelp *)

Section KelpTransform.
Import SeabedController Float32.

Lemma minNormal_le_1 : minNormal <= 1.
Proof.
  unfold minNormal. change 1 with (powerRZ 2 0). apply powerRZ_2_le. lia.
Qed.

Lemma fround_1 : fround 1 = 1.
Proof. apply (fround_IZR 1). reflexivity. Qed.

Lemma fround_m1 : fround (-1) = -1.
Proof. apply (fround_IZR (-1)). reflexivity. Qed.

Lemma fround_25 : fround 25 = 25.
Proof. apply (fround_IZR 25). reflexivity. Qed.

Lemma fround_half_25 : fround (25 / 2) = 25 / 2.
Proof.
  pose proof (fround_exact 25 (-1) eq_refl ltac:(lia)) as H.
  change (powerRZ 2 (-1)) with (/ (2 * 1)) in H.
  replace (25 * / (2 * 1)) with (25 / 2) in H by lra.
  exact H.
Qed.

(** The ten vertices of the strip of a stalk, top row first, as the
    position attribute holds them. *)
Lemma kelp_strip (height : R) :
  PlaneGeometry 2 height 1 4
  = [ vec3 (-1) (fround (height / 2)) 0;
      vec3 1 (fround (height / 2)) 0;
      vec3 (-1) (fround (height / 4)) 0;
      vec3 1 (fround (height / 4)) 0;
      vec3 (-1) 0 0;
      vec3 1 0 0;
      vec3 (-1) (fround (- (height / 4))) 0;
      vec3 1 (fround (- (height / 4))) 0;
      vec3 (-1) (fround (- (height / 2))) 0;
      vec3 1 (fround (- (height / 2))) 0 ].
Proof.
  assert (Hv : forall x x' y y', fround x = x' -> fround y = y' ->
                 store (vec3 x y 0) = vec3 x' y' 0).
  { intros x x' y y' <- <-. unfold store; cbn [vx vy vz].
    now rewrite fround_0. }
  unfold PlaneGeometry;
    cbn [seq flat_map List.map app Nat.add INR].
  repeat (apply f_equal2;
          [apply Hv;
           match goal with
           | |- fround ?a = -1 => replace a with (-1) by lra; exact fround_m1
           | |- fround ?a = 1 => replace a with 1 by lra; exact fround_1
           | |- fround ?a = 0 => replace a with 0 by lra; exact fround_0
           | |- fround ?a = fround ?b => f_equal; lra
           end|]).
  reflexivity.
Qed.

Lemma twist_is_rotation (height : R) (v : Vector3) :
  height <> 0 ->
  twist height v
  = store (translateY (height / 2)
             (rotateAboutGrowthAxis ((heightFraction height v - 1 / 2) * PI)
                                    v)).
Proof.
  intros Hh. unfold twist, translateY, rotateAboutGrowthAxis, heightFraction.
  cbn [vx vy vz].
  replace ((((vy v + height / 2) / height - 1 / 2)) * PI)
    with (vy v / height * PI) by (field; exact Hh).
  reflexivity.
Qed.

(** A row of the strip at nominal height [y0] of the centred plane: what
    the attribute holds of it, and what it holds after the lift. *)
Lemma row_stored (height y0 : R) :
  10 <= height <= 25 -> Rabs y0 <= height / 2 ->
  Rabs (fround y0 - y0) <= height / 2 ^ 25 /\
  Rabs (fround (fround y0 + height / 2) - (y0 + height / 2))
  <= height / 2 ^ 23 /\
  Rabs (fround (fround y0 + height / 2)) <= 25.
Proof.
  intros Hh Hy.
  pose proof minNormal_le_1 as Hmin.
  assert (E1 : Rabs (fround y0 - y0) <= height / 2 ^ 25).
  { pose proof (fround_error y0) as He.
    assert (Rmax (Rabs y0) minNormal <= height / 2)
      by (apply Rmax_lub; lra).
    lra. }
  set (t := fround y0 + height / 2).
  assert (Ht : Rabs (t - (y0 + height / 2)) <= height / 2 ^ 25).
  { unfold t. replace (fround y0 + height / 2 - (y0 + height / 2))
      with (fround y0 - y0) by ring. exact E1. }
  assert (Ht2 : Rabs t <= height + height / 2 ^ 25).
  { apply Rabs_le_inv in Ht. apply Rabs_le_inv in Hy. apply Rabs_le. lra. }
  split; [exact E1|]. split.
  - pose proof (fround_error t) as He.
    assert (Rmax (Rabs t) minNormal <= height + height / 2 ^ 25)
      by (apply Rmax_lub; lra).
    apply Rabs_le_inv in Ht. apply Rabs_le_inv in He. apply Rabs_le. lra.
  - rewrite <- (Rabs_pos_eq 25) by lra.
    apply fround_bounded; [exact fround_25|].
    rewrite (Rabs_pos_eq 25) by lra.
    assert (Hb : Rabs (fround y0) <= Rabs (25 / 2)).
    { apply fround_bounded; [exact fround_half_25|].
      rewrite (Rabs_pos_eq (25 / 2)) by lra. lra. }
    rewrite (Rabs_pos_eq (25 / 2)) in Hb by lra.
    apply Rabs_le_inv in Hb. apply Rabs_le. unfold t. lra.
Qed.

Lemma kelp_strip_index (height : R) (i : nat) (v : Vector3) :
  nth_error (PlaneGeometry 2 height 1 4) i = Some v -> (i < 10)%nat.
Proof.
  intros Hv.
  assert (Hn : nth_error (PlaneGeometry 2 height 1 4) i <> None)
    by congruence.
  apply nth_error_Some in Hn. rewrite kelp_strip in Hn. exact Hn.
Qed.

(** The rows of the strip, by index. *)
Lemma kelp_strip_rows (height : R) (i : nat) (v : Vector3) :
  nth_error (PlaneGeometry 2 height 1 4) i = Some v ->
  exists y0,
    y0 = (rowFraction i - 1 / 2) * height /\
    vy v = fround y0 /\ (vx v = -1 \/ vx v = 1) /\ vz v = 0.
Proof.
  rewrite kelp_strip. unfold rowFraction.
  do 10 (destruct i as [|i];
         [intros [= <-]; cbn [Nat.div Nat.divmod fst INR vx vy vz];
          eexists; split; [reflexivity|];
          split; [try (f_equal; lra); rewrite <- fround_0 at 1; f_equal; lra|];
          split; [auto|reflexivity]|]).
  destruct i; discriminate.
Qed.

(** C1, as the code has it. In a kelp stalk of a height H that the
    vegetation step can give it (10 to 25), the vertex that sits at height
    fraction f of the strip (0 at the base, 1 at the tip, as the
    position attribute holds it: within 2^-24 of the fraction of its row)
    is turned about the growth axis by the angle (f - 1/2) * PI, which is
    -PI/2 for the base row and PI/2 for the tip row, so the twist from base
    to tip is PI.  The stalk is then lifted by H/2 and stored in single
    precision, after which each vertex lies within H/2^23 of the height of
    its row: no vertex lies lower than that below y = 0, and the base
    vertices lie that close to y = 0. *)
Theorem kelp_twist_and_pivot (height : R) :
  10 <= height <= 25 ->
  (forall v,
      twist height v
      = store (translateY (height / 2)
                 (rotateAboutGrowthAxis
                    ((heightFraction height v - 1 / 2) * PI) v))) /\
  (forall i v, nth_error (PlaneGeometry 2 height 1 4) i = Some v ->
      Rabs (heightFraction height v - rowFraction i) <= / 2 ^ 24 /\
      Rabs ((heightFraction height v - 1 / 2) * PI
            - (rowFraction i - 1 / 2) * PI) <= PI / 2 ^ 24) /\
  (rowFraction 8 - 1 / 2) * PI = - (PI / 2) /\
  (rowFraction 0 - 1 / 2) * PI = PI / 2 /\
  (forall i w, nth_error (kelpGeometry height) i = Some w ->
      Rabs (vy w - rowFraction i * height) <= height / 2 ^ 23) /\
  (forall w, In w (kelpGeometry height) -> - (height / 2 ^ 23) <= vy w) /\
  (exists w, In w (kelpGeometry height) /\ Rabs (vy w) <= height / 2 ^ 23).
Proof.
  intros Hh.
  pose proof PI_RGT_0 as Hpi.
  assert (Hrow : forall i, (i < 10)%nat -> 0 <= rowFraction i <= 1).
  { intros i Hi. unfold rowFraction.
    do 10 (destruct i as [|i];
           [cbn [Nat.div Nat.divmod fst INR]; lra|]).
    lia. }
  assert (Hfraction : forall i v,
             nth_error (PlaneGeometry 2 height 1 4) i = Some v ->
             Rabs (heightFraction height v - rowFraction i) <= / 2 ^ 25).
  { intros i v Hv.
    pose proof (kelp_strip_index height i v Hv) as Hi.
    destruct (kelp_strip_rows height i v Hv) as (y0 & Hy0 & Hy & _).
    destruct (row_stored height y0 Hh) as (E1 & _).
    { specialize (Hrow i Hi). subst y0. apply Rabs_le. nra. }
    unfold heightFraction. rewrite Hy.
    replace ((fround y0 + height / 2) / height - rowFraction i)
      with ((fround y0 - y0) / height) by (subst y0; field; lra).
    unfold Rdiv at 1. rewrite Rabs_mult, (Rabs_pos_eq (/ height)).
    - apply Rmult_le_reg_r with (r := height); [lra|].
      rewrite Rmult_assoc, Rinv_l by lra. lra.
    - left. apply Rinv_0_lt_compat. lra. }
  assert (Hlift : forall i w,
             nth_error (kelpGeometry height) i = Some w ->
             Rabs (vy w - rowFraction i * height) <= height / 2 ^ 23).
  { intros i w Hw. unfold kelpGeometry in Hw.
    rewrite nth_error_map in Hw.
    destruct (nth_error (PlaneGeometry 2 height 1 4) i) as [v|] eqn:Hv;
      [|discriminate].
    injection Hw as <-.
    pose proof (kelp_strip_index height i v Hv) as Hi.
    destruct (kelp_strip_rows height i v Hv) as (y0 & Hy0 & Hy & _).
    destruct (row_stored height y0 Hh) as (_ & E2 & _).
    { specialize (Hrow i Hi). subst y0. apply Rabs_le. nra. }
    unfold twist, store; cbn [vx vy vz]. rewrite Hy.
    replace (rowFraction i * height) with (y0 + height / 2)
      by (subst y0; lra).
    exact E2. }
  split; [intros v; apply twist_is_rotation; lra|].
  split.
  { intros i v Hv. specialize (Hfraction i v Hv).
    split; [lra|].
    replace ((heightFraction height v - 1 / 2) * PI
             - (rowFraction i - 1 / 2) * PI)
      with ((heightFraction height v - rowFraction i) * PI) by ring.
    rewrite Rabs_mult, (Rabs_pos_eq PI) by lra.
    pose proof (Rabs_pos (heightFraction height v - rowFraction i)).
    nra. }
  split; [unfold rowFraction; cbn [Nat.div Nat.divmod fst INR]; lra|].
  split; [unfold rowFraction; cbn [Nat.div Nat.divmod fst INR]; lra|].
  split; [exact Hlift|].
  split.
  - intros w Hin. apply In_nth_error in Hin. destruct Hin as (i & Hi).
    pose proof (Hlift i w Hi) as Hl. apply Rabs_le_inv in Hl.
    assert (Hlt : (i < 10)%nat).
    { unfold kelpGeometry in Hi. rewrite nth_error_map in Hi.
      destruct (nth_error (PlaneGeometry 2 height 1 4) i) as [v|] eqn:Hv;
        [|discriminate].
      exact (kelp_strip_index height i v Hv). }
    specialize (Hrow i Hlt). nra.
  - destruct (nth_error (kelpGeometry height) 8) as [w|] eqn:Hw.
    + exists w. split; [eapply nth_error_In; exact Hw|].
      pose proof (Hlift 8%nat w Hw) as Hl.
      unfold rowFraction in Hl; cbn [Nat.div Nat.divmod fst INR] in Hl.
      replace (vy w - (1 - (1 + 1 + 1 + 1) / 4) * height) with (vy w) in Hl
        by lra.
      exact Hl.
    + exfalso. apply nth_error_None in Hw. unfold kelpGeometry in Hw.
      rewrite length_map, kelp_strip in Hw. cbn in Hw. lia.
Qed.

(** Every stalk that [initVegetation] builds is such a stalk, of a height
    between 10 and 25. *)
Lemma initVegetation_stalks (random : nat -> R) (i : nat) :
  (i < 40)%nat ->
  exists k,
    nth_error (initVegetation random) i = Some k /\
    vertices k = kelpGeometry (kelpHeight random i).
Proof.
  intros Hi. unfold initVegetation.
  rewrite nth_error_map, nth_error_seq.
  apply Nat.ltb_lt in Hi; rewrite Hi; cbn [option_map].
  eexists; split; reflexivity.
Qed.


End KelpTransform.

Lemma kelp_twist_and_pivot_witness :
  10 <= 10 <= 25 /\
  exists w, In w (SeabedController.kelpGeometry 10) /\
            Rabs (vy w) <= 10 / 2 ^ 23.
Proof.
  split; [lra|].
  apply (kelp_twist_and_pivot 10); lra.
Defined.

(** In a stalk of height 10, the base vertex (-1, -5, 0) is turned by
    -PI/2 and lands at x = 0; a turn by 0 would leave it at x = -1. *)
Lemma kelp_base_is_turned : ~ kelpAsSpecified 10.
Proof.
  intros Hspec.
  assert (H5 : Float32.fround (- (10 / 2)) = - 5).
  { replace (- (10 / 2)) with (IZR (-5)) by lra.
    apply (fround_IZR (-5)). reflexivity. }
  specialize (Hspec (vec3 (-1) (- 5) 0)).
  rewrite kelp_strip, H5 in Hspec.
  assert (Hin : In (vec3 (-1) (- 5) 0)
                   [vec3 (-1) (Float32.fround (10 / 2)) 0;
                    vec3 1 (Float32.fround (10 / 2)) 0;
                    vec3 (-1) (Float32.fround (10 / 4)) 0;
                    vec3 1 (Float32.fround (10 / 4)) 0;
                    vec3 (-1) 0 0; vec3 1 0 0;
                    vec3 (-1) (Float32.fround (- (10 / 4))) 0;
                    vec3 1 (Float32.fround (- (10 / 4))) 0;
                    vec3 (-1) (- 5) 0; vec3 1 (- 5) 0])
    by (cbn; tauto).
  specialize (Hspec Hin).
  apply (f_equal vx) in Hspec.
  unfold SeabedController.twist, Float32.store, translateY,
    rotateAboutGrowthAxis, heightFraction in Hspec.
  cbn [vx vy vz] in Hspec.
  replace (- 5 / 10 * PI) with (- (PI / 2)) in Hspec by lra.
  replace ((- 5 + 10 / 2) / 10 * PI) with 0 in Hspec by lra.
  rewrite cos_neg, sin_neg, cos_PI2, sin_PI2, cos_0, sin_0 in Hspec.
  replace (-1 * 0 - 0 * - (1)) with 0 in Hspec by lra.
  replace (-1 * 1 - 0 * 0) with (-1) in Hspec by lra.
  rewrite fround_0, fround_m1 in Hspec.
  lra.
Qed.

(** The lifted base need not sit at y = 0. In a stalk of height
    16777219 / 2^20 (a little over 16), half the height is not a single
    precision number: the base row is stored at -8388610 / 2^20, and the
    lift by half the height leaves it at y = -2^-21, below 0. *)
Lemma kelp_base_dips_below_zero :
  10 <= 16777219 / 2 ^ 20 <= 25 /\
  exists w, In w (SeabedController.kelpGeometry (16777219 / 2 ^ 20)) /\
            vy w = - / 2 ^ 21.
Proof.
  split; [lra|].
  set (height := 16777219 / 2 ^ 20).
  pose proof minNormal_le_1 as Hmin.
  assert (Hn : Float32.nearestEven (- (16777219 / 2)) = (-8388610)%Z).
  { unfold Float32.nearestEven.
    assert (Hi : Int_part (- (16777219 / 2)) = (-8388610)%Z)
      by (symmetry; apply Int_part_spec; lra).
    rewrite Hi.
    destruct (Rlt_dec _ _) as [Hlt|_]; [lra|].
    destruct (Rlt_dec _ _) as [Hlt|_]; [lra|].
    reflexivity. }
  assert (Hy : Float32.fround (- (height / 2)) = - (8388610 / 2 ^ 20)).
  { unfold Float32.fround, Float32.ulp.
    assert (He : Float32.exponent (- (height / 2)) = 3%Z).
    { apply exponent_unique.
      assert (Ha : Rabs (- (height / 2)) = height / 2)
        by (rewrite Rabs_left1; unfold height; lra).
      rewrite Ha, Rmax_left by (unfold height; lra).
      change (powerRZ 2 3) with (2 * (2 * (2 * 1))).
      change (powerRZ 2 (3 + 1)) with (2 * (2 * (2 * (2 * 1)))).
      unfold height; lra. }
    rewrite He. change (3 - 23)%Z with (-20)%Z.
    change (powerRZ 2 (-20)) with (/ 2 ^ 20).
    replace (- (height / 2) / / 2 ^ 20) with (- (16777219 / 2))
      by (unfold height; field).
    rewrite Hn. lra. }
  exists (SeabedController.twist height
            (vec3 (-1) (Float32.fround (- (height / 2))) 0)).
  split.
  - unfold SeabedController.kelpGeometry. apply in_map.
    rewrite kelp_strip. cbn [In]. tauto.
  - unfold SeabedController.twist, Float32.store; cbn [vx vy vz].
    rewrite Hy.
    replace (- (8388610 / 2 ^ 20) + height / 2)
      with (IZR (-1) * powerRZ 2 (-21)).
    + rewrite fround_exact by (try reflexivity; lia).
      change (powerRZ 2 (-21)) with (/ 2 ^ 21). lra.
    + change (powerRZ 2 (-21)) with (/ 2 ^ 21). unfold height. lra.
Qed.

(** ** The command API *)

Section CommandApi.
Import Scene SceneSpec.

(** The two versions of the component have the same three commands. *)
Lemma call_same (c : Command) (s : State) :
  ThreeViewPlain.call c s = ThreeViewMap.call c s.
Proof. destruct c; reflexivity. Qed.

Lemma calls_same (cs : list Command) (s : State) :
  ThreeViewPlain.calls cs s = ThreeViewMap.calls cs s.
Proof.
  revert s; induction cs as [|c cs IH]; intros s; cbn; [reflexivity|].
  now rewrite call_same, IH.
Qed.

(** No command looks at or touches the seabed. *)
Lemma call_set_seabedCtrlRef (c : Command) (seabed : option SeabedController.t)
      (s : State) :
  ThreeViewMap.call c (set_seabedCtrlRef seabed s)
  = set_seabedCtrlRef seabed (ThreeViewMap.call c s).
Proof.
  destruct c, s as [? ? [rod|] [bobber|] ? ? ? ? ? ?]; reflexivity.
Qed.

Lemma calls_set_seabedCtrlRef (cs : list Command)
      (seabed : option SeabedController.t) (s : State) :
  ThreeViewMap.calls cs (set_seabedCtrlRef seabed s)
  = set_seabedCtrlRef seabed (ThreeViewMap.calls cs s).
Proof.
  revert s; induction cs as [|c cs IH]; intros s; cbn; [reflexivity|].
  now rewrite call_set_seabedCtrlRef, IH.
Qed.

(** C9. The command APIs of the two versions of ThreeView are
    observationally equivalent: after any sequence of cast, reset and
    setReeling calls, run from the same refs, or from refs that differ in
    the seabed (which only the version with the map prop toggles), both
    show the same CastState, the same bobber visibility and the same
    reeling flag; from the same refs they even reach the same state. *)
Theorem command_apis_equivalent
        (cs : list Command) (s : State) (seabed : option SeabedController.t) :
  ThreeViewPlain.calls cs s = ThreeViewMap.calls cs s /\
  observe (ThreeViewPlain.calls cs s)
  = observe (ThreeViewMap.calls cs (set_seabedCtrlRef seabed s)).
Proof.
  split; [apply calls_same|].
  now rewrite calls_same, calls_set_seabedCtrlRef.
Qed.

(** The refs that a cast writes. *)
Lemma cast_refs (distance : R) (s : State) :
  stateRef (ThreeViewMap.cast distance s)
  = mkCastState true (castTarget distance) /\
  rodCtrlRef (ThreeViewMap.cast distance s)
  = option_map triggerCast (rodCtrlRef s) /\
  bobberCtrlRef (ThreeViewMap.cast distance s)
  = option_map
      (fun _ => mkBobber true
                  match rodCtrlRef s with
                  | Some rod => getTipWorldPosition rod
                  | None => zero3
                  end)
      (bobberCtrlRef s).
Proof. now destruct s as [? ? [rod|] [bobber|] ? ? ? ? ? ?]. Qed.

(** C4. For every distance, cast followed by reset leaves isCasted false,
    the bobber (when there is one) hidden and the rod (when there is one)
    not reeling, in both versions of the component.  Reset can be called in
    any state: it clears the three flags and leaves everything else as it
    was, so calling it when not casted, or twice, is harmless. *)
Theorem cast_then_reset (distance : R) (s : State) :
  let s' := ThreeViewMap.reset (ThreeViewMap.cast distance s) in
  isCasted (stateRef s') = false /\
  option_map bobberVisible (bobberCtrlRef s')
  = option_map (fun _ => false) (bobberCtrlRef s) /\
  option_map reeling (rodCtrlRef s')
  = option_map (fun _ => false) (rodCtrlRef s) /\
  ThreeViewPlain.reset (ThreeViewPlain.cast distance s) = s' /\
  (forall s0,
      ThreeViewMap.reset s0
      = set_bobberCtrlRef (option_map (setVisible false) (bobberCtrlRef s0))
          (set_rodCtrlRef (option_map (Scene.setReeling false) (rodCtrlRef s0))
             (set_stateRef (mkCastState false (targetPos (stateRef s0))) s0))) /\
  (forall s0, ThreeViewMap.reset (ThreeViewMap.reset s0)
              = ThreeViewMap.reset s0).
Proof.
  cbn zeta. repeat split.
  - now destruct s as [? ? [rod|] [bobber|] ? ? ? ? ? ?].
  - now destruct s as [? ? [rod|] [bobber|] ? ? ? ? ? ?].
  - now destruct s as [? ? [rod|] [bobber|] ? ? ? ? ? ?].
  - now intros [? ? [rod|] [bobber|] ? ? ? ? ? ?].
  - now intros [? ? [rod|] [bobber|] ? ? ? ? ? ?].
Qed.

(** C5, as the code has it. cast(distance) sets isCasted to true and the
    target to (0, 0, -10 - distance/5), triggers the rod's cast, and makes
    the bobber visible at the world position of the rod's tip (at the
    origin when there is no rod); nothing else changes.  It does all of
    this whether or not the component is casted already: a second cast
    updates the target, leaves isCasted and the bobber's visibility true,
    triggers the rod's cast once more and puts the bobber back at the rod's
    tip. *)
Theorem cast_effect (distance : R) (s : State) :
  let s' := ThreeViewMap.cast distance s in
  let tip := match rodCtrlRef s with
             | Some rod => getTipWorldPosition rod
             | None => zero3
             end in
  stateRef s' = mkCastState true (castTarget distance) /\
  rodCtrlRef s' = option_map triggerCast (rodCtrlRef s) /\
  bobberCtrlRef s' = option_map (fun _ => mkBobber true tip) (bobberCtrlRef s) /\
  s' = set_stateRef (stateRef s')
         (set_bobberCtrlRef (bobberCtrlRef s')
            (set_rodCtrlRef (rodCtrlRef s') s)) /\
  (forall distance',
      let s'' := ThreeViewMap.cast distance' s' in
      stateRef s'' = mkCastState true (castTarget distance') /\
      bobberCtrlRef s'' = bobberCtrlRef s' /\
      rodCtrlRef s'' = option_map triggerCast (rodCtrlRef s')).
Proof.
  cbn zeta. repeat split;
    now destruct s as [? ? [rod|] [bobber|] ? ? ? ? ? ?].
Qed.

(** A cast does more than retarget whenever the bobber is away from the
    rod's tip. *)
Lemma cast_moves_bobber_to_tip (distance : R) (s : State)
      (rod : RodController) (bobber : BobberController) :
  rodCtrlRef s = Some rod ->
  bobberCtrlRef s = Some bobber ->
  vz (bobberPosition bobber) <> vz (tipWorld rod) ->
  ThreeViewMap.cast distance s
  <> set_stateRef (mkCastState true (castTarget distance)) s.
Proof.
  intros Hrod Hbobber Haway Heq.
  apply (f_equal (fun s => option_map (fun b => vz (bobberPosition b))
                                      (bobberCtrlRef s))) in Heq.
  destruct s as [? ? rod' bobber' ? ? ? ? ? ?].
  cbn in Hrod, Hbobber; subst rod' bobber'.
  cbn in Heq. congruence.
Qed.

End CommandApi.

(** ** Frames *)

Section Frames.
Import Scene SceneSpec FrameParts.
Context {K : Controllers}.

(** The two versions run the same frame body. *)
Lemma frame_same (props : Props) (now : R) (s : State) :
  ThreeViewPlain.frame props now s = ThreeViewMap.frame props now s.
Proof. reflexivity. Qed.

Lemma animate_alive (props : Props) (now : R) (s : State) :
  alive s -> ThreeViewMap.animate props now s = ThreeViewMap.frame props now s.
Proof.
  intros (r & Hr & Hctx); unfold ThreeViewMap.animate; now rewrite Hr, Hctx.
Qed.

Lemma frame_parts (props : Props) (now : R) (s : State) :
  ThreeViewMap.frame props now s
  = (ThreeViewMap.updateLine (now * 0.001)
       (controllersPart (now * 0.001) (fst (weatherPart props now s))),
     snd (weatherPart props now s)).
Proof.
  unfold ThreeViewMap.frame, weatherPart.
  cbn [weatherCtrlRef set_lastTime].
  destruct (weatherCtrlRef s) as [w|]; [|reflexivity].
  destruct (ThreeViewMap.reportWeather _ _ _); reflexivity.
Qed.

Ltac refs :=
  cbn [sceneRef rendererRef rodCtrlRef bobberCtrlRef weatherCtrlRef
       seabedCtrlRef line stateRef lastWeatherReportRef lastTime
       set_sceneRef set_rendererRef set_rodCtrlRef set_bobberCtrlRef set_weatherCtrlRef
       set_seabedCtrlRef set_line set_stateRef set_lastWeatherReportRef
       set_lastTime fst snd option_map isCasted targetPos] in *.

Lemma weatherPart_keeps (props : Props) (now : R) (s : State) :
  let s' := fst (weatherPart props now s) in
  rendererRef s' = rendererRef s /\ stateRef s' = stateRef s /\
  rodCtrlRef s' = rodCtrlRef s /\ bobberCtrlRef s' = bobberCtrlRef s /\
  seabedCtrlRef s' = seabedCtrlRef s /\ line s' = line s /\
  (weatherCtrlRef s' = None <-> weatherCtrlRef s = None).
Proof.
  unfold weatherPart, ThreeViewMap.reportWeather; refs.
  destruct (weatherCtrlRef s) as [w|] eqn:Hw; refs.
  - destruct (onWeatherUpdate props); refs.
    + match goal with |- context [if ?c then _ else _] => destruct c end;
        refs; repeat split; intros; discriminate.
    + repeat split; intros; discriminate.
  - repeat split; trivial.
Qed.

Lemma controllersPart_keeps (time : R) (s : State) :
  let s' := controllersPart time s in
  rendererRef s' = rendererRef s /\ stateRef s' = stateRef s /\
  rodCtrlRef s' = option_map (rodAnimate time) (rodCtrlRef s) /\
  bobberCtrlRef s' = option_map (bobberAnimate time) (bobberCtrlRef s) /\
  seabedCtrlRef s'
  = option_map (SeabedController.swayKelp time) (seabedCtrlRef s) /\
  line s' = line s /\ weatherCtrlRef s' = weatherCtrlRef s /\
  lastWeatherReportRef s' = lastWeatherReportRef s.
Proof. unfold controllersPart; refs; repeat split. Qed.

Lemma updateLine_keeps (time : R) (s : State) :
  let s' := ThreeViewMap.updateLine time s in
  rendererRef s' = rendererRef s /\ stateRef s' = stateRef s /\
  rodCtrlRef s' = rodCtrlRef s /\
  (bobberCtrlRef s' = None <-> bobberCtrlRef s = None) /\
  seabedCtrlRef s' = seabedCtrlRef s /\
  (line s' = None <-> line s = None) /\
  weatherCtrlRef s' = weatherCtrlRef s /\
  lastWeatherReportRef s' = lastWeatherReportRef s.
Proof.
  unfold ThreeViewMap.updateLine.
  destruct (isCasted (stateRef s)), (bobberCtrlRef s) as [bobber|] eqn:Hb,
    (line s) as [l|] eqn:Hl; refs; rewrite ?Hb, ?Hl;
    repeat split; intros; try discriminate; trivial.
Qed.

(** What a frame leaves alone: the renderer, the CastState, and which of
    the refs are set. *)
Lemma frame_keeps (props : Props) (now : R) (s : State) :
  let s' := fst (ThreeViewMap.frame props now s) in
  rendererRef s' = rendererRef s /\
  stateRef s' = stateRef s /\
  (rodCtrlRef s' = None <-> rodCtrlRef s = None) /\
  (bobberCtrlRef s' = None <-> bobberCtrlRef s = None) /\
  (weatherCtrlRef s' = None <-> weatherCtrlRef s = None) /\
  (line s' = None <-> line s = None) /\
  seabedCtrlRef s'
  = option_map (SeabedController.swayKelp (now * 0.001)) (seabedCtrlRef s).
Proof.
  rewrite frame_parts; cbn [fst]; cbn zeta.
  destruct (updateLine_keeps (now * 0.001)
              (controllersPart (now * 0.001) (fst (weatherPart props now s))))
    as (U1 & U2 & U3 & U4 & U5 & U6 & U7 & _).
  destruct (controllersPart_keeps (now * 0.001)
              (fst (weatherPart props now s)))
    as (C1 & C2 & C3 & C4 & C5 & C6 & C7 & _).
  destruct (weatherPart_keeps props now s)
    as (W1 & W2 & W3 & W4 & W5 & W6 & W7).
  cbn zeta in *.
  rewrite U1, U2, U3, U4, U5, U6, U7, C1, C2, C3, C4, C5, C6, C7,
    W1, W2, W3, W4, W5, W6.
  repeat split; trivial.
  - destruct (rodCtrlRef s); [discriminate|trivial].
  - intros ->; reflexivity.
  - destruct (bobberCtrlRef s); [discriminate|trivial].
  - intros ->; reflexivity.
  - apply W7.
  - apply W7.
Qed.

(** ** The seabed and the map *)

Lemma mapEffect_seabed (props : Props) (s : State) :
  seabedCtrlRef (ThreeViewMap.mapEffect props s)
  = option_map (SeabedController.setVisible
                  (String.eqb (map props) "atlantis")) (seabedCtrlRef s).
Proof.
  unfold ThreeViewMap.mapEffect.
  destruct (seabedCtrlRef s) as [seabed|] eqn:Hs; refs; now rewrite ?Hs.
Qed.

Lemma initEffect_builds (host : Host) (props : Props) (s : State) :
  containerPresent host = true ->
  webglAvailable host = true ->
  rendererRef s = None ->
  ThreeViewMap.initEffect host props s
  = ThreeViewMap.frame props (firstFrameClock host)
      (ThreeViewMap.build host
         (set_rendererRef (Some (mkRenderer true))
            (set_sceneRef (Some newScene) s))).
Proof.
  intros Hc Hw Hr. unfold ThreeViewMap.initEffect.
  rewrite Hc, Hw, Hr; cbn [negb].
  apply animate_alive. exists (mkRenderer true); split; reflexivity.
Qed.

(** C6. After one full scene build by the version of ThreeView that takes
    the map prop (the container is there, a WebGL context is granted and
    no renderer existed before), the seabed controller exists and its
    visibility flag is the outcome of the test map = atlantis: true if and
    only if the map selector is atlantis, false for every other value. *)
Theorem seabed_visible_iff_atlantis
        (host : Host) (props : Props) (s : State) :
  containerPresent host = true ->
  webglAvailable host = true ->
  rendererRef s = None ->
  exists seabed,
    seabedCtrlRef (fst (ThreeViewMap.mount host props s)) = Some seabed /\
    SeabedController.visible seabed = String.eqb (map props) "atlantis" /\
    (SeabedController.visible seabed = true <-> map props = "atlantis") /\
    (map props <> "atlantis" -> SeabedController.visible seabed = false).
Proof.
  intros Hc Hw Hr. unfold ThreeViewMap.mount.
  rewrite (initEffect_builds host props s Hc Hw Hr).
  destruct (frame_keeps props (firstFrameClock host)
              (ThreeViewMap.build host
                 (set_rendererRef (Some (mkRenderer true))
                    (set_sceneRef (Some newScene) s))))
    as (_ & _ & _ & _ & _ & _ & Hsea).
  cbn zeta in Hsea.
  destruct (ThreeViewMap.frame props (firstFrameClock host) _) as [s1 call].
  cbn [fst] in *.
  rewrite mapEffect_seabed.
  unfold ThreeViewMap.rodEffect; refs. rewrite Hsea.
  unfold ThreeViewMap.build; refs.
  eexists; split; [reflexivity|].
  cbn [SeabedController.visible SeabedController.setVisible].
  split; [reflexivity|]. split.
  - apply String.eqb_eq.
  - apply String.eqb_neq.
Qed.

(** ** The weather report *)

Lemma WeatherType_eqb_eq (a b : WeatherType) :
  WeatherType_eqb a b = true <-> a = b.
Proof. destruct a, b; cbn; split; congruence. Qed.

Lemma changed_differs (last : WeatherReport) (w : WeatherState) :
  negb (WeatherType_eqb (lastWeather last) (weather w))
  || negb (Z.eqb (hour last) (Int_part (time w))) = true
  <-> differs last w.
Proof.
  unfold differs.
  rewrite orb_true_iff, !negb_true_iff.
  rewrite <- !not_true_iff_false, WeatherType_eqb_eq, Z.eqb_eq.
  reflexivity.
Qed.

Lemma reportWeather_spec (props : Props) (w : WeatherState) (s : State) :
  onWeatherUpdate props = true ->
  let r := ThreeViewMap.reportWeather props w s in
  (snd r <> None <-> differs (lastWeatherReportRef s) w) /\
  (snd r = None \/ snd r = Some (weather w, time w)) /\
  lastWeatherReportRef (fst r)
  = match snd r with
    | Some c => reportOf c
    | None => lastWeatherReportRef s
    end /\
  weatherCtrlRef (fst r) = weatherCtrlRef s.
Proof.
  intros Hcb. unfold ThreeViewMap.reportWeather. rewrite Hcb.
  pose proof (changed_differs (lastWeatherReportRef s) w) as Hd.
  destruct (negb _ || negb _); cbn zeta; refs.
  - split; [split; [intros _; apply Hd; reflexivity | intros _; discriminate]|].
    split; [right; reflexivity|]. split; reflexivity.
  - split; [split; [intros Hn; now elim Hn|]|].
    { intros Hdiff; apply Hd in Hdiff; discriminate. }
    split; [left; reflexivity|]. split; reflexivity.
Qed.

(** One frame reports on the edge, and remembers what it reported. *)
Lemma frame_reports (props : Props) (now : R) (s : State) (w : WeatherState) :
  onWeatherUpdate props = true ->
  weatherCtrlRef s = Some w ->
  let r := ThreeViewMap.frame props now s in
  exists w',
    weatherCtrlRef (fst r) = Some w' /\
    (snd r <> None <-> differs (lastWeatherReportRef s) w') /\
    (snd r = None \/ snd r = Some (weather w', time w')) /\
    lastWeatherReportRef (fst r)
    = match snd r with
      | Some c => reportOf c
      | None => lastWeatherReportRef s
      end.
Proof.
  intros Hcb Hw. cbn zeta. rewrite frame_parts; cbn [fst snd].
  destruct (updateLine_keeps (now * 0.001)
              (controllersPart (now * 0.001) (fst (weatherPart props now s))))
    as (_ & _ & _ & _ & _ & _ & U7 & U8).
  destruct (controllersPart_keeps (now * 0.001)
              (fst (weatherPart props now s)))
    as (_ & _ & _ & _ & _ & _ & C7 & C8).
  cbn zeta in *. rewrite U7, U8, C7, C8.
  unfold weatherPart; rewrite Hw; cbn zeta.
  set (w' := weatherUpdate ((now - lastTime s) / 1000) w).
  destruct (reportWeather_spec props w'
              (set_weatherCtrlRef (Some w') (set_lastTime now s)) Hcb)
    as (R1 & R2 & R3 & R4).
  exists w'. rewrite R4. repeat split; try assumption; apply R1.
Qed.

Lemma call_keeps (c : Command) (s : State) :
  let s' := ThreeViewMap.call c s in
  rendererRef s' = rendererRef s /\
  weatherCtrlRef s' = weatherCtrlRef s /\
  lastWeatherReportRef s' = lastWeatherReportRef s /\
  line s' = line s /\
  (bobberCtrlRef s' = None <-> bobberCtrlRef s = None).
Proof.
  destruct c, s as [? ? [rod|] [bobber|] ? ? ? ? ? ?]; cbn;
    repeat split; intros; congruence.
Qed.

Lemma plain_run_edgeTriggered (props : Props) (es : list Event) :
  onWeatherUpdate props = true ->
  forall s, weatherCtrlRef s <> None ->
    edgeTriggered (lastWeatherReportRef s) es (ThreeViewPlain.run props es s).
Proof.
  intros Hcb. induction es as [|[c|now] es IH]; intros s Hw; cbn.
  - exact I.
  - split; [reflexivity|].
    rewrite call_same.
    destruct (call_keeps c s) as (_ & K2 & K3 & _). cbn zeta in *.
    rewrite <- K3. apply IH. now rewrite K2.
  - destruct (weatherCtrlRef s) as [w|] eqn:Hws; [|now elim Hw].
    unfold ThreeViewPlain.animate. rewrite frame_same.
    destruct (frame_reports props now s w Hcb Hws)
      as (w' & F1 & F2 & F3 & F4).
    cbn zeta in *.
    destruct (ThreeViewMap.frame props now s) as [s' c]; cbn [fst snd] in *.
    exists w'. repeat split; try assumption; try apply F2.
    rewrite <- F4. apply IH. rewrite F1; discriminate.
Qed.

Lemma alive_step (props : Props) (e : Event) (s : State) :
  alive s -> alive (fst (ThreeViewMap.step props e s)).
Proof.
  intros Ha. destruct e as [c|now]; cbn [ThreeViewMap.step fst].
  - destruct (call_keeps c s) as (K1 & _). unfold alive. now rewrite K1.
  - rewrite (animate_alive props now s Ha).
    destruct (frame_keeps props now s) as (F1 & _). unfold alive.
    now rewrite F1.
Qed.

(** While the renderer holds its context, both versions run alike. *)
Lemma run_same (props : Props) (es : list Event) :
  forall s, alive s ->
    ThreeViewMap.run props es s = ThreeViewPlain.run props es s.
Proof.
  induction es as [|e es IH]; intros s Ha; cbn [ThreeViewMap.run
    ThreeViewPlain.run]; [reflexivity|].
  assert (Hstep : ThreeViewMap.step props e s = ThreeViewPlain.step props e s).
  { destruct e as [c|now]; cbn [ThreeViewMap.step ThreeViewPlain.step].
    - f_equal; symmetry; apply call_same.
    - rewrite (animate_alive props now s Ha). reflexivity. }
  rewrite <- Hstep. f_equal. apply IH. now apply alive_step.
Qed.

(** C8. Along any sequence of frames, with calls of the command API in
    between, of a component that was given the onWeatherUpdate callback
    and has its weather controller: the callback is called on a frame if
    and only if the weather category of that frame differs from the one
    last reported or the integer hour floor(time) differs from the hour
    last reported; it is then called with that frame's weather and time,
    and never on a frame where both are unchanged.  Before the first
    report the last report counts as the one held at the start (CLEAR,
    hour -1 on a fresh component).  This holds for the version without the
    map prop, and for the version with it as long as its renderer holds a
    context. *)
Theorem weather_report_edge_triggered
        (props : Props) (es : list Event) (s : State) :
  onWeatherUpdate props = true ->
  weatherCtrlRef s <> None ->
  edgeTriggered (lastWeatherReportRef s) es (ThreeViewPlain.run props es s) /\
  (alive s ->
   edgeTriggered (lastWeatherReportRef s) es (ThreeViewMap.run props es s)).
Proof.
  intros Hcb Hw. split.
  - now apply plain_run_edgeTriggered.
  - intros Ha. rewrite (run_same props es s Ha).
    now apply plain_run_edgeTriggered.
Qed.

(** ** The bobber *)

Lemma frame_rod (props : Props) (now : R) (s : State) :
  rodCtrlRef (fst (ThreeViewMap.frame props now s))
  = option_map (rodAnimate (now * 0.001)) (rodCtrlRef s).
Proof.
  rewrite frame_parts; cbn [fst].
  destruct (updateLine_keeps (now * 0.001)
              (controllersPart (now * 0.001) (fst (weatherPart props now s))))
    as (_ & _ & U3 & _).
  destruct (controllersPart_keeps (now * 0.001)
              (fst (weatherPart props now s))) as (_ & _ & C3 & _).
  destruct (weatherPart_keeps props now s) as (_ & _ & W3 & _).
  cbn zeta in *. now rewrite U3, C3, W3.
Qed.

(** The bobber after a frame: its own animation, then, when casted and
    the line exists, the pull towards the target and the bob. *)
Lemma frame_bobber (props : Props) (now : R) (s : State) :
  bobberCtrlRef (fst (ThreeViewMap.frame props now s))
  = match isCasted (stateRef s),
          option_map (bobberAnimate (now * 0.001)) (bobberCtrlRef s),
          line s with
    | true, Some bobber, Some _ =>
        Some (setPosition
                (set_y (bobbleHeight now)
                       (lerp (bobberPosition bobber) (targetPos (stateRef s))
                             0.05))
                bobber)
    | _, bobber, _ => bobber
    end.
Proof.
  rewrite frame_parts; cbn [fst].
  destruct (controllersPart_keeps (now * 0.001)
              (fst (weatherPart props now s)))
    as (_ & C2 & _ & C4 & _ & C6 & _).
  destruct (weatherPart_keeps props now s) as (_ & W2 & _ & W4 & _ & W6 & _).
  cbn zeta in *. rewrite W2, W4, W6 in *.
  unfold ThreeViewMap.updateLine. rewrite C2, C4, C6.
  destruct (isCasted (stateRef s)),
    (option_map (bobberAnimate (now * 0.001)) (bobberCtrlRef s)) as [b|] eqn:Hb,
    (line s) as [l|]; refs; rewrite ?C4, ?Hb; reflexivity.
Qed.

Lemma frame_bobber_height (props : Props) (now : R) (s : State) :
  isCasted (stateRef s) = true ->
  bobberCtrlRef s <> None ->
  line s <> None ->
  bobberY (fst (ThreeViewMap.frame props now s)) = Some (bobbleHeight now).
Proof.
  intros Hcasted Hb Hl. unfold bobberY. rewrite frame_bobber, Hcasted.
  destruct (bobberCtrlRef s) as [b|]; [|now elim Hb].
  destruct (line s) as [l|]; [|now elim Hl].
  reflexivity.
Qed.

Lemma call_isCasted (c : Command) (s : State) :
  isCasted (stateRef (ThreeViewMap.call c s))
  = match c with
    | Cast _ => true
    | Reset => false
    | SetReeling _ => isCasted (stateRef s)
    end.
Proof. now destruct c, s as [? ? [rod|] [bobber|] ? ? ? ? ? ?]. Qed.

Lemma plain_step_keeps (props : Props) (e : Event) (s : State) :
  let s' := fst (ThreeViewPlain.step props e s) in
  (bobberCtrlRef s' = None <-> bobberCtrlRef s = None) /\
  (line s' = None <-> line s = None).
Proof.
  destruct e as [c|now]; cbn [ThreeViewPlain.step fst].
  - rewrite call_same. destruct (call_keeps c s) as (_ & _ & _ & K4 & K5).
    cbn zeta in *. rewrite K4. split; [exact K5|reflexivity].
  - unfold ThreeViewPlain.animate. rewrite frame_same.
    destruct (frame_keeps props now s) as (_ & _ & _ & F4 & _ & F6 & _).
    split; assumption.
Qed.

Lemma plain_run_heightsFollowClock (props : Props) (es : list Event) :
  forall s, bobberCtrlRef s <> None -> line s <> None ->
    heightsFollowClock es (ThreeViewPlain.run props es s).
Proof.
  induction es as [|e es IH]; intros s Hb Hl; [exact I|].
  destruct (plain_step_keeps props e s) as (P1 & P2). cbn zeta in *.
  assert (Hnext : heightsFollowClock es
                    (ThreeViewPlain.run props es
                       (fst (ThreeViewPlain.step props e s))))
    by (apply IH; tauto).
  destruct e as [c|now]; cbn [ThreeViewPlain.run heightsFollowClock].
  - destruct (ThreeViewPlain.step props (Call c) s); exact Hnext.
  - destruct (ThreeViewPlain.step props (Frame now) s) as [s' call] eqn:Hstep.
    split; [|exact Hnext].
    cbn [ThreeViewPlain.step] in Hstep. unfold ThreeViewPlain.animate in Hstep.
    rewrite frame_same in Hstep.
    intros Hcasted.
    replace s' with (fst (ThreeViewMap.frame props now s)) in *
      by (now rewrite Hstep).
    apply frame_bobber_height; try assumption.
    destruct (frame_keeps props now s) as (_ & F2 & _).
    cbn zeta in F2. now rewrite <- F2.
Qed.

(** Two runs that differ only in the distances cast show the same bobber
    heights, frame by frame. *)
Lemma plain_runs_same_heights (props : Props) (es1 es2 : list Event) :
  Forall2 sameButDistance es1 es2 ->
  forall s1 s2,
    bobberCtrlRef s1 <> None -> line s1 <> None ->
    bobberCtrlRef s2 <> None -> line s2 <> None ->
    isCasted (stateRef s1) = isCasted (stateRef s2) ->
    castedFrameHeights es1 (ThreeViewPlain.run props es1 s1)
    = castedFrameHeights es2 (ThreeViewPlain.run props es2 s2).
Proof.
  induction 1 as [|e1 e2 es1 es2 He Hes IH]; intros s1 s2 Hb1 Hl1 Hb2 Hl2 Hc;
    [reflexivity|].
  destruct (plain_step_keeps props e1 s1) as (P1 & P2).
  destruct (plain_step_keeps props e2 s2) as (Q1 & Q2).
  cbn zeta in *.
  assert (Hnext :
            isCasted (stateRef (fst (ThreeViewPlain.step props e1 s1)))
            = isCasted (stateRef (fst (ThreeViewPlain.step props e2 s2))) ->
            castedFrameHeights es1
              (ThreeViewPlain.run props es1
                 (fst (ThreeViewPlain.step props e1 s1)))
            = castedFrameHeights es2
                (ThreeViewPlain.run props es2
                   (fst (ThreeViewPlain.step props e2 s2))))
    by (apply IH; tauto).
  destruct e1 as [c1|now1], e2 as [c2|now2].
  2: { exfalso; destruct c1; cbn in He; discriminate. }
  2: { exfalso; cbn in He; discriminate. }
  - cbn [ThreeViewPlain.run castedFrameHeights].
    apply Hnext. cbn [ThreeViewPlain.step fst]. rewrite !call_same.
    rewrite !call_isCasted.
    destruct c1, c2; cbn in He; try congruence; try reflexivity.
  - cbn in He. injection He as <-.
    cbn [ThreeViewPlain.run castedFrameHeights].
    pose proof (fun Hc1 => frame_bobber_height props now1 s1 Hc1 Hb1 Hl1)
      as H1.
    pose proof (fun Hc2 => frame_bobber_height props now1 s2 Hc2 Hb2 Hl2)
      as H2.
    change (ThreeViewMap.frame props now1 s1)
      with (ThreeViewPlain.step props (Frame now1) s1) in H1.
    change (ThreeViewMap.frame props now1 s2)
      with (ThreeViewPlain.step props (Frame now1) s2) in H2.
    assert (Hkeep : forall s, isCasted (stateRef
                                (fst (ThreeViewPlain.step props (Frame now1) s)))
                              = isCasted (stateRef s)).
    { intros s. cbn [ThreeViewPlain.step]. unfold ThreeViewPlain.animate.
      rewrite frame_same.
      destruct (frame_keeps props now1 s) as (_ & F2 & _).
      cbn zeta in F2. now rewrite F2. }
    pose proof (Hkeep s1) as K1. pose proof (Hkeep s2) as K2.
    destruct (ThreeViewPlain.step props (Frame now1) s1) as [s1' call1].
    destruct (ThreeViewPlain.step props (Frame now1) s2) as [s2' call2].
    cbn [fst] in *.
    f_equal.
    + rewrite K1, K2, <- Hc.
      destruct (isCasted (stateRef s1)) eqn:Hc1; [|reflexivity].
      rewrite H1, H2; congruence.
    + apply Hnext. congruence.
Qed.

(** C10. In a component whose bobber and line exist, the bobber's
    y-coordinate after the line update of every frame that runs while
    casted is sin(time*2.5)*0.04 + cos(time*1.5)*0.02 - 0.05, where time is
    that frame's clock reading in seconds: a function of time alone.  So
    two runs from the same state that differ only in the distances cast
    show the same bobber y-coordinate on every such frame.  This holds for
    the version without the map prop, and for the version with it as long
    as its renderer holds a context. *)
Theorem bobber_height_depends_on_time_only
        (props : Props) (es1 es2 : list Event) (s : State) :
  bobberCtrlRef s <> None ->
  line s <> None ->
  Forall2 sameButDistance es1 es2 ->
  (heightsFollowClock es1 (ThreeViewPlain.run props es1 s) /\
   castedFrameHeights es1 (ThreeViewPlain.run props es1 s)
   = castedFrameHeights es2 (ThreeViewPlain.run props es2 s)) /\
  (alive s ->
   heightsFollowClock es1 (ThreeViewMap.run props es1 s) /\
   castedFrameHeights es1 (ThreeViewMap.run props es1 s)
   = castedFrameHeights es2 (ThreeViewMap.run props es2 s)).
Proof.
  intros Hb Hl Hes.
  assert (Hplain :
            heightsFollowClock es1 (ThreeViewPlain.run props es1 s) /\
            castedFrameHeights es1 (ThreeViewPlain.run props es1 s)
            = castedFrameHeights es2 (ThreeViewPlain.run props es2 s)).
  { split.
    - now apply plain_run_heightsFollowClock.
    - now apply plain_runs_same_heights. }
  split; [exact Hplain|].
  intros Ha. now rewrite !(run_same props _ s Ha).
Qed.

(** ** A fresh mount *)

Lemma mapEffect_keeps (props : Props) (s : State) :
  let s' := ThreeViewMap.mapEffect props s in
  rendererRef s' = rendererRef s /\ stateRef s' = stateRef s /\
  rodCtrlRef s' = rodCtrlRef s /\ bobberCtrlRef s' = bobberCtrlRef s /\
  weatherCtrlRef s' = weatherCtrlRef s /\ line s' = line s.
Proof.
  unfold ThreeViewMap.mapEffect.
  destruct (seabedCtrlRef s); refs; repeat split.
Qed.

(** The refs after the first render of a fresh component. *)
Lemma mount_fresh (host : Host) (props : Props) :
  containerPresent host = true ->
  webglAvailable host = true ->
  let s' := fst (ThreeViewMap.mount host props initialState) in
  let time := firstFrameClock host * 0.001 in
  rendererRef s' = Some (mkRenderer true) /\
  stateRef s' = stateRef initialState /\
  rodCtrlRef s'
  = Some (rodUpdate (rodLevel props) (enchant props) (rodSkin props)
                    (rodAnimate time newRod)) /\
  bobberCtrlRef s'
  = Some (bobberUpdateEnchant (enchant props) (bobberAnimate time newBobber)) /\
  weatherCtrlRef s' <> None /\
  line s' <> None.
Proof.
  intros Hc Hw. cbn zeta. unfold ThreeViewMap.mount.
  rewrite (initEffect_builds host props initialState Hc Hw eq_refl).
  set (s0 := ThreeViewMap.build host
               (set_rendererRef (Some (mkRenderer true))
                  (set_sceneRef (Some newScene) initialState))).
  pose proof (frame_keeps props (firstFrameClock host) s0)
    as (F1 & F2 & _ & _ & F5 & F6 & _).
  pose proof (frame_rod props (firstFrameClock host) s0) as Frod.
  pose proof (frame_bobber props (firstFrameClock host) s0) as Fbob.
  cbn zeta in *.
  destruct (ThreeViewMap.frame props (firstFrameClock host) s0) as [s1 call].
  cbn [fst] in *.
  destruct (mapEffect_keeps props (ThreeViewMap.rodEffect props s1))
    as (M1 & M2 & M3 & M4 & M5 & M6).
  cbn zeta in *. rewrite M1, M2, M3, M4, M5, M6.
  unfold ThreeViewMap.rodEffect; refs.
  rewrite F1, F2, Frod, Fbob.
  repeat split.
  - intros Hn. apply F5 in Hn. discriminate Hn.
  - intros Hn. apply F6 in Hn. discriminate Hn.
Qed.

End Frames.

(** A fresh component on the atlantis map, and one on the lake. *)
Lemma seabed_visible_iff_atlantis_witness :
  Scene.containerPresent Samples.host = true /\
  Scene.webglAvailable Samples.host = true /\
  Scene.rendererRef Scene.initialState = None /\
  (exists seabed,
      Scene.seabedCtrlRef Samples.mounted = Some seabed /\
      SeabedController.visible seabed = true) /\
  (exists seabed,
      Scene.seabedCtrlRef Samples.mountedOnLake = Some seabed /\
      SeabedController.visible seabed = false).
Proof.
  split; [reflexivity|]. split; [reflexivity|]. split; [reflexivity|].
  split.
  - destruct (seabed_visible_iff_atlantis
                (K := Samples.stillControllers) Samples.host
                Samples.atlantisProps Scene.initialState
                eq_refl eq_refl eq_refl)
      as (seabed & Hsome & Hvisible & _).
    exists seabed; split; [exact Hsome | exact Hvisible].
  - destruct (seabed_visible_iff_atlantis
                (K := Samples.stillControllers) Samples.host
                Samples.lakeProps Scene.initialState
                eq_refl eq_refl eq_refl)
      as (seabed & Hsome & Hvisible & _).
    exists seabed; split; [exact Hsome | exact Hvisible].
Defined.

(** ** The sample component *)

Section SampleComponent.
Import Scene SceneSpec FrameParts.

Lemma mounted_refs :
  rendererRef Samples.mounted = Some (mkRenderer true) /\
  stateRef Samples.mounted = mkCastState false (vec3 0 0 0) /\
  rodCtrlRef Samples.mounted = Some (mkRod false (vec3 0 2 0) 0) /\
  bobberCtrlRef Samples.mounted = Some (mkBobber false zero3) /\
  weatherCtrlRef Samples.mounted <> None /\
  line Samples.mounted <> None.
Proof.
  exact (mount_fresh (K := Samples.stillControllers) Samples.host
                     Samples.atlantisProps eq_refl eq_refl).
Qed.

Lemma castedOneFrame_refs :
  isCasted (stateRef Samples.castedOneFrame) = true /\
  rodCtrlRef Samples.castedOneFrame = Some (mkRod false (vec3 0 2 0) 1) /\
  bobberCtrlRef Samples.castedOneFrame
  = Some (mkBobber true
            (set_y (bobbleHeight 16)
                   (lerp (vec3 0 2 0) (castTarget 10) 0.05))).
Proof.
  destruct mounted_refs as (M1 & M2 & M3 & M4 & M5 & M6).
  destruct (cast_refs 10 Samples.mounted) as (C1 & C2 & C3).
  destruct (call_keeps (Cast 10) Samples.mounted) as (K1 & _ & _ & K4 & _).
  cbn zeta in *. cbn [ThreeViewMap.call] in *.
  rewrite M3 in C2, C3. rewrite M4 in C3. cbn [option_map] in C2, C3.
  unfold Samples.castedOneFrame.
  rewrite (animate_alive (K := Samples.stillControllers)).
  2: { exists (mkRenderer true). rewrite K1. split; [exact M1|reflexivity]. }
  destruct (frame_keeps (K := Samples.stillControllers) Samples.atlantisProps
              16 (ThreeViewMap.cast 10 Samples.mounted)) as (_ & F2 & _).
  cbn zeta in F2.
  rewrite F2, frame_rod, frame_bobber, C1, C2, C3, K4.
  destruct (line Samples.mounted) as [l|]; [|now elim M6].
  repeat split.
Qed.

End SampleComponent.

(** One frame after a cast of 10 the bobber has left the rod's tip for the
    target; a second cast of 10 then does not just set the target again,
    it puts the bobber back at the rod's tip. *)
Lemma cast_again_moves_bobber :
  Scene.isCasted (Scene.stateRef Samples.castedOneFrame) = true /\
  ~ SceneSpec.castAgainOnlyRetargets 10 Samples.castedOneFrame.
Proof.
  destruct castedOneFrame_refs as (Hcasted & Hrod & Hbobber).
  split; [exact Hcasted|].
  intros Hspec.
  apply (cast_moves_bobber_to_tip 10 _ _ _ Hrod Hbobber);
    [|exact (Hspec Hcasted)].
  unfold set_y, lerp, SceneSpec.castTarget.
  cbn [Scene.bobberPosition Scene.tipWorld vx vy vz].
  lra.
Qed.

(** Two frames of the sample component with a cast in between. *)
Lemma weather_report_edge_triggered_witness :
  Scene.onWeatherUpdate Samples.atlantisProps = true /\
  Scene.weatherCtrlRef Samples.mounted <> None /\
  SceneSpec.edgeTriggered
    (Scene.lastWeatherReportRef Samples.mounted)
    [Scene.Frame 16; Scene.Call (Scene.Cast 10); Scene.Frame 32]
    (ThreeViewPlain.run (K := Samples.stillControllers) Samples.atlantisProps
       [Scene.Frame 16; Scene.Call (Scene.Cast 10); Scene.Frame 32]
       Samples.mounted).
Proof.
  split; [reflexivity|].
  split; [apply mounted_refs|].
  apply (weather_report_edge_triggered (K := Samples.stillControllers)
           Samples.atlantisProps
           [Scene.Frame 16; Scene.Call (Scene.Cast 10); Scene.Frame 32]
           Samples.mounted).
  - reflexivity.
  - apply mounted_refs.
Defined.

(** A cast of 10 against a cast of 50, each followed by two frames. *)
Lemma bobber_height_depends_on_time_only_witness :
  Scene.bobberCtrlRef Samples.mounted <> None /\
  Scene.line Samples.mounted <> None /\
  Forall2 SceneSpec.sameButDistance
    [Scene.Call (Scene.Cast 10); Scene.Frame 16; Scene.Frame 32]
    [Scene.Call (Scene.Cast 50); Scene.Frame 16; Scene.Frame 32] /\
  SceneSpec.castedFrameHeights
    [Scene.Call (Scene.Cast 10); Scene.Frame 16; Scene.Frame 32]
    (ThreeViewPlain.run (K := Samples.stillControllers) Samples.atlantisProps
       [Scene.Call (Scene.Cast 10); Scene.Frame 16; Scene.Frame 32]
       Samples.mounted)
  = SceneSpec.castedFrameHeights
      [Scene.Call (Scene.Cast 50); Scene.Frame 16; Scene.Frame 32]
      (ThreeViewPlain.run (K := Samples.stillControllers)
         Samples.atlantisProps
         [Scene.Call (Scene.Cast 50); Scene.Frame 16; Scene.Frame 32]
         Samples.mounted).
Proof.
  assert (Hb : Scene.bobberCtrlRef Samples.mounted <> None).
  { destruct mounted_refs as (_ & _ & _ & Hb & _). rewrite Hb. discriminate. }
  assert (Hl : Scene.line Samples.mounted <> None) by apply mounted_refs.
  assert (Hes : Forall2 SceneSpec.sameButDistance
                  [Scene.Call (Scene.Cast 10); Scene.Frame 16; Scene.Frame 32]
                  [Scene.Call (Scene.Cast 50); Scene.Frame 16; Scene.Frame 32])
    by (repeat constructor).
  split; [exact Hb|]. split; [exact Hl|]. split; [exact Hes|].
  apply (bobber_height_depends_on_time_only
           (K := Samples.stillControllers) Samples.atlantisProps _ _
           Samples.mounted Hb Hl Hes).
Defined.

(** * Further properties of the code *)

(** ** Species ids and builders *)

Section SpeciesIds.
Import FishViewerUi.

Variable getPointAt : list Vector3 -> R -> Vector3.

Lemma prefix_app_l (k s t : string) :
  String.prefix k s = true -> String.prefix k (s ++ t) = true.
Proof.
  revert s; induction k as [|a k IH]; intros s.
  - intros _. now destruct (s ++ t).
  - destruct s as [|b s]; cbn; [easy|].
    destruct (Ascii.ascii_dec a b); [apply IH|easy].
Qed.

Lemma includes_app_l (s t k : string) :
  includes s k = true -> includes (s ++ t) k = true.
Proof.
  induction s as [|b s IH]; cbn [includes].
  - destruct k; cbn; [now destruct t|easy].
  - destruct (String.prefix k (String b s)) eqn:Hp.
    + intros _. pose proof (prefix_app_l k (String b s) t Hp) as Hp'.
      cbn [append] in *. cbn [includes]. now rewrite Hp'.
    + intros H. cbn [append]. cbn [includes].
      rewrite (IH H). now destruct (String.prefix k (String b (s ++ t))).
Qed.

Lemma prefix_app_cases (s k : string) (c : ascii) (t : string) :
  String.prefix k (s ++ String c t) = true ->
  String.prefix k s = true \/ mentions c k = true.
Proof.
  revert k; induction s as [|b s IH]; intros [|a k].
  - now left.
  - cbn. destruct (Ascii.ascii_dec a c); [tauto|easy].
  - now left.
  - cbn. destruct (Ascii.ascii_dec a b) as [->|]; [|easy].
    intros H. destruct (IH k H) as [Hp|Hm]; [tauto|].
    right. rewrite Hm. now destruct (Ascii.ascii_dec b c).
Qed.

Lemma includes_app_cases (s k : string) (c : ascii) (t : string) :
  includes (s ++ String c t) k = true ->
  includes s k = true \/ mentions c k = true \/
  includes (String c t) k = true.
Proof.
  induction s as [|b s IH].
  - cbn [append]. tauto.
  - cbn [append]. cbn [includes].
    destruct (String.prefix k (String b (s ++ String c t))) eqn:Hp.
    + intros _.
      destruct (prefix_app_cases (String b s) k c t) as [Hs|Hm];
        [exact Hp| |tauto].
      left. now rewrite Hs.
    + intros H. destruct (IH H) as [Hs|Hrest]; [|tauto].
      left. rewrite Hs. now destruct (String.prefix k (String b s)).
Qed.

(** A suffix that brings no keyword, neither on its own nor across the
    seam, leaves every test of the chain as it was. *)
Lemma includes_suffix (s k : string) (c : ascii) (t : string) :
  mentions c k = false ->
  includes (String c t) k = false ->
  includes (s ++ String c t) k = includes s k.
Proof.
  intros Hm Ht.
  destruct (includes s k) eqn:Hs.
  - now apply includes_app_l.
  - destruct (includes (s ++ String c t) k) eqn:Hst; [|reflexivity].
    destruct (includes_app_cases s k c t Hst) as [H|[H|H]]; congruence.
Qed.

(** X1. A variant id made by appending a suffix that starts with an
    underscore and holds none of the keywords (such as _mutant) gets the
    mesh of the base species: same builder, same parts, same geometry. *)
Theorem variant_suffix_keeps_mesh (fish : FishType) (suffix : string) :
  matchesNoKeyword (String "_" suffix) = true ->
  generateLowPolyFish getPointAt
    (withId (id fish ++ String "_" suffix) fish)
  = generateLowPolyFish getPointAt fish.
Proof.
  unfold matchesNoKeyword, keywords; cbn [forallb].
  rewrite !andb_true_iff, !negb_true_iff.
  intros (H1 & H2 & H3 & H4 & H5 & H6 & H7 & H8 & H9 & _).
  unfold generateLowPolyFish, withId; cbn [id].
  rewrite !includes_suffix by (assumption || reflexivity).
  reflexivity.
Qed.

(** X2. Which parts the animation finds. The mesh of every species but
    the sea dragon has a Tail; the fins FinL and FinR exist exactly for the
    ids that no keyword matches.  So the tail wags on all but dragons and
    the fins flap on generic fish only. *)
Theorem animated_parts_by_species (fish : FishType) :
  let g := generateLowPolyFish getPointAt fish in
  (getObjectByName "Tail" g = None <-> includes (id fish) "dragon" = true) /\
  (getObjectByName "FinL" g <> None <-> matchesNoKeyword (id fish) = true) /\
  (getObjectByName "FinR" g <> None <-> matchesNoKeyword (id fish) = true).
Proof.
  cbn zeta. unfold generateLowPolyFish, matchesNoKeyword, keywords.
  cbn [forallb].
  destruct (includes (id fish) "dragon");
    [cbn; repeat split; intros; try congruence; try easy|].
  destruct (includes (id fish) "cosmic");
    [cbn; repeat split; intros; try congruence; try easy|].
  destruct (includes (id fish) "shark");
    [cbn; repeat split; intros; try congruence; try easy|].
  destruct (includes (id fish) "ancient");
    [cbn; repeat split; intros; try congruence; try easy|].
  destruct (includes (id fish) "dunkle");
    [cbn; repeat split; intros; try congruence; try easy|].
  destruct (includes (id fish) "rare");
    [cbn; repeat split; intros; try congruence; try easy|].
  destruct (includes (id fish) "arowana");
    [cbn; repeat split; intros; try congruence; try easy|].
  destruct (includes (id fish) "legend");
    [cbn; repeat split; intros; try congruence; try easy|].
  destruct (includes (id fish) "coelacanth");
    cbn; repeat split; intros; try congruence; try easy.
Qed.

End SpeciesIds.

Lemma variant_suffix_keeps_mesh_witness :
  matchesNoKeyword "_mutant" = true /\
  generateLowPolyFish Samples.firstPoint
    (FishViewerUi.withId "dragon_mutant" Samples.dragon)
  = generateLowPolyFish Samples.firstPoint Samples.dragon.
Proof.
  split; [reflexivity|].
  exact (variant_suffix_keeps_mesh Samples.firstPoint Samples.dragon "mutant"
                                   eq_refl).
Defined.

(** ** Symmetry of eyes and fins *)

Section Symmetry.
Import FishViewerUi.

Variable getPointAt : list Vector3 -> R -> Vector3.

(** X3. Eyes come in mirrored pairs. The mesh of a species has either no
    eyes or exactly two, which are the same mesh (geometry, material,
    rotation, scale) placed at (x, y, z) and (-x, y, z) with x > 0. *)
Theorem eyes_are_mirrored (fish : FishType) :
  eyes (generateLowPolyFish getPointAt fish) = [] \/
  exists e1 e2,
    eyes (generateLowPolyFish getPointAt fish) = [e1; e2] /\
    content e2 = content e1 /\ rotation e2 = rotation e1 /\
    scale e2 = scale e1 /\ name e2 = name e1 /\
    0 < vx (position e1) /\
    position e2
    = vec3 (- vx (position e1)) (vy (position e1)) (vz (position e1)).
Proof.
  unfold generateLowPolyFish.
  destruct (includes (id fish) "dragon"); [left; reflexivity|].
  destruct (includes (id fish) "cosmic" || includes (id fish) "shark").
  { right. do 2 eexists. split; [reflexivity|].
    repeat split; cbn; try lra. f_equal; lra. }
  destruct (includes (id fish) "ancient" || includes (id fish) "dunkle");
    [left; reflexivity|].
  destruct (includes (id fish) "rare" || includes (id fish) "arowana").
  { right. do 2 eexists. split; [reflexivity|].
    repeat split; cbn; try lra. f_equal; lra. }
  destruct (includes (id fish) "legend" || includes (id fish) "coelacanth");
    [left; reflexivity|].
  right. do 2 eexists. split; [reflexivity|].
  repeat split; cbn; try lra. f_equal; lra.
Qed.

(** X4. The fins of a generic fish mirror each other, as generated and
    after every pass of the animation: FinL and FinR sit at (x, y, z) and
    (-x, y, z) and their rotations about z are opposite; a pass at any
    time leaves FinL's rotation within 0.15 of PI/3. *)
Theorem fins_flap_in_mirror (fish : FishType) (dragging : bool) (time : R) :
  matchesNoKeyword (id fish) = true ->
  let g0 := generateLowPolyFish getPointAt fish in
  let g1 := fishGroup (animate time (mkViewer g0 dragging)) in
  finsMirrored g0 /\ finsMirrored g1 /\
  exists angle,
    partRotationZ "FinL" g1 = Some angle /\
    PI / 3 - 0.15 <= angle <= PI / 3 + 0.15.
Proof.
  intros Hno g0 g1. subst g0 g1.
  rewrite (matchesNoKeyword_generic getPointAt fish Hno).
  pose proof (SIN_bound (time * 10)) as [Hlo Hhi].
  split; [|split].
  - exists [3%nat], [4%nat]. do 2 eexists.
    repeat (split; [reflexivity|]).
    split; [cbn; f_equal; lra|cbn; lra].
  - exists [3%nat], [4%nat]. do 2 eexists.
    destruct dragging; repeat (split; [reflexivity|]);
      (split; [cbn; f_equal; lra|cbn; lra]).
  - exists (PI / 3 + sin (time * 10) * 0.15).
    split; [now destruct dragging|lra].
Qed.

End Symmetry.

Lemma fins_flap_in_mirror_witness :
  matchesNoKeyword (id Samples.salmon) = true /\
  FishViewerUi.finsMirrored
    (generateLowPolyFish Samples.firstPoint Samples.salmon).
Proof.
  split; [reflexivity|].
  apply (fins_flap_in_mirror Samples.firstPoint Samples.salmon false 1
                             eq_refl).
Defined.

(** ** Turning the fish: the loop and the pointer *)

Section Turning.
Import FishViewerUi.

Variable getPointAt : list Vector3 -> R -> Vector3.

Lemma firstHit_deep (look : Object3D -> option Handle) (cs : list Object3D) :
  forall k h, firstHit look k cs = Some h -> exists i h', h = i :: h'.
Proof.
  induction cs as [|c cs IH]; intros k h; cbn; [easy|].
  destruct (look c) as [hc|]; [|apply IH].
  intros [= <-]. now exists k, hc.
Qed.

(** A lookup of a name that the root does not carry lands below it. *)
Lemma getObjectByName_deep (n : string) (o : Object3D) (h : Handle) :
  String.eqb (name o) n = false ->
  getObjectByName n o = Some h -> exists i h', h = i :: h'.
Proof.
  intros Hn. rewrite getObjectByName_unfold, Hn. apply firstHit_deep.
Qed.

Lemma wagTail_root (time : R) (g : Object3D) :
  name g = "" ->
  name (wagTail time g) = "" /\ content (wagTail time g) = content g /\
  position (wagTail time g) = position g /\
  rotation (wagTail time g) = rotation g.
Proof.
  intros Hname. unfold wagTail.
  destruct (getObjectByName "Tail" g) as [h|] eqn:Hh; [|now repeat split].
  destruct (getObjectByName_deep "Tail" g h) as (i & h' & ->);
    [now rewrite Hname|exact Hh|].
  now repeat split.
Qed.

Lemma flapFins_root (time : R) (g : Object3D) :
  name g = "" ->
  name (flapFins time g) = "" /\ content (flapFins time g) = content g /\
  position (flapFins time g) = position g /\
  rotation (flapFins time g) = rotation g.
Proof.
  intros Hname. unfold flapFins.
  destruct (getObjectByName "FinL" g) as [hl|] eqn:Hl; [|now repeat split].
  destruct (getObjectByName "FinR" g) as [hr|] eqn:Hr; [|now repeat split].
  destruct (getObjectByName_deep "FinL" g hl) as (i & hl' & ->);
    [now rewrite Hname|exact Hl|].
  destruct (getObjectByName_deep "FinR" g hr) as (j & hr' & ->);
    [now rewrite Hname|exact Hr|].
  now repeat split.
Qed.

(** The root of the fish after one pass of the loop. *)
Lemma animate_root (time : R) (dragging : bool) (g : Object3D) :
  name g = "" ->
  let g' := fishGroup (animate time (mkViewer g dragging)) in
  name g' = "" /\ content g' = content g /\
  rotation g'
  = (if dragging then rotation g
     else set_y (vy (rotation g) + 0.005) (rotation g)) /\
  position g'
  = (if dragging then position g
     else set_y (sin (time * 1.5) * 0.1) (position g)).
Proof.
  intros Hname. cbn zeta. unfold animate; cbv zeta;
    cbn [fishGroup FishViewer.isDragging].
  assert (Hd : name (drift time dragging g) = "")
    by (now destruct dragging).
  destruct (wagTail_root time _ Hd) as (W1 & W2 & W3 & W4).
  destruct (flapFins_root time _ W1) as (F1 & F2 & F3 & F4).
  rewrite F1, F2, F3, F4, W2, W3, W4.
  now destruct dragging.
Qed.

Lemma generated_root (fish : FishType) :
  name (generateLowPolyFish getPointAt fish) = "" /\
  content (generateLowPolyFish getPointAt fish) = IsGroup /\
  rotation (generateLowPolyFish getPointAt fish) = zero3 /\
  position (generateLowPolyFish getPointAt fish) = zero3.
Proof.
  rewrite generate_is_dispatch. unfold dispatch, dispatchTable.
  cbn [find fst snd].
  repeat match goal with
         | |- context [includes ?s ?k] => destruct (includes s k)
         end; now repeat split.
Qed.

Lemma staged_fishOf (c : Component) (g : Object3D) :
  staged c g -> fishOf c = Some g.
Proof. intros (Hs & _). unfold fishOf. now rewrite Hs. Qed.

Lemma frame_staged (time : R) (c : Component) (g : Object3D) :
  staged c g ->
  staged (frame time c)
         (fishGroup (animate time (mkViewer g (isDragging c)))) /\
  isDragging (frame time c) = isDragging c /\
  previousMousePosition (frame time c) = previousMousePosition c.
Proof.
  intros (Hs & Hn & Hc). unfold staged, frame. rewrite Hs.
  destruct (animate_root time (isDragging c) g Hn) as (A1 & A2 & _).
  cbn zeta in *.
  cbn [sceneRef isDragging previousMousePosition].
  split; [|split; reflexivity].
  split; [reflexivity|]. split; [exact A1|]. now rewrite A2.
Qed.

Lemma move_staged (x y : R) (c : Component) (g : Object3D) :
  staged c g ->
  isDragging c = true ->
  exists g',
    staged (handleMouseMove x y c) g' /\
    isDragging (handleMouseMove x y c) = true /\
    previousMousePosition (handleMouseMove x y c) = (x, y) /\
    position g' = position g /\
    vy (rotation g')
    = vy (rotation g) + (x - fst (previousMousePosition c)) * 0.01 /\
    vx (rotation g')
    = vx (rotation g) + (y - snd (previousMousePosition c)) * 0.01 /\
    vz (rotation g') = vz (rotation g).
Proof.
  intros (Hs & Hn & Hc) Hd. unfold handleMouseMove.
  rewrite Hd, Hs. cbn [negb lights app findGroup]. rewrite Hc.
  eexists. unfold staged.
  cbn [sceneRef isDragging previousMousePosition].
  split; [split; [reflexivity|now split]|].
  split; [reflexivity|]. now repeat split.
Qed.

Lemma mount_staged (fish : FishType) (time : R) :
  staged (mountEffect getPointAt true fish time initialComponent)
         (fishGroup (animate time
                       (mkViewer (generateLowPolyFish getPointAt fish) false))).
Proof.
  destruct (generated_root fish) as (G1 & G2 & _).
  unfold mountEffect; cbn [negb].
  apply (frame_staged time
           (mkComponent (Some (lights ++ [Node _])%list) false (0, 0))).
  now repeat split.
Qed.

Lemma dragTurn_z (gs : list Gesture) :
  forall r p, vz (dragTurn r p gs) = vz r.
Proof.
  induction gs as [|[x y|time] gs IH]; intros r p; cbn [dragTurn];
    [reflexivity| |apply IH].
  cbv zeta. now rewrite IH.
Qed.

Lemma dragTurn_ticks (gs : list Gesture) :
  forallb isTick gs = true -> forall r p, dragTurn r p gs = r.
Proof.
  induction gs as [|[x y|time] gs IH]; cbn [forallb isTick dragTurn];
    [reflexivity|discriminate|].
  intros Hgs r p. now apply IH.
Qed.

(** During a drag the fish follows the pointer and nothing else. *)
Lemma drag_invariant (gs : list Gesture) :
  forall c g,
    staged c g -> isDragging c = true ->
    exists g',
      staged (gestures gs c) g' /\
      position g' = position g /\
      rotation g' = dragTurn (rotation g) (previousMousePosition c) gs /\
      previousMousePosition (gestures gs c)
      = lastPointer (previousMousePosition c) gs.
Proof.
  induction gs as [|[x y|time] gs IH]; intros c g Hst Hd.
  - exists g. unfold gestures, lastPointer; cbn [fold_left dragTurn].
    split; [exact Hst|]. now repeat split.
  - destruct (move_staged x y c g Hst Hd)
      as (g1 & S1 & D1 & P1 & M1 & M2 & M3 & M4).
    destruct (IH _ _ S1 D1) as (g' & S' & I1 & I2 & I3).
    exists g'.
    change (gestures (Move x y :: gs) c)
      with (gestures gs (handleMouseMove x y c)).
    change (lastPointer (previousMousePosition c) (Move x y :: gs))
      with (lastPointer (x, y) gs).
    split; [exact S'|]. split; [congruence|].
    split; [|now rewrite I3, P1].
    rewrite I2, P1. cbn [dragTurn]. cbv zeta. f_equal.
    destruct (rotation g1) as [rx ry rz]. cbn [vx vy vz set_x set_y] in *.
    now subst.
  - destruct (frame_staged time c g Hst) as (S1 & D1 & P1).
    destruct Hst as (_ & Hn & _).
    destruct (animate_root time (isDragging c) g Hn) as (_ & _ & A3 & A4).
    cbn zeta in *. rewrite Hd in *.
    destruct (IH _ _ S1 D1) as (g' & S' & I1 & I2 & I3).
    exists g'. rewrite P1 in *. rewrite A3, A4 in *.
    change (gestures (Tick time :: gs) c) with (gestures gs (frame time c)).
    change (lastPointer (previousMousePosition c) (Tick time :: gs))
      with (lastPointer (previousMousePosition c) gs).
    split; [exact S'|]. now repeat split.
Qed.

(** X5. A drag turns the fish by the moves of the pointer and by nothing
    else. From pointer-down at (x0, y0) on, through any sequence of
    pointer moves and passes of the animation loop, the fish stays where
    it was and its rotation is what the moves add up to: each move adds
    0.01 times its displacement in x to the rotation about y and 0.01
    times its displacement in y to the rotation about x, in the order of
    the moves.  The passes of the loop in between add nothing: the loop
    neither spins nor bobs a fish that is being dragged, the rotation
    about z never changes, and without a move the rotation is what it
    was.  The component remembers the position of the last move. *)
Theorem drag_turns_fish_by_moves_alone
        (fish : FishType) (time : R) (x0 y0 : R) (gs : list Gesture) :
  let c0 := mountEffect getPointAt true fish time initialComponent in
  let c1 := gestures gs (handleMouseDown x0 y0 c0) in
  exists g0 g1,
    fishOf c0 = Some g0 /\ fishOf c1 = Some g1 /\
    position g1 = position g0 /\
    rotation g1 = dragTurn (rotation g0) (x0, y0) gs /\
    vz (rotation g1) = vz (rotation g0) /\
    (forallb isTick gs = true -> rotation g1 = rotation g0) /\
    previousMousePosition c1 = lastPointer (x0, y0) gs.
Proof.
  cbn zeta.
  pose proof (mount_staged fish time) as Hst.
  set (c0 := mountEffect getPointAt true fish time initialComponent) in *.
  set (g0 := fishGroup (animate time _)) in *.
  assert (Hdown : staged (handleMouseDown x0 y0 c0) g0)
    by (destruct Hst as (H1 & H2 & H3); now repeat split).
  destruct (drag_invariant gs _ _ Hdown eq_refl)
    as (g1 & S1 & I1 & I2 & I3).
  exists g0, g1. cbn [handleMouseDown previousMousePosition] in *.
  split; [now apply staged_fishOf|]. split; [now apply staged_fishOf|].
  split; [exact I1|]. split; [exact I2|].
  split; [rewrite I2; apply dragTurn_z|].
  split; [|exact I3].
  intros Hticks. rewrite I2. now apply dragTurn_ticks.
Qed.

Lemma spin_invariant (times : list R) :
  forall c g,
    staged c g -> isDragging c = false ->
    -0.1 <= vy (position g) <= 0.1 ->
    exists g',
      staged (fold_left (fun c t => frame t c) times c) g' /\
      vy (rotation g')
      = Nat.iter (List.length times) (fun r => r + 0.005) (vy (rotation g)) /\
      vx (rotation g') = vx (rotation g) /\
      vz (rotation g') = vz (rotation g) /\
      vx (position g') = vx (position g) /\
      vz (position g') = vz (position g) /\
      -0.1 <= vy (position g') <= 0.1.
Proof.
  induction times as [|t times IH]; intros c g Hst Hd Hy.
  - exists g. cbn [fold_left List.length Nat.iter nat_rect].
    split; [exact Hst|]. repeat split; try reflexivity; lra.
  - destruct (frame_staged t c g Hst) as (S1 & D1 & _).
    destruct Hst as (_ & Hn & _).
    destruct (animate_root t (isDragging c) g Hn) as (_ & _ & A3 & A4).
    cbn zeta in *. rewrite Hd in *.
    pose proof (SIN_bound (t * 1.5)) as Hsin.
    destruct (IH _ _ S1 D1) as (g' & S' & I1 & I2 & I3 & I4 & I5 & I6).
    { rewrite A4. cbn [vy set_y]. lra. }
    exists g'. cbn [fold_left]. rewrite A3, A4 in *.
    cbn [vx vy vz set_y] in *.
    change (List.length (t :: times)) with (S (List.length times)).
    split; [exact S'|].
    split; [rewrite I1, Nat.iter_succ_r; reflexivity|].
    repeat split; lra.
Qed.

(** X6. Left alone, the fish turns by a fixed step per frame. After the
    mount and n further passes of the loop, with no drag, the fish's
    rotation about y is 0.005 added n + 1 times to 0, its rotations about
    x and z are still 0, and it floats within 0.1 of height 0 without
    leaving the y axis. *)
Theorem idle_fish_spins (fish : FishType) (time : R) (times : list R) :
  let c0 := mountEffect getPointAt true fish time initialComponent in
  let c1 := fold_left (fun c t => frame t c) times c0 in
  exists g1,
    fishOf c1 = Some g1 /\
    rotation g1 = vec3 0 (spin (S (List.length times))) 0 /\
    vx (position g1) = 0 /\ vz (position g1) = 0 /\
    -0.1 <= vy (position g1) <= 0.1.
Proof.
  cbn zeta.
  pose proof (mount_staged fish time) as Hst.
  destruct (generated_root fish) as (G1 & _ & G3 & G4).
  destruct (animate_root time false _ G1) as (_ & _ & A3 & A4).
  cbn zeta in *.
  pose proof (SIN_bound (time * 1.5)) as Hsin.
  set (c0 := mountEffect getPointAt true fish time initialComponent) in *.
  set (g0 := fishGroup (animate time _)) in *.
  assert (Hd : isDragging c0 = false) by reflexivity.
  destruct (spin_invariant times c0 g0 Hst Hd)
    as (g1 & S1 & I1 & I2 & I3 & I4 & I5 & I6).
  { rewrite A4. cbn [vy set_y]. lra. }
  exists g1. rewrite A3, A4, G3, G4 in *. cbn [vx vy vz set_y zero3] in *.
  split; [now apply staged_fishOf|].
  split.
  { destruct (rotation g1) as [rx ry rz]. cbn [vx vy vz] in *.
    unfold spin. rewrite Nat.iter_succ_r. now subst. }
  repeat split; lra.
Qed.

(** X7. The rarity label never drops as the difficulty grows: a higher
    difficulty gives the same or a higher label in the order COMMON, RARE,
    LEGENDARY, MYTHICAL, and the label is COMMON exactly up to
    difficulty 3 and MYTHICAL exactly above 8. *)
Theorem rarity_is_monotone (d1 d2 : R) :
  d1 <= d2 ->
  (rarityRank (rarityLabel d1) <= rarityRank (rarityLabel d2))%nat /\
  (rarityLabel d1 = "COMMON" <-> d1 <= 3) /\
  (rarityLabel d1 = "MYTHICAL" <-> 8 < d1).
Proof.
  intros Hle. unfold rarityLabel.
  destruct (Rgt_dec d1 8), (Rgt_dec d1 6), (Rgt_dec d1 3),
    (Rgt_dec d2 8), (Rgt_dec d2 6), (Rgt_dec d2 3);
    cbn; repeat split; intros; try lia; try lra; try easy.
Qed.

End Turning.

Lemma rarity_is_monotone_witness :
  3 <= 7 /\
  (FishViewerUi.rarityRank (FishViewerUi.rarityLabel 3)
   <= FishViewerUi.rarityRank (FishViewerUi.rarityLabel 7))%nat.
Proof.
  split; [lra|].
  apply (rarity_is_monotone 3 7). lra.
Defined.

(** ** The sand floor and the kelp *)

Section SandAndKelp.
Import SeabedController SeabedBuild.

Lemma PlaneGeometry_length (width height : R) (ws hs : nat) :
  List.length (PlaneGeometry width height ws hs) = ((hs + 1) * (ws + 1))%nat.
Proof.
  unfold PlaneGeometry.
  rewrite flat_map_constant_length with (c := (ws + 1)%nat).
  - now rewrite length_seq.
  - intros iy _. now rewrite length_map, length_seq.
Qed.

Lemma terrainHeight_bound (x y : R) : -4 <= terrainHeight x y <= 4.
Proof.
  unfold terrainHeight.
  pose proof (SIN_bound (x * 0.05)). pose proof (COS_bound (y * 0.05)). lra.
Qed.

(** The height as the position attribute holds it. *)
Lemma storedHeight_bound (x y : R) :
  -4 <= Float32.fround (terrainHeight x y) <= 4.
Proof.
  apply Rabs_le_inv. rewrite <- (Rabs_pos_eq 4) by lra.
  apply fround_bounded.
  - apply (fround_IZR 4). reflexivity.
  - rewrite (Rabs_pos_eq 4) by lra. apply Rabs_le.
    apply terrainHeight_bound.
Qed.

(** X8. The sand floor stays well under water. The loop over the 33 by
    33 vertices of the plane changes only their heights, to values within
    [-4, 4]; with the mesh laid flat and lowered by 25, every vertex of the
    floor lies between 29 and 21 below the water surface y = 0, and its
    place on the ground is the plane's own grid point. *)
Theorem terrain_stays_under_water :
  List.length (terrainVertices initSeabed) = 1089%nat /\
  List.map (fun v => (vx v, vy v)) (terrainVertices initSeabed)
  = List.map (fun v => (vx v, vy v)) (PlaneGeometry 2000 2000 32 32) /\
  (forall v, In v (terrainVertices initSeabed) -> -4 <= vz v <= 4) /\
  (forall w, In w (terrainWorld initSeabed) -> -29 <= vy w <= -21).
Proof.
  unfold terrainWorld, initSeabed;
    cbn [terrainVertices terrainRotation terrainPosition vx].
  split; [now rewrite length_map, PlaneGeometry_length|].
  split; [rewrite List.map_map; reflexivity|].
  split.
  - intros v Hin. apply in_map_iff in Hin. destruct Hin as (u & <- & _).
    apply storedHeight_bound.
  - intros w Hin. apply in_map_iff in Hin. destruct Hin as (v & <- & Hv).
    apply in_map_iff in Hv. destruct Hv as (u & <- & _).
    unfold toWorld, displace; cbn [vx vy vz].
    replace (- PI / 2) with (- (PI / 2)) by lra.
    rewrite cos_neg, sin_neg, cos_PI2, sin_PI2.
    pose proof (storedHeight_bound (vx u) (vy u)). lra.
Qed.

(** A point of the unit circle, stored in single precision, stays within
    2^-21 of it. *)
Lemma stored_on_circle (c s : R) :
  c * c + s * s = 1 ->
  Rabs (Float32.fround c * Float32.fround c
        + Float32.fround s * Float32.fround s - 1) <= / 2 ^ 21.
Proof.
  intros Hcs.
  pose proof minNormal_le_1 as Hmin.
  assert (Hc : -1 <= c <= 1) by nra.
  assert (Hs : -1 <= s <= 1) by nra.
  assert (Ec : Rabs (Float32.fround c - c) <= / 2 ^ 24).
  { pose proof (fround_error c) as He.
    assert (Rmax (Rabs c) Float32.minNormal <= 1)
      by (apply Rmax_lub; [apply Rabs_le; lra|lra]).
    lra. }
  assert (Es : Rabs (Float32.fround s - s) <= / 2 ^ 24).
  { pose proof (fround_error s) as He.
    assert (Rmax (Rabs s) Float32.minNormal <= 1)
      by (apply Rmax_lub; [apply Rabs_le; lra|lra]).
    lra. }
  apply Rabs_le_inv in Ec. apply Rabs_le_inv in Es.
  set (ec := Float32.fround c - c) in *.
  set (es := Float32.fround s - s) in *.
  replace (Float32.fround c) with (c + ec) by (unfold ec; ring).
  replace (Float32.fround s) with (s + es) by (unfold es; ring).
  replace ((c + ec) * (c + ec) + (s + es) * (s + es) - 1)
    with (2 * (c * ec) + ec * ec + 2 * (s * es) + es * es) by nra.
  assert (P1 : - / 2 ^ 24 <= c * ec <= / 2 ^ 24) by nra.
  assert (P2 : - / 2 ^ 24 <= s * es <= / 2 ^ 24) by nra.
  assert (P3 : 0 <= ec * ec <= / 2 ^ 24) by nra.
  assert (P4 : 0 <= es * es <= / 2 ^ 24) by nra.
  apply Rabs_le. lra.
Qed.

(** X9. The twist keeps the kelp strip as wide as it was, up to single
    precision. For a stalk of a height that the vegetation step can give
    it, the twisted strip has the ten vertices of the plane, and every one
    of them is at distance 1 from the growth axis (the strip is 2 wide):
    the square of its distance is within 2^-21 of 1. *)
Theorem kelp_twist_keeps_width (height : R) :
  10 <= height <= 25 ->
  List.length (kelpGeometry height) = 10%nat /\
  (forall w, In w (kelpGeometry height) ->
     Rabs (vx w * vx w + vz w * vz w - 1) <= / 2 ^ 21).
Proof.
  intros Hh.
  split; [unfold kelpGeometry; now rewrite length_map, PlaneGeometry_length|].
  intros w Hin. unfold kelpGeometry in Hin.
  apply in_map_iff in Hin. destruct Hin as (v & <- & Hv).
  apply In_nth_error in Hv. destruct Hv as (i & Hv).
  destruct (kelp_strip_rows height i v Hv) as (y0 & _ & _ & Hx & Hz).
  unfold twist, Float32.store; cbn [vx vy vz]. rewrite Hz.
  pose proof (sin2_cos2 (vy v / height * PI)) as Hsc. unfold Rsqr in Hsc.
  destruct Hx as [-> | ->].
  - replace (-1 * cos (vy v / height * PI) - 0 * sin (vy v / height * PI))
      with (- cos (vy v / height * PI)) by ring.
    replace (-1 * sin (vy v / height * PI) + 0 * cos (vy v / height * PI))
      with (- sin (vy v / height * PI)) by ring.
    apply stored_on_circle. lra.
  - replace (1 * cos (vy v / height * PI) - 0 * sin (vy v / height * PI))
      with (cos (vy v / height * PI)) by ring.
    replace (1 * sin (vy v / height * PI) + 0 * cos (vy v / height * PI))
      with (sin (vy v / height * PI)) by ring.
    apply stored_on_circle. lra.
Qed.


End SandAndKelp.

Lemma kelp_twist_keeps_width_witness :
  10 <= 10 <= 25 /\
  List.length (SeabedController.kelpGeometry 10) = 10%nat.
Proof.
  split; [lra|].
  apply (kelp_twist_keeps_width 10). lra.
Defined.


(** ** The ruins *)

Section RuinsFacts.
Import SeabedController SeabedBuild.

Variable random : nat -> R.

(** A small angle barely lowers the cosine. *)
Lemma cos_small (x : R) : -1 <= x <= 1 -> 1 - x * x / 2 <= cos x <= 1.
Proof.
  intros Hx. split; [|apply COS_bound].
  replace x with (2 * (x / 2)) at 3 by lra.
  rewrite cos_2a_sin.
  assert (Hs : sin (x / 2) * sin (x / 2) <= x / 2 * (x / 2)).
  { destruct (Rtotal_order (x / 2) 0) as [Hneg|[Hzero|Hpos]].
    - pose proof (sin_lt_x (- (x / 2)) ltac:(lra)) as H1.
      pose proof (sin_pos_tech (- (x / 2)) ltac:(lra)) as H2.
      rewrite sin_neg in H1, H2. nra.
    - rewrite Hzero, sin_0. lra.
    - pose proof (sin_lt_x (x / 2) Hpos) as H1.
      pose proof (sin_pos_tech (x / 2) ltac:(lra)) as H2. nra. }
  lra.
Qed.

(** What one pass of the pillar loop builds, whatever it draws. *)
Lemma pillarStep_shape (i k : nat) :
  let '(p, cs, k') := pillarStep random i k in
  pillarPosition p
  = vec3 (cos (INR i / 12 * PI * 2) * 60) (-25)
         (sin (INR i / 12 * PI * 2) * 60 - 20) /\
  (isTall p = true ->
   columnHeight p = 35 /\ columnRotation p = zero3 /\ capY p = Some 36 /\
   columnTop p = 11 /\ k' = (k + 2)%nat) /\
  (isTall p = false ->
   columnHeight p = 15 /\ capY p = None /\ crystalY p = None /\
   columnTop p
   = -16.5 + 7.5 * (cos (vx (columnRotation p))
                    * cos (vz (columnRotation p))) /\
   k' = (k + 3)%nat /\
   columnRotation p
   = vec3 ((random (k + 2)%nat - 0.5) * 0.2) 0
          ((random (k + 1)%nat - 0.5) * 0.2)) /\
  (cs = [] /\ crystalY p = None \/
   cs = [mkCrystal (vec3 0 38 0) one3 0] /\ crystalY p = Some 38 /\
   isTall p = true).
Proof.
  unfold pillarStep. cbv zeta.
  replace (k + 1)%nat with (S k) by lia.
  replace (k + 2)%nat with (S (S k)) by lia.
  replace (k + 3)%nat with (S (S (S k))) by lia.
  destruct (Rgt_dec (random k) 0.5);
    [destruct (Rgt_dec (random (S k)) 0.3)|];
    unfold columnTop; cbn [pillarPosition isTall columnHeight columnPosition
                           columnRotation capY crystalY vx vy vz].
  - split; [reflexivity|]. split.
    + intros _. split; [reflexivity|]. split; [reflexivity|].
      split; [f_equal; lra|].
      split; [unfold zero3; cbn [vx vz]; rewrite cos_0; lra|reflexivity].
    + split; [discriminate|]. right.
      split; [do 3 f_equal; lra|]. split; [f_equal; lra|reflexivity].
  - split; [reflexivity|]. split.
    + intros _. split; [reflexivity|]. split; [reflexivity|].
      split; [f_equal; lra|].
      split; [unfold zero3; cbn [vx vz]; rewrite cos_0; lra|reflexivity].
    + split; [discriminate|]. left. now split.
  - split; [reflexivity|]. split; [discriminate|]. split.
    + intros _. split; [reflexivity|]. split; [reflexivity|].
      split; [reflexivity|]. split; [lra|]. split; reflexivity.
    + left. now split.
Qed.

(** The pillar loop: one pillar per pass, in order; the crystals are
    those of the ornamented pillars; each tall pillar costs two draws and
    each broken one three. *)
Lemma pillarLoop_spec (n : nat) :
  forall i k,
    let '(ps, cs, k') := pillarLoop random n i k in
    List.length ps = n /\
    (forall j p, nth_error ps j = Some p ->
                 exists kj, p = fst (fst (pillarStep random (i + j) kj)) /\
                            (k <= kj)%nat) /\
    List.length cs
    = List.length (filter (fun p => match crystalY p with
                                    | Some _ => true
                                    | None => false
                                    end) ps) /\
    (forall c, In c cs -> c = mkCrystal (vec3 0 38 0) one3 0) /\
    (k' = k + 2 * List.length (filter isTall ps)
          + 3 * List.length (filter (fun p => negb (isTall p)) ps))%nat.
Proof.
  induction n as [|n IH]; intros i k; cbn [pillarLoop].
  - split; [reflexivity|]. split; [intros [|j] p; discriminate|].
    split; [reflexivity|]. split; [intros c []|cbn; lia].
  - pose proof (pillarStep_shape i k) as Hstep.
    destruct (pillarStep random i k) as [[p c] k1] eqn:Hp.
    specialize (IH (S i) k1).
    destruct (pillarLoop random n (S i) k1) as [[ps cs] k2].
    destruct Hstep as (_ & Htall & Hbroken & Hcrystal).
    destruct IH as (IH1 & IH2 & IH3 & IH4 & IH5).
    assert (Hk1 : (k <= k1)%nat).
    { destruct (isTall p); [destruct Htall as (_ & _ & _ & _ & ->)
                           |destruct Hbroken as (_ & _ & _ & _ & -> & _)];
        trivial; lia. }
    split; [cbn; now rewrite IH1|]. split.
    { intros [|j] q Hq; cbn in Hq.
      - injection Hq as <-. exists k. rewrite Nat.add_0_r, Hp. now split.
      - destruct (IH2 j q Hq) as (kj & -> & Hkj).
        exists kj. replace (i + S j)%nat with (S i + j)%nat by lia.
        split; [reflexivity|lia]. }
    split.
    { rewrite length_app, IH3. cbn [filter].
      destruct Hcrystal as [(-> & ->)|(-> & -> & _)]; reflexivity. }
    split.
    { intros c0 Hc0. apply in_app_or in Hc0. destruct Hc0 as [Hc0|Hc0].
      - destruct Hcrystal as [(-> & _)|(-> & _)]; [destruct Hc0|].
        destruct Hc0 as [<-|[]]. reflexivity.
      - now apply IH4. }
    cbn [filter]. destruct (isTall p) eqn:Ht; cbn [negb List.length].
    + destruct Htall as (_ & _ & _ & _ & ->); [reflexivity|]. lia.
    + destruct Hbroken as (_ & _ & _ & _ & -> & _); [reflexivity|]. lia.
Qed.

(** X11. The ring of pillars. The ruins have twelve pillars; pillar j
    stands on the floor (y = -25) at angle j/12 of a turn on the circle of
    radius 60 about (0, -20): the square of its distance from that centre
    is 3600, to within a millionth.  A tall pillar has an upright column
    of height 35 whose top is 11 above the water surface and carries a
    capital; a broken pillar has a column of height 15 with no capital and
    no crystal that, when the draws lie in [0, 1), is tilted by at most
    0.1 rad about x and about z, which leaves the centre of its top
    between 9.08 and 9 below the surface.  Only tall pillars carry a
    crystal. *)
Theorem pillars_stand_in_a_ring (k : nat) (j : nat) (p : Pillar) :
  unitDraws random ->
  nth_error (pillars (fst (fst (initRuins random k)))) j = Some p ->
  (j < 12)%nat /\
  List.length (pillars (fst (fst (initRuins random k)))) = 12%nat /\
  pillarPosition p
  = vec3 (cos (INR j / 12 * PI * 2) * 60) (-25)
         (sin (INR j / 12 * PI * 2) * 60 - 20) /\
  Rabs (vx (pillarPosition p) * vx (pillarPosition p)
        + (vz (pillarPosition p) + 20) * (vz (pillarPosition p) + 20)
        - 60 * 60) <= / 1000000 /\
  (isTall p = true ->
   columnHeight p = 35 /\ columnTop p = 11 /\ capY p = Some 36 /\
   columnRotation p = zero3) /\
  (isTall p = false ->
   columnHeight p = 15 /\ -9.08 <= columnTop p <= -9 /\ capY p = None /\
   crystalY p = None /\
   -0.1 <= vx (columnRotation p) <= 0.1 /\
   -0.1 <= vz (columnRotation p) <= 0.1 /\ vy (columnRotation p) = 0) /\
  (crystalY p <> None -> isTall p = true /\ crystalY p = Some 38).
Proof.
  intros Hunit Hnth. unfold initRuins in *.
  pose proof (pillarLoop_spec 12 0 k) as Hloop.
  destruct (pillarLoop random 12 0 k) as [[ps cs] k1].
  destruct (archStep random k1) as [a k2].
  cbn [fst pillars] in *.
  destruct Hloop as (Hlen & Hnthspec & _).
  assert (Hj : (j < 12)%nat).
  { rewrite <- Hlen. apply nth_error_Some. now rewrite Hnth. }
  destruct (Hnthspec j p Hnth) as (kj & -> & _).
  pose proof (pillarStep_shape j kj) as Hshape. cbn [Nat.add] in *.
  destruct (pillarStep random j kj) as [[q c] k'].
  cbn [fst]. destruct Hshape as (Hpos & Htall & Hbroken & Hcrystal).
  split; [exact Hj|]. split; [exact Hlen|]. split; [exact Hpos|].
  split.
  { rewrite Hpos; cbn [vx vz].
    pose proof (sin2_cos2 (INR j / 12 * PI * 2)) as Hsc. unfold Rsqr in Hsc.
    set (cj := cos (INR j / 12 * PI * 2)) in *.
    set (sj := sin (INR j / 12 * PI * 2)) in *.
    replace (cj * 60 * (cj * 60) + (sj * 60 - 20 + 20) * (sj * 60 - 20 + 20)
             - 60 * 60)
      with (60 * 60 * (sj * sj + cj * cj) - 60 * 60) by ring.
    rewrite Hsc. apply Rabs_le. lra. }
  split.
  { intros Ht. destruct (Htall Ht) as (H1 & H2 & H3 & H4 & _).
    now repeat split. }
  split.
  { intros Ht. destruct (Hbroken Ht) as (H1 & H2 & H3 & H4 & _ & H6).
    rewrite H4, H6; cbn [vx vy vz].
    pose proof (Hunit (kj + 1)%nat). pose proof (Hunit (kj + 2)%nat).
    pose proof (cos_small ((random (kj + 2)%nat - 0.5) * 0.2)
                          ltac:(lra)) as Cx.
    pose proof (cos_small ((random (kj + 1)%nat - 0.5) * 0.2)
                          ltac:(lra)) as Cz.
    set (cx := cos ((random (kj + 2)%nat - 0.5) * 0.2)) in *.
    set (cz := cos ((random (kj + 1)%nat - 0.5) * 0.2)) in *.
    assert (Hx : 0.995 <= cx <= 1) by nra.
    assert (Hz : 0.995 <= cz <= 1) by nra.
    assert (Hlo : 0.99 <= cx * cz <= 1) by nra.
    repeat split; try assumption; lra. }
  intros Hc. destruct Hcrystal as [(_ & Hnone)|(_ & Hsome & Ht)];
    [now elim Hc|now split].
Qed.

(** X12. The crystals. The controller animates one crystal per
    ornamented pillar, in pillar order, and the giant crystal of the arch
    last: at least 1 and at most 13.  Each pillar crystal sits 38 above
    its pillar's foot, which is 13 above the water surface, and the giant
    one 5 above it; all start at scale 1.  The ruins use between 84 and
    96 draws. *)
Theorem crystals_glow_above_water (k : nat) :
  let '(r, cs, k') := initRuins random k in
  List.length cs
  = S (List.length (filter (fun p => match crystalY p with
                                     | Some _ => true
                                     | None => false
                                     end) (pillars r))) /\
  (1 <= List.length cs <= 13)%nat /\
  last cs giantCrystal = giantCrystal /\
  (forall c, In c cs ->
     crystalScale c = one3 /\ crystalRotationY c = 0 /\
     (c = giantCrystal /\ vy (archPosition (arch r)) + vy (crystalPosition c) = 5
      \/ -25 + vy (crystalPosition c) = 13)) /\
  (k + 84 <= k' <= k + 96)%nat.
Proof.
  unfold initRuins.
  pose proof (pillarLoop_spec 12 0 k) as Hloop.
  destruct (pillarLoop random 12 0 k) as [[ps cs] k1].
  unfold archStep. cbn [pillars arch archPosition].
  destruct Hloop as (Hlen & _ & Hcs & Hall & Hk).
  pose proof (filter_length_le (fun p => match crystalY p with
                                         | Some _ => true
                                         | None => false
                                         end) ps) as Hle.
  pose proof (filter_length isTall ps) as Hsum.
  split; [rewrite length_app, Hcs; cbn; lia|].
  split; [rewrite length_app, Hcs; cbn; lia|].
  split; [now rewrite last_last|].
  split.
  - intros c Hc. apply in_app_or in Hc. destruct Hc as [Hc|[<-|[]]].
    + rewrite (Hall c Hc). cbn. repeat split. right. lra.
    + cbn. repeat split. left. split; [reflexivity|lra].
  - rewrite Hlen in Hsum. lia.
Qed.

End RuinsFacts.

Lemma pillars_stand_in_a_ring_witness :
  SeabedBuild.unitDraws (fun _ => 1 / 2) /\
  exists p,
    nth_error (SeabedBuild.pillars
                 (fst (fst (SeabedBuild.initRuins (fun _ => 1 / 2) 0)))) 3
    = Some p /\
    SeabedBuild.pillarPosition p
    = vec3 (cos (INR 3 / 12 * PI * 2) * 60) (-25)
           (sin (INR 3 / 12 * PI * 2) * 60 - 20).
Proof.
  assert (Hunit : SeabedBuild.unitDraws (fun _ => 1 / 2))
    by (intros k; lra).
  split; [exact Hunit|].
  destruct (nth_error (SeabedBuild.pillars
                         (fst (fst (SeabedBuild.initRuins (fun _ => 1 / 2) 0))))
                      3) as [p|] eqn:Hp.
  - exists p. split; [reflexivity|].
    apply (pillars_stand_in_a_ring (fun _ => 1 / 2) 0 3 p Hunit Hp).
  - exfalso. apply nth_error_None in Hp.
    pose proof (pillarLoop_spec (fun _ => 1 / 2) 12 0 0) as Hloop.
    unfold SeabedBuild.initRuins in Hp.
    destruct (SeabedBuild.pillarLoop (fun _ => 1 / 2) 12 0 0) as [[ps cs] k1].
    cbn in Hp. destruct Hloop as (Hlen & _). lia.
Defined.

(** ** The seabed's animation *)

Section SeabedAnimation.
Import SeabedController SeabedBuild.

(** Mapping over a list with its indices, twice. *)
Lemma map_indexed_twice {A : Type} (f g h : nat * A -> A) :
  (forall i x, g (i, f (i, x)) = h (i, x)) ->
  forall (l : list A) (a : nat),
    List.map g
      (combine (seq a (List.length
                         (List.map f (combine (seq a (List.length l)) l))))
               (List.map f (combine (seq a (List.length l)) l)))
    = List.map h (combine (seq a (List.length l)) l).
Proof.
  intros Hgf l; induction l as [|x l IH]; intros a; [reflexivity|].
  cbn. f_equal; [apply Hgf|apply IH].
Qed.

Lemma map_indexed_length {A : Type} (f : nat * A -> A) (l : list A) :
  List.length (List.map f (combine (seq 0 (List.length l)) l))
  = List.length l.
Proof. rewrite length_map, length_combine, length_seq. lia. Qed.

Lemma map_indexed_In {A : Type} (f : nat * A -> A) (l : list A) (y : A) :
  In y (List.map f (combine (seq 0 (List.length l)) l)) ->
  exists i x, In x l /\ y = f (i, x).
Proof.
  intros Hin. apply in_map_iff in Hin. destruct Hin as ([i x] & <- & Hix).
  exists i, x. split; [|reflexivity]. now apply in_combine_r in Hix.
Qed.

(** X13. The seabed's animation is a function of the current time
    alone. Animating at one time and then at another gives what
    animating at the second time alone gives, so nothing accumulates
    from frame to frame.  A pass leaves the sand floor, the ruins, the
    visibility flag, the number of crystals and of stalks alone; after it
    every crystal has one scale on all three axes, within [0.9, 1.1], and
    rotation time/2 about y, and every stalk keeps its vertices, place and
    phase and leans by at most 0.1 rad about x and about z. *)
Theorem seabed_animation_is_stateless (time1 time2 : R) (b : Seabed) :
  animate time2 (animate time1 b) = animate time2 b /\
  terrain (animate time2 b) = terrain b /\
  ruins (animate time2 b) = ruins b /\
  visible (core (animate time2 b)) = visible (core b) /\
  List.length (crystals (animate time2 b)) = List.length (crystals b) /\
  List.length (kelp (core (animate time2 b))) = List.length (kelp (core b)) /\
  (forall c, In c (crystals (animate time2 b)) ->
     exists s, crystalScale c = vec3 s s s /\ 0.9 <= s <= 1.1 /\
               crystalRotationY c = time2 * 0.5) /\
  (forall k, In k (kelp (core (animate time2 b))) ->
     (exists k0, In k0 (kelp (core b)) /\
                 vertices k = vertices k0 /\
                 kelp_position k = kelp_position k0 /\ phase k = phase k0) /\
     -0.1 <= vx (kelp_rotation k) <= 0.1 /\
     -0.1 <= vz (kelp_rotation k) <= 0.1).
Proof.
  destruct b as [t r cs [v ks]].
  unfold animate, pulseCrystals, swayKelp;
    cbn [terrain ruins crystals core visible kelp].
  split.
  { f_equal.
    - apply map_indexed_twice. now intros i [p sc ry].
    - f_equal. apply map_indexed_twice. intros i [vs p rot ph].
      cbn [vertices kelp_position kelp_rotation phase].
      f_equal. }
  split; [reflexivity|]. split; [reflexivity|]. split; [reflexivity|].
  split; [apply map_indexed_length|]. split; [apply map_indexed_length|].
  split.
  - intros c Hc. apply map_indexed_In in Hc. destruct Hc as (i & x & _ & ->).
    exists (1.0 + sin (time2 * 2 + INR i) * 0.1).
    pose proof (SIN_bound (time2 * 2 + INR i)).
    cbn. repeat split; lra.
  - intros k Hk. apply map_indexed_In in Hk. destruct Hk as (i & x & Hx & ->).
    cbn [vertices kelp_position kelp_rotation phase vx vz set_x set_z].
    pose proof (SIN_bound (time2 + phase x)).
    pose proof (COS_bound (time2 * 0.8 + INR i)).
    split; [exists x; now repeat split|]. split; lra.
Qed.

End SeabedAnimation.

(** ** The command API, seen from outside *)

Section SeenFromOutside.
Import Scene SceneSpec Lifecycle.

Lemma observe_call (c : Command) (s : State) :
  observe (ThreeViewMap.call c s) = seenAfter c (observe s).
Proof. now destruct c, s as [? ? [rod|] [bobber|] ? ? ? ? ? ?]. Qed.

(** X14. What the client sees is closed under the commands. After any
    sequence of cast, reset and setReeling calls, in either version, the
    observation (isCasted, target, bobber visibility, reeling flag) is
    obtained from the observation before it by the calls alone: cast sets
    isCasted, the target for its distance and shows the bobber, reset
    clears isCasted, hides the bobber and stops reeling, setReeling sets
    the reeling flag only; a flag of a controller that does not exist stays
    absent. *)
Theorem commands_act_on_observation (cs : list Command) (s : State) :
  observe (ThreeViewMap.calls cs s)
  = fold_left (fun o c => seenAfter c o) cs (observe s) /\
  observe (ThreeViewPlain.calls cs s)
  = fold_left (fun o c => seenAfter c o) cs (observe s).
Proof.
  assert (Hmap : forall s, observe (ThreeViewMap.calls cs s)
                           = fold_left (fun o c => seenAfter c o) cs
                                       (observe s)).
  { induction cs as [|c cs IH]; intros s0; [reflexivity|].
    cbn [ThreeViewMap.calls fold_left].
    change (fold_left (fun s c => ThreeViewMap.call c s) cs
                      (ThreeViewMap.call c s0))
      with (ThreeViewMap.calls cs (ThreeViewMap.call c s0)).
    now rewrite IH, observe_call. }
  split; [apply Hmap|]. rewrite calls_same. apply Hmap.
Qed.

End SeenFromOutside.

(** ** Mounting, unmounting and the weather report *)

Section MountAndReport.
Import Scene SceneSpec FrameParts Lifecycle.
Context {K : Controllers}.

Ltac refs :=
  cbn [sceneRef rendererRef rodCtrlRef bobberCtrlRef weatherCtrlRef
       seabedCtrlRef line stateRef lastWeatherReportRef lastTime
       set_sceneRef set_rendererRef set_rodCtrlRef set_bobberCtrlRef set_weatherCtrlRef
       set_seabedCtrlRef set_line set_stateRef set_lastWeatherReportRef
       set_lastTime fst snd option_map isCasted targetPos] in *.

Lemma call_weather (c : Command) (s : State) :
  weatherCtrlRef (ThreeViewMap.call c s) = weatherCtrlRef s /\
  lastWeatherReportRef (ThreeViewMap.call c s) = lastWeatherReportRef s /\
  rendererRef (ThreeViewMap.call c s) = rendererRef s /\
  seabedCtrlRef (ThreeViewMap.call c s) = seabedCtrlRef s /\
  lastTime (ThreeViewMap.call c s) = lastTime s /\
  line (ThreeViewMap.call c s) = line s /\
  (rodCtrlRef s = None -> rodCtrlRef (ThreeViewMap.call c s) = None) /\
  (bobberCtrlRef s = None -> bobberCtrlRef (ThreeViewMap.call c s) = None).
Proof.
  destruct c, s as [? ? [rod|] [bobber|] ? ? ? ? ? ?]; cbn;
    repeat split; intros; congruence.
Qed.

Lemma call_sceneRef (c : Command) (s : State) :
  sceneRef (ThreeViewMap.call c s) = sceneRef s.
Proof. now destruct c, s as [? ? [rod|] [bobber|] ? ? ? ? ? ?]. Qed.

(** After a frame that ran with the callback passed, the last report is
    the report of the weather as it now is. *)
Lemma frame_inSync (props : Props) (now : R) (s : State) :
  onWeatherUpdate props = true ->
  weatherCtrlRef s <> None ->
  inSync (fst (ThreeViewMap.frame props now s)) /\
  match snd (ThreeViewMap.frame props now s) with
  | Some c =>
      reportOf c <> lastWeatherReportRef s /\
      lastWeatherReportRef (fst (ThreeViewMap.frame props now s)) = reportOf c
  | None =>
      lastWeatherReportRef (fst (ThreeViewMap.frame props now s))
      = lastWeatherReportRef s
  end.
Proof.
  intros Hcb Hw.
  destruct (weatherCtrlRef s) as [w|] eqn:Hws; [|now elim Hw].
  destruct (frame_reports props now s w Hcb Hws) as (w' & F1 & F2 & F3 & F4).
  cbn zeta in *.
  destruct (ThreeViewMap.frame props now s) as [s' c]; cbn [fst snd] in *.
  destruct F3 as [->| ->].
  - split; [|exact F4]. exists w'. split; [exact F1|].
    rewrite F4.
    destruct (lastWeatherReportRef s) as [lw lh] eqn:Hlast.
    assert (Hnd : ~ differs (mkReport lw lh) w') by (intros Hd; now apply F2).
    unfold differs in Hnd; cbn [lastWeather hour] in Hnd.
    destruct (WeatherType_eqb lw (weather w')) eqn:Hwe.
    + apply WeatherType_eqb_eq in Hwe.
      destruct (Z.eq_dec lh (Int_part (time w'))) as [<-|Hne];
        [now subst|tauto].
    + exfalso. apply Hnd. left. intros Heq.
      apply WeatherType_eqb_eq in Heq. congruence.
  - assert (Hd : differs (lastWeatherReportRef s) w')
      by (apply F2; discriminate).
    split; [exists w'; split; [exact F1|rewrite F4; reflexivity]|].
    split; [|exact F4].
    unfold reportOf; cbn [fst snd]. intros Heq. rewrite <- Heq in Hd.
    unfold differs in Hd; cbn [lastWeather hour] in Hd. tauto.
Qed.

Lemma call_inSync (c : Command) (s : State) :
  inSync s -> inSync (ThreeViewMap.call c s).
Proof.
  intros (w & Hw & Hr). destruct (call_weather c s) as (C1 & C2 & _).
  exists w. now rewrite C1, C2.
Qed.

Lemma run_synced (props : Props) (es : list Event) :
  onWeatherUpdate props = true ->
  forall s seen,
    alive s -> weatherCtrlRef s <> None -> (seen = true -> inSync s) ->
    syncedFrom seen es (ThreeViewMap.run props es s) /\
    noStutter (lastWeatherReportRef s)
              (reports (ThreeViewMap.run props es s)).
Proof.
  intros Hcb. induction es as [|[c|now] es IH]; intros s seen Ha Hw Hs.
  - now split.
  - cbn [ThreeViewMap.run ThreeViewMap.step syncedFrom reports fst isFrame].
    rewrite orb_false_r.
    destruct (call_weather c s) as (C1 & C2 & C3 & _).
    destruct (IH (ThreeViewMap.call c s) seen) as (I1 & I2).
    + destruct Ha as (r & Hr & Hc). exists r. now rewrite C3.
    + now rewrite C1.
    + intros Hseen. apply call_inSync. now apply Hs.
    + rewrite C2 in I2. split; [split|]; try assumption.
      intros Hseen. apply call_inSync. now apply Hs.
  - cbn [ThreeViewMap.run ThreeViewMap.step syncedFrom isFrame].
    rewrite orb_true_r. rewrite (animate_alive props now s Ha).
    destruct (frame_inSync props now s Hcb Hw) as (Hsync & Hrep).
    destruct (frame_keeps props now s) as (F1 & _ & _ & _ & F5 & _).
    cbn zeta in *.
    destruct (ThreeViewMap.frame props now s) as [s' c] eqn:Hf.
    cbn [fst snd] in *.
    destruct (IH s' true) as (I1 & I2).
    + destruct Ha as (r & Hr & Hc). exists r. now rewrite F1.
    + intros Hn. apply F5 in Hn. contradiction.
    + intros _. exact Hsync.
    + split; [split; [intros _; exact Hsync|exact I1]|].
      cbn [reports]. destruct c as [c|].
      * destruct Hrep as (Hne & Heq). cbn [noStutter].
        split; [exact Hne|]. now rewrite <- Heq.
      * now rewrite <- Hrep.
Qed.

(** X15. The last report is never stale. In a component that was given
    the callback, has its weather controller and a renderer with a
    context, after the first frame of any run of frames and API calls the
    last reported (weather, hour) is, at every step, the category and the
    integer hour of the weather controller's current state. *)
Theorem weather_report_stays_in_sync
        (props : Props) (es : list Event) (s : State) :
  onWeatherUpdate props = true ->
  alive s ->
  weatherCtrlRef s <> None ->
  syncedFrom false es (ThreeViewMap.run props es s).
Proof.
  intros Hcb Ha Hw.
  apply (run_synced props es Hcb s false Ha Hw). discriminate.
Qed.

(** X16. The callback never reports the same thing twice in a row. Along
    any run of frames and API calls of such a component, each report
    (weather, integer hour) that the callback receives differs from the
    report before it, and the first one from the report held at the
    start. *)
Theorem weather_reports_never_repeat
        (props : Props) (es : list Event) (s : State) :
  onWeatherUpdate props = true ->
  alive s ->
  weatherCtrlRef s <> None ->
  noStutter (lastWeatherReportRef s) (reports (ThreeViewMap.run props es s)).
Proof.
  intros Hcb Ha Hw.
  apply (run_synced props es Hcb s false Ha Hw). discriminate.
Qed.

(** X17. The first effect builds once. In the version with the map
    prop, once the first effect has built the scene, running it again
    (with any host and props) changes nothing and calls nothing: the
    renderer it finds makes it return at once. *)
Theorem init_effect_runs_once
        (host host' : Host) (props props' : Props) (s : State) :
  containerPresent host = true ->
  webglAvailable host = true ->
  rendererRef s = None ->
  let s1 := fst (ThreeViewMap.initEffect host props s) in
  rendererRef s1 = Some (mkRenderer true) /\
  ThreeViewMap.initEffect host' props' s1 = (s1, None).
Proof.
  intros Hc Hw Hr. cbn zeta.
  rewrite (initEffect_builds host props s Hc Hw Hr).
  destruct (frame_keeps props (firstFrameClock host)
              (ThreeViewMap.build host
                 (set_rendererRef (Some (mkRenderer true))
                    (set_sceneRef (Some newScene) s))))
    as (F1 & _).
  cbn zeta in F1. unfold ThreeViewMap.build in F1 at 2. refs.
  split; [exact F1|].
  unfold ThreeViewMap.initEffect. rewrite F1.
  now destruct (containerPresent host').
Qed.

(** X18. A first render that cannot build. In the version with the map
    prop: without the container element the first render changes no ref;
    with the container but no WebGL context to be had, it puts the new
    scene into sceneRef and changes nothing else.  Either way it makes no
    weather report, it still calls onReady when that was passed, and the
    API still works on the result: any calls change the CastState only,
    and there is no bobber and no rod to show. *)
Theorem failed_mount_sets_only_the_scene
        (host : Host) (props : Props) (cs : list Command) :
  containerPresent host = false \/ webglAvailable host = false ->
  let s0 := if containerPresent host
            then set_sceneRef (Some newScene) initialState
            else initialState in
  ThreeViewMap.firstRender host props initialState
  = (s0, None, onReady props) /\
  ThreeViewMap.calls cs s0
  = set_stateRef (stateRef (ThreeViewMap.calls cs s0)) s0 /\
  obs_bobberVisible (observe (ThreeViewMap.calls cs s0)) = None /\
  obs_reeling (observe (ThreeViewMap.calls cs s0)) = None.
Proof.
  intros Hfail. cbn zeta.
  assert (Hmount : ThreeViewMap.firstRender host props initialState
                   = (if containerPresent host
                      then set_sceneRef (Some newScene) initialState
                      else initialState, None, onReady props)).
  { unfold ThreeViewMap.firstRender, ThreeViewMap.mount,
      ThreeViewMap.initEffect, ThreeViewMap.readyEffect.
    destruct Hfail as [-> | Hw].
    - reflexivity.
    - rewrite Hw. now destruct (containerPresent host). }
  assert (Hcalls : forall g st,
            ThreeViewMap.calls cs
              (set_stateRef st (set_sceneRef g initialState))
            = set_stateRef
                (stateRef (ThreeViewMap.calls cs
                             (set_stateRef st (set_sceneRef g initialState))))
                (set_sceneRef g initialState)).
  { intros g. induction cs as [|c cs IH]; intros st; [reflexivity|].
    cbn [ThreeViewMap.calls fold_left].
    destruct c; apply IH. }
  split; [exact Hmount|].
  assert (Hc : ThreeViewMap.calls cs
                 (if containerPresent host
                  then set_sceneRef (Some newScene) initialState
                  else initialState)
               = set_stateRef
                   (stateRef
                      (ThreeViewMap.calls cs
                         (if containerPresent host
                          then set_sceneRef (Some newScene) initialState
                          else initialState)))
                   (if containerPresent host
                    then set_sceneRef (Some newScene) initialState
                    else initialState)).
  { destruct (containerPresent host).
    - exact (Hcalls (Some newScene) (stateRef initialState)).
    - exact (Hcalls None (stateRef initialState)). }
  split; [exact Hc|]. rewrite Hc.
  now destruct (containerPresent host).
Qed.

Lemma silent_refl (s : State) : silent (cleanup s) (cleanup s).
Proof. now repeat split. Qed.

Lemma silent_step (props : Props) (e : Event) (s0 s : State) :
  silent s0 s ->
  silent s0 (fst (ThreeViewMap.step props e s)) /\
  snd (ThreeViewMap.step props e s) = None.
Proof.
  intros (S0 & S1 & S2 & S3 & S4 & S5 & S6 & S7 & S8).
  destruct e as [c|now]; cbn [ThreeViewMap.step fst snd].
  - destruct (call_weather c s) as (C1 & C2 & C3 & C4 & C5 & C6 & C7 & C8).
    split; [|reflexivity].
    unfold silent. rewrite (call_sceneRef c s), C1, C2, C3, C4, C5, C6.
    repeat split; auto.
  - unfold ThreeViewMap.animate. rewrite S1. cbn [fst snd].
    split; [|reflexivity]. now repeat split.
Qed.

(** X19. After the cleanup the component is silent. In the version with
    the map prop, once the cleanup has run, no sequence of frames and API
    calls brings the scene, a controller or the renderer back, moves the
    line,
    advances the clock or calls the weather callback: frames do nothing at
    all, and calls change the CastState only.  Running the cleanup twice
    is the same as running it once. *)
Theorem cleanup_silences_component
        (props : Props) (es : list Event) (s : State) :
  cleanup (cleanup s) = cleanup s /\
  Forall (fun r => silent (cleanup s) (fst r) /\ snd r = None)
         (ThreeViewMap.run props es (cleanup s)) /\
  (forall now, ThreeViewMap.animate props now (cleanup s)
               = (cleanup s, None)).
Proof.
  split; [reflexivity|]. split; [|reflexivity].
  assert (Hrun : forall st, silent (cleanup s) st ->
                   Forall (fun r => silent (cleanup s) (fst r) /\ snd r = None)
                          (ThreeViewMap.run props es st)).
  { induction es as [|e es IH]; intros st Hst; [constructor|].
    cbn [ThreeViewMap.run].
    destruct (silent_step props e _ _ Hst) as (H1 & H2).
    constructor; [now split|]. now apply IH. }
  apply Hrun, silent_refl.
Qed.

Lemma step_seabedVisible (props : Props) (e : Event) (s : State) :
  seabedVisible (fst (ThreeViewMap.step props e s)) = seabedVisible s.
Proof.
  unfold seabedVisible.
  destruct e as [c|now]; cbn [ThreeViewMap.step fst].
  - destruct (call_weather c s) as (_ & _ & _ & C4 & _). now rewrite C4.
  - unfold ThreeViewMap.animate.
    destruct (rendererRef s) as [r|]; [|reflexivity].
    destruct (getContext r); [|reflexivity].
    destruct (frame_keeps props now s) as (_ & _ & _ & _ & _ & _ & F7).
    cbn zeta in F7. rewrite F7. now destruct (seabedCtrlRef s).
Qed.

(** X20. Only the map effect decides whether the seabed shows. Frames
    and API calls never change the visibility flag of the seabed; the map
    effect sets it to the outcome of map = atlantis, so after several map
    changes the last one counts, whatever ran in between. *)
Theorem seabed_visibility_follows_last_map
        (props1 props2 props : Props) (es : list Event) (s : State) :
  Forall (fun r => seabedVisible (fst r) = seabedVisible s)
         (ThreeViewMap.run props es s) /\
  seabedVisible (ThreeViewMap.mapEffect props2 s)
  = option_map (fun _ => String.eqb (map props2) "atlantis")
               (seabedCtrlRef s) /\
  Forall (fun r =>
            seabedVisible (ThreeViewMap.mapEffect props2 (fst r))
            = option_map (fun _ => String.eqb (map props2) "atlantis")
                         (seabedCtrlRef s))
         (ThreeViewMap.run props es (ThreeViewMap.mapEffect props1 s)).
Proof.
  assert (Hrun : forall st,
            Forall (fun r => seabedVisible (fst r) = seabedVisible st)
                   (ThreeViewMap.run props es st)).
  { induction es as [|e es IH]; intros st; [constructor|].
    cbn [ThreeViewMap.run].
    pose proof (step_seabedVisible props e st) as Hstep.
    constructor; [exact Hstep|].
    rewrite <- Hstep. apply IH. }
  assert (Hmap : forall p st,
            seabedVisible (ThreeViewMap.mapEffect p st)
            = option_map (fun _ => String.eqb (map p) "atlantis")
                         (seabedCtrlRef st)).
  { intros p st. unfold seabedVisible. rewrite mapEffect_seabed.
    now destruct (seabedCtrlRef st). }
  split; [apply Hrun|]. split; [apply Hmap|].
  eapply Forall_impl; [|apply Hrun].
  intros [st c] Hst; cbn [fst] in *.
  rewrite Hmap.
  unfold seabedVisible in Hst. rewrite mapEffect_seabed in Hst.
  destruct (seabedCtrlRef st), (seabedCtrlRef s); cbn in *; congruence.
Qed.

End MountAndReport.

(** ** The line and the bobber, frame by frame *)

Section LineAndBobber.
Import Scene SceneSpec FrameParts Lifecycle.
Context {K : Controllers}.

Lemma bobbleHeight_bound (now : R) : -0.11 <= bobbleHeight now <= 0.01.
Proof.
  unfold bobbleHeight. cbv zeta.
  pose proof (SIN_bound (now * 0.001 * 2.5)).
  pose proof (COS_bound (now * 0.001 * 1.5)). lra.
Qed.

(** The line after a frame. *)
Lemma frame_line (props : Props) (now : R) (s : State) :
  let time := now * 0.001 in
  let tip := match rodCtrlRef s with
             | Some rod => getTipWorldPosition (rodAnimate time rod)
             | None => zero3
             end in
  line (fst (ThreeViewMap.frame props now s))
  = match isCasted (stateRef s), bobberCtrlRef s, line s with
    | true, Some bobber, Some _ =>
        let p := lerp (bobberPosition (bobberAnimate time bobber))
                      (targetPos (stateRef s)) 0.05 in
        Some (Float32.store tip,
              Float32.store (vec3 (vx p) (bobbleHeight now + 0.3) (vz p)))
    | false, _, Some _ =>
        Some (Float32.store tip,
              Float32.store
                (vec3 (vx tip + sin (time * 1.5) * 0.1) (vy tip - 1.5)
                      (vz tip + cos (time * 1.2) * 0.1)))
    | _, _, l => l
    end.
Proof.
  cbn zeta. rewrite frame_parts; cbn [fst].
  destruct (controllersPart_keeps (now * 0.001)
              (fst (weatherPart props now s)))
    as (_ & C2 & C3 & C4 & _ & C6 & _).
  destruct (weatherPart_keeps props now s)
    as (_ & W2 & W3 & W4 & _ & W6 & _).
  cbn zeta in *. rewrite W2, W3, W4, W6 in *.
  unfold ThreeViewMap.updateLine. rewrite C2, C3, C4, C6.
  destruct (isCasted (stateRef s)), (bobberCtrlRef s) as [b|],
    (line s) as [l|], (rodCtrlRef s) as [rod|];
    cbn [option_map line set_line set_bobberCtrlRef]; rewrite ?C6;
    reflexivity.
Qed.

(** X21. The line follows the rod and the bobber. After a frame of a
    component that has its line, the two ends of the line are, in single
    precision: when not casted, the rod's tip and a point 1.5 below it
    that swings by at most 0.1 along x and along z; when casted with a
    bobber, the rod's tip and the point 0.3 above the bobber, whose height
    lies within [-0.11, 0.01]; when casted without a bobber the line is
    left as it was.  The rod's tip is read after the rod's own animation,
    and is the origin without a rod. *)
Theorem line_follows_rod_and_bobber
        (props : Props) (now : R) (s : State) (l : Vector3 * Vector3) :
  line s = Some l ->
  let s' := fst (ThreeViewMap.frame props now s) in
  let tip := match rodCtrlRef s' with
             | Some rod => getTipWorldPosition rod
             | None => zero3
             end in
  exists l',
    line s' = Some l' /\
    (isCasted (stateRef s) = false ->
     fst l' = Float32.store tip /\
     exists swingX swingZ,
       -0.1 <= swingX <= 0.1 /\ -0.1 <= swingZ <= 0.1 /\
       snd l' = Float32.store (vec3 (vx tip + swingX) (vy tip - 1.5)
                                    (vz tip + swingZ))) /\
    (isCasted (stateRef s) = true -> bobberCtrlRef s <> None ->
     exists b', bobberCtrlRef s' = Some b' /\
                fst l' = Float32.store tip /\
                snd l' = Float32.store
                           (vec3 (vx (bobberPosition b'))
                                 (vy (bobberPosition b') + 0.3)
                                 (vz (bobberPosition b'))) /\
                -0.11 <= vy (bobberPosition b') <= 0.01) /\
    (isCasted (stateRef s) = true -> bobberCtrlRef s = None -> l' = l).
Proof.
  intros Hl. cbn zeta.
  pose proof (frame_line props now s) as Hline.
  pose proof (frame_bobber props now s) as Hbob.
  pose proof (frame_rod props now s) as Hrod.
  pose proof (bobbleHeight_bound now) as Hb.
  pose proof (SIN_bound (now * 0.001 * 1.5)) as Hsin.
  pose proof (COS_bound (now * 0.001 * 1.2)) as Hcos.
  cbn zeta in Hline. rewrite Hl in *. rewrite Hrod.
  destruct (isCasted (stateRef s)) eqn:Hc,
    (bobberCtrlRef s) as [b|] eqn:Hbs; cbn [option_map] in *.
  - eexists. split; [exact Hline|].
    split; [discriminate|]. split; [|now intros _ H].
    intros _ _. eexists. split; [exact Hbob|].
    destruct (rodCtrlRef s); cbn [option_map fst snd setPosition
                                   bobberPosition set_y lerp vx vy vz];
      repeat split; lra.
  - exists l. split; [exact Hline|].
    split; [discriminate|]. split; [intros _ H; now elim H|]. reflexivity.
  - eexists. split; [exact Hline|].
    split; [|split; discriminate].
    intros _. split; [now destruct (rodCtrlRef s)|].
    exists (sin (now * 0.001 * 1.5) * 0.1), (cos (now * 0.001 * 1.2) * 0.1).
    split; [lra|]. split; [lra|]. now destruct (rodCtrlRef s).
  - eexists. split; [exact Hline|].
    split; [|split; discriminate].
    intros _. split; [now destruct (rodCtrlRef s)|].
    exists (sin (now * 0.001 * 1.5) * 0.1), (cos (now * 0.001 * 1.2) * 0.1).
    split; [lra|]. split; [lra|]. now destruct (rodCtrlRef s).
Qed.

Lemma frame_offTarget (props : Props) (now : R) (s : State)
      (b : BobberController) :
  bobberStaysPut ->
  isCasted (stateRef s) = true ->
  bobberCtrlRef s = Some b ->
  line s <> None ->
  exists b',
    bobberCtrlRef (fst (ThreeViewMap.frame props now s)) = Some b' /\
    vx (bobberPosition b') - vx (targetPos (stateRef s))
    = 0.95 * (vx (bobberPosition b) - vx (targetPos (stateRef s))) /\
    vz (bobberPosition b') - vz (targetPos (stateRef s))
    = 0.95 * (vz (bobberPosition b) - vz (targetPos (stateRef s))).
Proof.
  intros Hput Hc Hb Hl.
  rewrite frame_bobber, Hc, Hb. cbn [option_map].
  destruct (line s) as [l|]; [|now elim Hl].
  eexists. split; [reflexivity|].
  cbn [setPosition bobberPosition set_y lerp vx vz].
  rewrite Hput. split; lra.
Qed.

Lemma closerThan_refl (o : R) : closerThan o o.
Proof. unfold closerThan. split; [nra|lra]. Qed.

Lemma closerThan_step (o0 o1 o : R) :
  o1 = 0.95 * o0 -> closerThan o1 o -> closerThan o0 o.
Proof.
  unfold closerThan. intros -> (H1 & H2).
  rewrite Rabs_mult, (Rabs_pos_eq 0.95) in H2 by lra.
  pose proof (Rabs_pos o0). split; [nra|lra].
Qed.

(** X22. The bobber closes in on the target and never passes it. While
    casted, with the line in place and a bobber whose own animation does
    not move it, frames only bring the bobber nearer to the target along
    x and along z, whatever time passes between them: after any number of
    frames its offset from the target along either axis lies between 0
    and the offset it started with.  The frames leave the CastState, and
    so the target, as they were. *)
Theorem bobber_closes_in_on_target
        (props : Props) (nows : list R) (s : State) (b : BobberController) :
  bobberStaysPut ->
  alive s ->
  isCasted (stateRef s) = true ->
  bobberCtrlRef s = Some b ->
  line s <> None ->
  stateRef (frames props nows s) = stateRef s /\
  exists ox oz,
    offTarget (frames props nows s) = Some (ox, oz) /\
    closerThan (vx (bobberPosition b) - vx (targetPos (stateRef s))) ox /\
    closerThan (vz (bobberPosition b) - vz (targetPos (stateRef s))) oz.
Proof.
  intros Hput. revert s b.
  induction nows as [|now nows IH]; intros s b Ha Hc Hb Hl.
  - unfold frames, offTarget; cbn [fold_left].
    rewrite Hb; cbn [option_map]. split; [reflexivity|].
    do 2 eexists. split; [reflexivity|]. split; apply closerThan_refl.
  - unfold frames in *; cbn [fold_left].
    rewrite (animate_alive props now s Ha).
    destruct (frame_offTarget props now s b Hput Hc Hb Hl)
      as (b' & B1 & B2 & B3).
    destruct (frame_keeps props now s) as (F1 & F2 & _ & _ & _ & F6 & _).
    cbn zeta in *.
    destruct (IH (fst (ThreeViewMap.frame props now s)) b')
      as (I1 & ox & oz & I2 & I3 & I4).
    + destruct Ha as (r & Hr & Hctx). exists r. now rewrite F1.
    + now rewrite F2.
    + exact B1.
    + intros Hn. apply F6 in Hn. contradiction.
    + rewrite F2 in *. split; [exact I1|].
      exists ox, oz. split; [exact I2|].
      split; eapply closerThan_step; eassumption.
Qed.

(** X23. The two versions mount alike. With the container in place and
    no renderer yet: when a WebGL context can be created, the version
    without the map prop builds some refs and makes some callbacks (the
    first weather report, onReady), and the version with it builds the
    same refs, then sets the seabed's visibility from the map, and makes
    the same callbacks; when none can be created, the version without the
    map prop fails with the exception, while the version with it puts the
    new scene into sceneRef, builds no renderer and no controller, goes on
    to its other effects and still calls onReady when that was passed. *)
Theorem versions_mount_alike (host : Host) (props : Props) (s : State) :
  containerPresent host = true ->
  rendererRef s = None ->
  match ThreeViewPlain.firstRender host props s with
  | Some (sP, c, ready) =>
      webglAvailable host = true /\
      ThreeViewMap.firstRender host props s
      = (ThreeViewMap.mapEffect props sP, c, ready)
  | None =>
      webglAvailable host = false /\
      ThreeViewMap.firstRender host props s
      = (ThreeViewMap.mapEffect props
           (ThreeViewMap.rodEffect props (set_sceneRef (Some newScene) s)),
         None, onReady props)
  end.
Proof.
  intros Hc Hr.
  unfold ThreeViewPlain.firstRender, ThreeViewMap.firstRender,
    ThreeViewPlain.readyEffect, ThreeViewMap.readyEffect,
    ThreeViewPlain.mount, ThreeViewPlain.initEffect,
    ThreeViewMap.mount, ThreeViewMap.initEffect.
  rewrite Hc, Hr; cbn [negb].
  destruct (webglAvailable host); cbn [negb]; [|now split].
  unfold ThreeViewPlain.animate, ThreeViewMap.animate.
  cbn [rendererRef ThreeViewMap.build set_lastTime set_weatherCtrlRef set_line
       set_seabedCtrlRef set_bobberCtrlRef set_rodCtrlRef set_rendererRef
       getContext].
  change (ThreeViewPlain.frame props (firstFrameClock host)
            (ThreeViewPlain.build host
               (set_rendererRef (Some (mkRenderer true))
                  (set_sceneRef (Some newScene) s))))
    with (ThreeViewMap.frame props (firstFrameClock host)
            (ThreeViewMap.build host
               (set_rendererRef (Some (mkRenderer true))
                  (set_sceneRef (Some newScene) s)))).
  unfold ThreeViewMap.build.
  cbn [set_lastTime set_weatherCtrlRef set_line set_seabedCtrlRef
       set_bobberCtrlRef set_rodCtrlRef set_rendererRef set_sceneRef
       sceneRef rendererRef
       rodCtrlRef bobberCtrlRef weatherCtrlRef seabedCtrlRef line stateRef
       lastWeatherReportRef lastTime].
  destruct (ThreeViewMap.frame props (firstFrameClock host) _) as [sF c].
  now split.
Qed.

End LineAndBobber.

(** ** The sample component, again *)

Section SampleRuns.
Import Scene SceneSpec FrameParts Lifecycle.

Lemma mounted_is_alive : alive Samples.mounted.
Proof.
  exists (mkRenderer true). split; [apply mounted_refs|reflexivity].
Qed.

Lemma casted_refs :
  alive MoreSamples.casted /\
  isCasted (stateRef MoreSamples.casted) = true /\
  targetPos (stateRef MoreSamples.casted) = castTarget 10 /\
  bobberCtrlRef MoreSamples.casted = Some (mkBobber true (vec3 0 2 0)) /\
  line MoreSamples.casted <> None.
Proof.
  destruct mounted_refs as (M1 & M2 & M3 & M4 & M5 & M6).
  destruct (cast_refs 10 Samples.mounted) as (C1 & C2 & C3).
  destruct (call_keeps (Cast 10) Samples.mounted) as (K1 & _ & _ & K4 & _).
  cbn zeta in *. cbn [ThreeViewMap.call] in *.
  unfold MoreSamples.casted.
  rewrite M3, M4 in C3. cbn [option_map] in C3.
  split; [exists (mkRenderer true); rewrite K1; now split|].
  rewrite C1, C3, K4. now repeat split.
Qed.

Lemma still_bobber_stays_put : bobberStaysPut (K := Samples.stillControllers).
Proof. intros time b. reflexivity. Qed.

End SampleRuns.

Lemma weather_report_stays_in_sync_witness :
  Scene.onWeatherUpdate Samples.atlantisProps = true /\
  FrameParts.alive Samples.mounted /\
  Scene.weatherCtrlRef Samples.mounted <> None /\
  Lifecycle.syncedFrom false MoreSamples.twoFrames
    (ThreeViewMap.run (K := Samples.stillControllers) Samples.atlantisProps
       MoreSamples.twoFrames Samples.mounted).
Proof.
  split; [reflexivity|]. split; [exact mounted_is_alive|].
  split; [apply mounted_refs|].
  apply (weather_report_stays_in_sync (K := Samples.stillControllers)
           Samples.atlantisProps MoreSamples.twoFrames Samples.mounted
           eq_refl mounted_is_alive).
  apply mounted_refs.
Defined.

Lemma weather_reports_never_repeat_witness :
  Scene.onWeatherUpdate Samples.atlantisProps = true /\
  FrameParts.alive Samples.mounted /\
  Scene.weatherCtrlRef Samples.mounted <> None /\
  Lifecycle.noStutter (Scene.lastWeatherReportRef Samples.mounted)
    (Lifecycle.reports
       (ThreeViewMap.run (K := Samples.stillControllers) Samples.atlantisProps
          MoreSamples.twoFrames Samples.mounted)).
Proof.
  split; [reflexivity|]. split; [exact mounted_is_alive|].
  split; [apply mounted_refs|].
  apply (weather_reports_never_repeat (K := Samples.stillControllers)
           Samples.atlantisProps MoreSamples.twoFrames Samples.mounted
           eq_refl mounted_is_alive).
  apply mounted_refs.
Defined.

Lemma init_effect_runs_once_witness :
  Scene.containerPresent Samples.host = true /\
  Scene.webglAvailable Samples.host = true /\
  Scene.rendererRef Scene.initialState = None /\
  ThreeViewMap.initEffect (K := Samples.stillControllers) Samples.host
    Samples.lakeProps
    (fst (ThreeViewMap.initEffect (K := Samples.stillControllers)
            Samples.host Samples.atlantisProps Scene.initialState))
  = (fst (ThreeViewMap.initEffect (K := Samples.stillControllers)
            Samples.host Samples.atlantisProps Scene.initialState), None).
Proof.
  split; [reflexivity|]. split; [reflexivity|]. split; [reflexivity|].
  apply (init_effect_runs_once (K := Samples.stillControllers)
           Samples.host Samples.host Samples.atlantisProps Samples.lakeProps
           Scene.initialState eq_refl eq_refl eq_refl).
Defined.

Lemma failed_mount_sets_only_the_scene_witness :
  (Scene.containerPresent MoreSamples.noWebgl = false \/
   Scene.webglAvailable MoreSamples.noWebgl = false) /\
  ThreeViewMap.firstRender (K := Samples.stillControllers) MoreSamples.noWebgl
    Samples.atlantisProps Scene.initialState
  = (Scene.set_sceneRef (Some Scene.newScene) Scene.initialState, None, true).
Proof.
  split; [right; reflexivity|].
  apply (failed_mount_sets_only_the_scene (K := Samples.stillControllers)
           MoreSamples.noWebgl Samples.atlantisProps []
           (or_intror eq_refl)).
Defined.

Lemma line_follows_rod_and_bobber_witness :
  exists l,
    Scene.line Samples.mounted = Some l /\
    exists l',
      Scene.line
        (fst (ThreeViewMap.frame (K := Samples.stillControllers)
                Samples.atlantisProps 16 Samples.mounted)) = Some l'.
Proof.
  destruct (Scene.line Samples.mounted) as [l|] eqn:Hl.
  - exists l. split; [reflexivity|].
    destruct (line_follows_rod_and_bobber (K := Samples.stillControllers)
                Samples.atlantisProps 16 Samples.mounted l Hl)
      as (l' & Hl' & _).
    exists l'. exact Hl'.
  - exfalso. destruct mounted_refs as (_ & _ & _ & _ & _ & M6). now apply M6.
Defined.

Lemma bobber_closes_in_on_target_witness :
  Lifecycle.bobberStaysPut (K := Samples.stillControllers) /\
  FrameParts.alive MoreSamples.casted /\
  Scene.isCasted (Scene.stateRef MoreSamples.casted) = true /\
  Scene.bobberCtrlRef MoreSamples.casted
  = Some (Scene.mkBobber true (vec3 0 2 0)) /\
  Scene.line MoreSamples.casted <> None /\
  Scene.stateRef
    (Lifecycle.frames (K := Samples.stillControllers) Samples.atlantisProps
       [16; 32] MoreSamples.casted)
  = Scene.stateRef MoreSamples.casted.
Proof.
  destruct casted_refs as (Ha & Hc & _ & Hb & Hl).
  split; [exact still_bobber_stays_put|].
  split; [exact Ha|]. split; [exact Hc|]. split; [exact Hb|].
  split; [exact Hl|].
  apply (bobber_closes_in_on_target (K := Samples.stillControllers)
           Samples.atlantisProps [16; 32] MoreSamples.casted _
           still_bobber_stays_put Ha Hc Hb Hl).
Defined.

Lemma versions_mount_alike_witness :
  Scene.containerPresent Samples.host = true /\
  Scene.rendererRef Scene.initialState = None /\
  match ThreeViewPlain.firstRender (K := Samples.stillControllers)
          Samples.host Samples.atlantisProps Scene.initialState with
  | Some (sP, c, ready) =>
      Scene.webglAvailable Samples.host = true /\
      ThreeViewMap.firstRender (K := Samples.stillControllers) Samples.host
        Samples.atlantisProps Scene.initialState
      = (ThreeViewMap.mapEffect Samples.atlantisProps sP, c, ready)
  | None =>
      Scene.webglAvailable Samples.host = false /\
      ThreeViewMap.firstRender (K := Samples.stillControllers) Samples.host
        Samples.atlantisProps Scene.initialState
      = (ThreeViewMap.mapEffect Samples.atlantisProps
           (ThreeViewMap.rodEffect (K := Samples.stillControllers)
              Samples.atlantisProps
              (Scene.set_sceneRef (Some Scene.newScene) Scene.initialState)),
         None, Scene.onReady Samples.atlantisProps)
  end.
Proof.
  split; [reflexivity|]. split; [reflexivity|].
  apply (versions_mount_alike (K := Samples.stillControllers) Samples.host
           Samples.atlantisProps Scene.initialState eq_refl eq_refl).
Defined.
